(** * Credential store of containers/image: [pkg/docker/config/config.go]

    A shallow embedding of the credential resolution engine of
    [config.go] and the properties of it that the specification states.

    Conventions of the embedding.
    - A Go [string] is a sequence of bytes: Rocq's [string] (a list of
      [ascii], one per byte).
    - A Go [int] index is a [Z]; the sentinel [-1] of [strings.Index] and
      friends is kept.
    - A Go function returning [(T, error)] returns a [result T]; in every
      such function of this file the value returned next to a non-nil
      error is the zero value and is ignored by the callers.
    - A Go [map] is an [option (gmap string V)]: [None] is the nil map,
      which reads like an empty map.
    - Functions of other packages ([strings], [encoding/base64],
      [unicode/utf8]) are modelled where their behaviour is fixed by their
      documentation; [encoding/json], [path/filepath], the registries
      configuration and the credential helper programs are parameters.
    - Logging ([logrus]) has no effect on results and is left out. *)

From Stdlib Require Import ZArith Ascii String Lia.
From Equations.Prop Require Import Equations Logic.
From stdpp Require Import base option gmap strings list pretty.

Local Open Scope string_scope.
Local Open Scope Z_scope.
Local Open Scope list_scope.

#[local] Arguments String.append : simpl nomatch.

(** ** Go's [strings] package, on byte strings *)

Module Strings.

(** [len(s)] *)
Definition len (s : string) : Z := Z.of_nat (String.length s).

Fixpoint take (n : nat) (s : string) : string :=
  match n, s with
  | S n', String c s' => String c (take n' s')
  | _, _ => ""
  end.

Fixpoint drop (n : nat) (s : string) : string :=
  match n, s with
  | S n', String _ s' => drop n' s'
  | _, _ => s
  end.

(** [s[:i]] and [s[i:]] for an index in range. *)
Definition slice_to (s : string) (i : Z) : string := take (Z.to_nat i) s.
Definition slice_from (s : string) (i : Z) : string := drop (Z.to_nat i) s.

Definition HasPrefix (s pre : string) : bool := String.prefix pre s.

Definition TrimPrefix (s pre : string) : string :=
  if HasPrefix s pre then slice_from s (len pre) else s.

(** [strings.IndexByte]; [strings.IndexRune] of a rune below
    [utf8.RuneSelf] is this function. *)
Fixpoint IndexByte (s : string) (c : ascii) : Z :=
  match s with
  | "" => -1
  | String a s' =>
      if Ascii.eqb a c then 0
      else let i := IndexByte s' c in if i <? 0 then -1 else i + 1
  end.

Definition IndexRune (s : string) (r : ascii) : Z := IndexByte s r.

Definition ContainsRune (s : string) (r : ascii) : bool := 0 <=? IndexRune s r.

(** [strings.Index]: the first position at which [substr] occurs. *)
Fixpoint Index (s substr : string) : Z :=
  if String.prefix substr s then 0
  else match s with
       | "" => -1
       | String _ s' =>
           let i := Index s' substr in if i <? 0 then -1 else i + 1
       end.

(** [strings.LastIndex]: the last position at which [substr] occurs. *)
Fixpoint LastIndex (s substr : string) : Z :=
  match s with
  | "" => if String.prefix substr "" then 0 else -1
  | String _ s' =>
      let i := LastIndex s' substr in
      if 0 <=? i then i + 1
      else if String.prefix substr s then 0 else -1
  end.

(** [strings.Cut]: [(before, after, found)]. *)
Definition Cut (s sep : string) : string * string * bool :=
  let i := Index s sep in
  if 0 <=? i then (slice_to s i, slice_from s (i + len sep), true)
  else (s, "", false).

Fixpoint trimLeftByte (s : string) (c : ascii) : string :=
  match s with
  | String a s' => if Ascii.eqb a c then trimLeftByte s' c else s
  | "" => ""
  end.

Fixpoint trimRightByte (s : string) (c : ascii) : string :=
  match s with
  | "" => ""
  | String a s' =>
      match trimRightByte s' c with
      | "" => if Ascii.eqb a c then "" else String a ""
      | t => String a t
      end
  end.

(** [strings.Trim(s, cutset)] for a cutset of one byte below
    [utf8.RuneSelf]: that byte is removed from both ends. *)
Definition Trim (s : string) (c : ascii) : string :=
  trimLeftByte (trimRightByte s c) c.

End Strings.

(** ** [encoding/base64], [StdEncoding]

    A bit-level model: three bytes are four groups of six bits, most
    significant bit first; the final quantum is padded with '='. Decoding
    skips carriage returns and line feeds, wants whole quanta, accepts
    padding only in the last one, and (the encoding not being strict) does
    not look at the unused bits of a padded quantum. *)

Module Base64.

Definition sextet : Type := bool * bool * bool * bool * bool * bool.

Definition encodeStd : string :=
  "ABCDEFGHIJKLMNOPQRSTUVWXYZabcdefghijklmnopqrstuvwxyz0123456789+/".

Definition bit (b : bool) (w : nat) : nat := if b then w else O.

(** Most significant bit first. *)
Definition sextet_index (x : sextet) : nat :=
  let '(b5, b4, b3, b2, b1, b0) := x in
  (bit b5 32 + bit b4 16 + bit b3 8 + bit b2 4 + bit b1 2 + bit b0 1)%nat.

Definition enc6 (x : sextet) : ascii :=
  match String.get (sextet_index x) encodeStd with
  | Some c => c
  | None => "A"%char
  end.

Definition index_sextet (n : nat) : sextet :=
  (Nat.testbit n 5, Nat.testbit n 4, Nat.testbit n 3,
   Nat.testbit n 2, Nat.testbit n 1, Nat.testbit n 0).

Definition dec6 (c : ascii) : option sextet :=
  let i := Strings.IndexByte encodeStd c in
  if i <? 0 then None else Some (index_sextet (Z.to_nat i)).

Definition padChar : ascii := "="%char.

Fixpoint EncodeToString (src : string) : string :=
  match src with
  | "" => ""
  | String (Ascii a0 a1 a2 a3 a4 a5 a6 a7) "" =>
      String (enc6 (a7, a6, a5, a4, a3, a2))
     (String (enc6 (a1, a0, false, false, false, false))
     (String padChar (String padChar "")))
  | String (Ascii a0 a1 a2 a3 a4 a5 a6 a7)
      (String (Ascii b0 b1 b2 b3 b4 b5 b6 b7) "") =>
      String (enc6 (a7, a6, a5, a4, a3, a2))
     (String (enc6 (a1, a0, b7, b6, b5, b4))
     (String (enc6 (b3, b2, b1, b0, false, false))
     (String padChar "")))
  | String (Ascii a0 a1 a2 a3 a4 a5 a6 a7)
      (String (Ascii b0 b1 b2 b3 b4 b5 b6 b7)
         (String (Ascii c0 c1 c2 c3 c4 c5 c6 c7) rest)) =>
      String (enc6 (a7, a6, a5, a4, a3, a2))
     (String (enc6 (a1, a0, b7, b6, b5, b4))
     (String (enc6 (b3, b2, b1, b0, c7, c6))
     (String (enc6 (c5, c4, c3, c2, c1, c0))
        (EncodeToString rest))))
  end.

Definition byte1 (x y : sextet) : ascii :=
  let '(a7, a6, a5, a4, a3, a2) := x in
  let '(a1, a0, _, _, _, _) := y in
  Ascii a0 a1 a2 a3 a4 a5 a6 a7.

Definition byte2 (y z : sextet) : ascii :=
  let '(_, _, b7, b6, b5, b4) := y in
  let '(b3, b2, b1, b0, _, _) := z in
  Ascii b0 b1 b2 b3 b4 b5 b6 b7.

Definition byte3 (z w : sextet) : ascii :=
  let '(_, _, _, _, c7, c6) := z in
  let '(c5, c4, c3, c2, c1, c0) := w in
  Ascii c0 c1 c2 c3 c4 c5 c6 c7.

Definition is_newline (c : ascii) : bool :=
  Ascii.eqb c "010"%char || Ascii.eqb c "013"%char.

Fixpoint skip_newlines (s : string) : string :=
  match s with
  | "" => ""
  | String c s' =>
      if is_newline c then skip_newlines s' else String c (skip_newlines s')
  end.

(** The quanta of an input without line breaks. *)
Fixpoint decode_quanta (s : string) : option string :=
  match s with
  | "" => Some ""
  | String c0 (String c1 (String c2 (String c3 rest))) =>
      match rest with
      | "" =>
          if Ascii.eqb c3 padChar then
            if Ascii.eqb c2 padChar then
              x ← dec6 c0; y ← dec6 c1;
              Some (String (byte1 x y) "")
            else
              x ← dec6 c0; y ← dec6 c1; z ← dec6 c2;
              Some (String (byte1 x y) (String (byte2 y z) ""))
          else
            x ← dec6 c0; y ← dec6 c1; z ← dec6 c2; w ← dec6 c3;
            Some (String (byte1 x y) (String (byte2 y z) (String (byte3 z w) "")))
      | _ =>
          x ← dec6 c0; y ← dec6 c1; z ← dec6 c2; w ← dec6 c3;
          tl ← decode_quanta rest;
          Some (String (byte1 x y) (String (byte2 y z) (String (byte3 z w) tl)))
      end
  | _ => None
  end.

(** [None] stands for a [CorruptInputError]. *)
Definition DecodeString (s : string) : option string :=
  decode_quanta (skip_newlines s).

End Base64.

(** ** [unicode/utf8]: [utf8.ValidString] *)

Module Utf8.

Definition in_range (lo hi : N) (c : ascii) : bool :=
  ((lo <=? N_of_ascii c) && (N_of_ascii c <=? hi))%N.

Definition cont (c : ascii) : bool := in_range 128 191 c.

Fixpoint ValidString (s : string) : bool :=
  match s with
  | "" => true
  | String c r =>
      if in_range 0 127 c then ValidString r
      else if in_range 194 223 c then
        match r with
        | String c1 r1 => cont c1 && ValidString r1
        | _ => false
        end
      else if in_range 224 239 c then
        match r with
        | String c1 (String c2 r2) =>
            (if in_range 224 224 c then in_range 160 191 c1
             else if in_range 237 237 c then in_range 128 159 c1
             else cont c1)
            && cont c2 && ValidString r2
        | _ => false
        end
      else if in_range 240 244 c then
        match r with
        | String c1 (String c2 (String c3 r3)) =>
            (if in_range 240 240 c then in_range 144 191 c1
             else if in_range 244 244 c then in_range 128 143 c1
             else cont c1)
            && cont c2 && cont c3 && ValidString r3
        | _ => false
        end
      else false
  end.

End Utf8.

(** ** [fmt.Sprintf] with one [%d] verb

    The decimal form of [n] takes the place of the verb. *)
Definition fmt_Sprintf_d (format : string) (n : Z) : string :=
  let '(before, after, found) := Strings.Cut format "%d" in
  if found then before +:+ pretty n +:+ after else format.

(** ** Errors

    An error is what the code builds it from: [errors.New], [fmt.Errorf]
    with its format string and arguments ([arg_w] is the operand of a
    [%w] verb, which may be nil), the aggregate of [go-multierror], and
    errors made by other packages. *)

#[local] Set Warnings "-register-all".
Inductive error : Type :=
| errors_New (text : string)
| fmt_Errorf (format : string) (args : list fmt_arg)
| multierror_Error (errs : list error)
| os_PathError (op path : string) (not_exist : bool)
| base64_CorruptInputError
| foreign_error (text : string)
with fmt_arg : Type :=
| arg_s (s : string)
| arg_w (e : option error).

Inductive result (A : Type) : Type :=
| Ok (a : A)
| Err (e : error).
Arguments Ok {A} a.
Arguments Err {A} e.

(** [os.IsNotExist] *)
Definition os_IsNotExist (e : error) : bool :=
  match e with
  | os_PathError _ _ ne => ne
  | _ => false
  end.

(** [multierror.Append(err, e)] for a non-nil [e]: the result is always a
    non-nil aggregate; aggregates among the operands are flattened. *)
Definition multierror_Append (err : option error) (e : error) : option error :=
  let old := match err with
             | None => []
             | Some (multierror_Error es) => es
             | Some other => [other]
             end in
  let new := match e with
             | multierror_Error es => es
             | _ => [e]
             end in
  Some (multierror_Error (old ++ new)).

Definition ErrNotLoggedIn : error := errors_New "not logged in".
Definition ErrNotSupported : error := errors_New "not supported".

(** ** Data model *)

(** A Go map with string keys; [None] is the nil map. *)
Abbreviation gomap V := (option (gmap string V)).

(** [v, exists := m[k]] *)
Definition gomap_lookup {V} (m : gomap V) (k : string) : option V :=
  match m with
  | Some g => g !! k
  | None => None
  end.

(** [m[k] = v]. Go panics when [m] is nil; the code only assigns to
    [AuthConfigs] of a document that [parse] returned for a file in the
    modern format, which is never nil (see [parse_modern_AuthConfigs]). *)
Definition gomap_set {V} (m : gomap V) (k : string) (v : V) : gomap V :=
  Some (<[k := v]> (default ∅ m)).

(** [delete(m, k)], a no-op on the nil map. *)
Definition gomap_delete {V} (m : gomap V) (k : string) : gomap V :=
  delete k <$> m.

Record dockerAuthConfig : Type := {
  Auth : string;
  IdentityToken : string;
}.

Record dockerConfigFile : Type := {
  AuthConfigs : gomap dockerAuthConfig;
  CredHelpers : gomap string;
}.

Record authPath : Type := {
  path : string;
  legacyFormat : bool;
}.

Definition newAuthPathDefault (p : string) : authPath :=
  {| path := p; legacyFormat := false |}.

(** The parts of package [types] that the code uses. *)
Module types.

Record DockerAuthConfig : Type := {
  Username : string;
  Password : string;
  IdentityToken : string;
}.

(** [types.DockerAuthConfig{}] *)
Definition empty : DockerAuthConfig :=
  {| Username := ""; Password := ""; IdentityToken := "" |}.

Record SystemContext : Type := {
  AuthFilePath : string;
  LegacyFormatAuthFilePath : string;
  RootForImplicitAbsolutePaths : string;
  DockerAuthConfig_ : option DockerAuthConfig;
}.

End types.

#[global] Instance dockerAuthConfig_eq_dec : EqDecision dockerAuthConfig.
Proof. solve_decision. Defined.
#[global] Instance dockerConfigFile_eq_dec : EqDecision dockerConfigFile.
Proof. solve_decision. Defined.
#[global] Instance authPath_eq_dec : EqDecision authPath.
Proof. solve_decision. Defined.
#[global] Instance DockerAuthConfig_eq_dec : EqDecision types.DockerAuthConfig.
Proof. solve_decision. Defined.

(** ** Key validation and normalisation *)

(** validateKey verifies that the input key does not have a prefix that is
    not allowed and returns an indicator if the key is namespaced. *)
Definition validateKey (key : string) : result bool :=
  if Strings.HasPrefix key "http://" || Strings.HasPrefix key "https://" then
    Err (fmt_Errorf "key %s contains http[s]:// prefix" [arg_s key])
  else if Strings.ContainsRune key "@" then
    Err (fmt_Errorf "key %s contains a '@' character" [arg_s key])
  else
    let firstSlash := Strings.IndexRune key "/" in
    let isNamespaced := negb (firstSlash =? -1) in
    if isNamespaced
       && Strings.ContainsRune (Strings.slice_from key (firstSlash + 1)) ":" then
      Err (fmt_Errorf "key %s contains a ':' character after host[:port]" [arg_s key])
    else Ok isNamespaced.

(** normalizeRegistry converts the provided registry if a known docker.io
    host is provided. *)
Definition normalizeRegistry (registry : string) : string :=
  if bool_decide (registry = "registry-1.docker.io")
     || bool_decide (registry = "docker.io")
  then "index.docker.io"
  else registry.

(** normalizeAuthFileKey takes a key, converts it to a host name and
    normalizes the resulting registry. *)
Definition normalizeAuthFileKey (key : string) (legacyFormat : bool) : string :=
  let stripped := Strings.TrimPrefix key "http://" in
  let stripped := Strings.TrimPrefix stripped "https://" in
  let stripped :=
    if legacyFormat || negb (bool_decide (stripped = key))
    then (Strings.Cut stripped "/").1.1
    else stripped in
  normalizeRegistry stripped.

(** The registry of a key, as [getCredentialsWithHomeDir] computes it. *)
Definition registryOfKey (key : string) : string :=
  let firstSlash := Strings.IndexRune key "/" in
  if negb (firstSlash =? -1) then Strings.slice_to key firstSlash else key.

(** ** Decoding an entry of [auths] *)

(** decodeDockerAuth decodes the username and password from conf, which is
    entry key in path. *)
Definition decodeDockerAuth (path key : string) (conf : dockerAuthConfig)
  : result types.DockerAuthConfig :=
  match Base64.DecodeString (Auth conf) with
  | None => Err base64_CorruptInputError
  | Some decoded =>
      let '(user, passwordPart, valid) := Strings.Cut decoded ":" in
      if negb valid then Ok types.empty
      else
        let password := Strings.Trim passwordPart zero in
        Ok {| types.Username := user;
              types.Password := password;
              types.IdentityToken := IdentityToken conf |}
  end.

(** ** Candidate keys *)

Lemma LastIndex_slash_bound (s : string) :
  Strings.LastIndex s "/" = -1 ∨ 0 ≤ Strings.LastIndex s "/" < Strings.len s.
Proof.
  unfold Strings.len. induction s as [|a s IH]; [left; reflexivity|].
  cbn [Strings.LastIndex String.length].
  destruct IH as [IH|IH].
  - rewrite IH. change (0 <=? -1) with false. cbv iota.
    destruct (String.prefix "/" (String a s)); [right; lia | left; reflexivity].
  - destruct (Z.leb_spec 0 (Strings.LastIndex s "/")); [right; lia | lia].
Qed.

Lemma length_take (n : nat) (s : string) :
  String.length (Strings.take n s) = Nat.min n (String.length s).
Proof.
  revert s; induction n as [|n IH]; intros [|c s]; simpl; auto.
Qed.

(** authKeysForKey returns the keys matching a provided auth file key, in
    order from the best match to worst. The loop of the source, with its
    accumulator [res]. *)
Equations? authKeysForKey_loop (res : list string) (key : string) : list string
  by wf (String.length key) lt :=
  authKeysForKey_loop res key
    with inspect (Strings.LastIndex key "/" =? -1) => {
    | exist _ true _ => res ++ [key]
    | exist _ false Hslash =>
        authKeysForKey_loop (res ++ [key])
          (Strings.slice_to key (Strings.LastIndex key "/")) }.
Proof.
  unfold Strings.slice_to. rewrite length_take.
  apply Z.eqb_neq in Hslash.
  destruct (LastIndex_slash_bound key) as [?|Hb]; [contradiction|].
  unfold Strings.len in Hb. lia.
Qed.

Definition authKeysForKey (key : string) : list string :=
  authKeysForKey_loop [] key.

(** ** The environment of the package

    What the code obtains from the operating system and from other
    packages. None of it is decided by [config.go]. *)

Class Platform : Type := {
  (** [runtime.GOOS] *)
  GOOS : string;
  (** [os.Getenv]: the empty string for a variable that is not set *)
  os_Getenv : string → string;
  os_Getuid : Z;
  homedir_Get : string;
  filepath_FromSlash : string → string;
  filepath_Join : list string → string;
  filepath_Dir : string → string;
  (** [sysregistriesv2.AuthenticationFileHelper], the name that stands for
      the built-in auth-file backend in a list of helpers *)
  AuthenticationFileHelper : string;
  (** [sysregistriesv2.CredentialHelpers] *)
  CredentialHelpers : option types.SystemContext → result (list string);
}.

(** [encoding/json] at the two types the code decodes into and the one it
    encodes. Decoding starts from the zero value of the target. *)
Class Json : Type := {
  json_Unmarshal_config : string → result dockerConfigFile;
  json_Unmarshal_auths : string → result (gomap dockerAuthConfig);
  json_MarshalIndent : dockerConfigFile → result string;
}.

(** What the package relies on from [encoding/json].

    Every string of a document is valid UTF-8: these are the documents
    that [encoding/json] writes and reads back unchanged (other bytes are
    replaced by U+FFFD, on writing and on reading). *)
Definition utf8_doc (d : dockerConfigFile) : Prop :=
  map_Forall (λ k v, Utf8.ValidString k = true
                     ∧ Utf8.ValidString (Auth v) = true
                     ∧ Utf8.ValidString (IdentityToken v) = true)
             (default ∅ (AuthConfigs d))
  ∧ map_Forall (λ k v, Utf8.ValidString k = true ∧ Utf8.ValidString v = true)
               (default ∅ (CredHelpers d)).

#[global] Instance utf8_doc_dec d : Decision (utf8_doc d).
Proof. unfold utf8_doc. apply _. Defined.

(** A document after it was written and read again: [credHelpers] has
    [omitempty], so an empty map is not written and comes back nil;
    [auths] is written as it is (a nil map as [null]). *)
Definition json_reload (d : dockerConfigFile) : dockerConfigFile :=
  {| AuthConfigs := AuthConfigs d;
     CredHelpers := match CredHelpers d with
                    | Some m => if decide (m = ∅) then None else Some m
                    | None => None
                    end |}.

Record JsonSpec (J : Json) : Prop := {
  (** an input of zero bytes is not a JSON text *)
  json_empty_config : ∃ e, json_Unmarshal_config "" = Err e;
  json_empty_auths : ∃ e, json_Unmarshal_auths "" = Err e;
  (** a document has no value that cannot be encoded *)
  json_marshal_total : ∀ d, ∃ raw, json_MarshalIndent d = Ok raw;
  json_roundtrip : ∀ d raw,
    utf8_doc d → json_MarshalIndent d = Ok raw →
    json_Unmarshal_config raw = Ok (json_reload d);
  json_unmarshal_utf8 : ∀ raw d, json_Unmarshal_config raw = Ok d → utf8_doc d;
}.

Module credentials.
Record Credentials : Type := {
  ServerURL : string;
  Username : string;
  Secret : string;
}.
End credentials.

(** The client of the credential helper programs
    ([docker-credential-helpers/client]). A helper is an external process
    with a state of its own; [program] is the name of its executable. *)
Class HelperClient : Type := {
  helper_state : Type;
  helperclient_Get :
    string → string → helper_state → result credentials.Credentials * helper_state;
  helperclient_Store :
    string → credentials.Credentials → helper_state → option error * helper_state;
  helperclient_Erase :
    string → string → helper_state → option error * helper_state;
  (** [credentials.IsErrCredentialsNotFoundMessage(err.Error())] *)
  IsErrCredentialsNotFound : error → bool;
}.

(** The order in which a [for k, v := range m] visits a map: some
    enumeration of its entries. *)
Class MapRange : Type := {
  go_range : gmap string dockerAuthConfig → list (string * dockerAuthConfig);
  go_range_perm : ∀ m, go_range m ≡ₚ map_to_list m;
}.

Inductive helper_call : Type :=
| call_Get (program registry : string)
| call_Store (program : string) (creds : credentials.Credentials)
| call_Erase (program registry : string).

Inductive file : Type :=
| RegularFile (data : string)
| Unreadable.

Section Engine.

Context {platform : Platform} {json : Json} {helper_client : HelperClient}
        {map_range : MapRange}.

(** The state the package works on: the file system, the helper
    programs and the record of the calls made to them. *)
Record World : Type := {
  files : gmap string file;
  dirs : gset string;
  (** directories that [os.MkdirAll] fails to create *)
  mkdir_denied : gset string;
  (** files that [ioutils.AtomicWriteFile] fails to write *)
  write_denied : gset string;
  helpers : helper_state;
  calls : list helper_call;
}.

(** A computation on the world. *)
Definition M (A : Type) : Type := World → A * World.

#[local] Instance M_ret : MRet M := λ A a w, (a, w).
#[local] Instance M_bind : MBind M :=
  λ A B f m w, let '(a, w') := m w in f a w'.

Definition os_ReadFile (name : string) : M (result string) :=
  λ w, (match files w !! name with
        | None => Err (os_PathError "open" name true)
        | Some Unreadable => Err (os_PathError "open" name false)
        | Some (RegularFile data) => Ok data
        end, w).

(** [os.IsNotExist(err)] for the [err] of [os.Stat(name)] *)
Definition os_Stat_IsNotExist (name : string) : M (option error) :=
  λ w, (if bool_decide (name ∈ dirs w) || bool_decide (is_Some (files w !! name))
        then None
        else Some (os_PathError "stat" name true), w).

(** A path and its ancestors. *)
Fixpoint dir_chain (fuel : nat) (name : string) : list string :=
  match fuel with
  | O => [name]
  | S fuel' => name :: dir_chain fuel' (filepath_Dir name)
  end.

Definition os_MkdirAll (name : string) : M (option error) :=
  λ w, if bool_decide (name ∈ mkdir_denied w)
       then (Some (os_PathError "mkdir" name false), w)
       else (None,
             {| files := files w;
                dirs := dirs w ∪ list_to_set (dir_chain (String.length name) name);
                mkdir_denied := mkdir_denied w;
                write_denied := write_denied w;
                helpers := helpers w;
                calls := calls w |}).

(** [ioutils.AtomicWriteFile]: the file has its old contents or the new
    ones, never a part of them. *)
Definition ioutils_AtomicWriteFile (name data : string) : M (option error) :=
  λ w, if bool_decide (name ∈ write_denied w)
       then (Some (os_PathError "open" name false), w)
       else (None,
             {| files := <[name := RegularFile data]> (files w);
                dirs := dirs w;
                mkdir_denied := mkdir_denied w;
                write_denied := write_denied w;
                helpers := helpers w;
                calls := calls w |}).

(** A call of a helper program: recorded, then run on the helpers'
    state. *)
Definition call_helper {A} (c : helper_call)
    (run : helper_state → A * helper_state) : M A :=
  λ w, let '(a, h) := run (helpers w) in
       (a, {| files := files w;
              dirs := dirs w;
              mkdir_denied := mkdir_denied w;
              write_denied := write_denied w;
              helpers := h;
              calls := calls w ++ [c] |}).

(** *** Paths *)

Definition defaultPerUIDPathFormat : string :=
  filepath_FromSlash "/run/containers/%d/auth.json".
Definition xdgConfigHomePath : string := filepath_FromSlash "containers/auth.json".
Definition xdgRuntimeDirPath : string := filepath_FromSlash "containers/auth.json".
Definition dockerHomePath : string := filepath_FromSlash ".docker/config.json".
Definition dockerLegacyHomePath : string := ".dockercfg".
Definition nonLinuxAuthFilePath : string :=
  filepath_FromSlash ".config/containers/auth.json".

(** [fmt.Sprintf(defaultPerUIDPathFormat, uid)] *)
Definition perUIDPath (uid : Z) : string :=
  fmt_Sprintf_d defaultPerUIDPathFormat uid.

Definition nonempty (s : string) : bool := negb (bool_decide (s = "")).

(** getPathToAuthWithOS is an internal implementation detail of
    getPathToAuth, it exists only to allow testing it with an artificial
    runtime.GOOS. The triple is the path, whether it is an explicit
    choice of the user, and the error. *)
Definition getPathToAuthWithOS (sys : option types.SystemContext) (goOS : string)
  : M (authPath * bool * option error) :=
  let defaults : M (authPath * bool * option error) :=
    if bool_decide (goOS = "windows") || bool_decide (goOS = "darwin") then
      mret (newAuthPathDefault (filepath_Join [homedir_Get; nonLinuxAuthFilePath]),
            false, None)
    else
      let runtimeDir := os_Getenv "XDG_RUNTIME_DIR" in
      if nonempty runtimeDir then
        err ← os_Stat_IsNotExist runtimeDir;
        match err with
        | Some e =>
            mret ({| path := ""; legacyFormat := false |}, false,
                  Some (fmt_Errorf
                          "%q directory set by $XDG_RUNTIME_DIR does not exist. Either create the directory or unset $XDG_RUNTIME_DIR.: %w"
                          [arg_s runtimeDir; arg_w (Some e)]))
        | None =>
            mret (newAuthPathDefault (filepath_Join [runtimeDir; xdgRuntimeDirPath]),
                  false, None)
        end
      else mret (newAuthPathDefault (perUIDPath os_Getuid), false, None) in
  match sys with
  | Some s =>
      if nonempty (types.AuthFilePath s) then
        mret (newAuthPathDefault (types.AuthFilePath s), true, None)
      else if nonempty (types.LegacyFormatAuthFilePath s) then
        mret ({| path := types.LegacyFormatAuthFilePath s; legacyFormat := true |},
              true, None)
      else if nonempty (types.RootForImplicitAbsolutePaths s) then
        mret (newAuthPathDefault
                (filepath_Join [types.RootForImplicitAbsolutePaths s;
                                perUIDPath os_Getuid]),
              false, None)
      else defaults
  | None => defaults
  end.

(** getPathToAuth gets the path of the auth.json file used for reading
    and writing credentials, and a boolean indicating whether the return
    value came from an explicit user choice (i.e. not defaults) *)
Definition getPathToAuth (sys : option types.SystemContext)
  : M (authPath * bool * option error) :=
  getPathToAuthWithOS sys GOOS.

(** getAuthFilePaths returns a slice of authPaths based on the system
    context in the order they should be searched. Note that some paths
    may not exist. *)
Definition getAuthFilePaths (sys : option types.SystemContext) (homeDir : string)
  : M (list authPath) :=
  let paths := [] in
  '(pathToAuth, userSpecifiedPath, err) ← getPathToAuth sys;
  let paths := match err with
               | None => paths ++ [pathToAuth]
               | Some _ => paths
               end in
  if negb userSpecifiedPath then
    let xdgCfgHome := os_Getenv "XDG_CONFIG_HOME" in
    let xdgCfgHome := if bool_decide (xdgCfgHome = "")
                      then filepath_Join [homeDir; ".config"]
                      else xdgCfgHome in
    let paths := paths ++ [newAuthPathDefault (filepath_Join [xdgCfgHome; xdgConfigHomePath])] in
    let dockerConfig := os_Getenv "DOCKER_CONFIG" in
    let paths :=
      if nonempty dockerConfig then
        paths ++ [newAuthPathDefault (filepath_Join [dockerConfig; "config.json"])]
      else
        paths ++ [newAuthPathDefault (filepath_Join [homeDir; dockerHomePath])] in
    let paths :=
      paths ++ [{| path := filepath_Join [homeDir; dockerLegacyHomePath];
                   legacyFormat := true |}] in
    mret paths
  else mret paths.

(** *** The file store *)

(** parse unmarshals the authentications stored in the auth.json file and
    returns it or returns an empty dockerConfigFile data structure if
    auth.json does not exist if the file exists and is empty, this
    function returns an error. *)
Definition parse (p : authPath) : M (result dockerConfigFile) :=
  raw ← os_ReadFile (path p);
  match raw with
  | Err err =>
      if os_IsNotExist err then
        mret (Ok {| AuthConfigs := Some ∅; CredHelpers := None |})
      else mret (Err err)
  | Ok raw =>
      if legacyFormat p then
        match json_Unmarshal_auths raw with
        | Err err =>
            mret (Err (fmt_Errorf "unmarshaling JSON at %q: %w"
                         [arg_s (path p); arg_w (Some err)]))
        | Ok authConfigs =>
            mret (Ok {| AuthConfigs := authConfigs; CredHelpers := None |})
        end
      else
        match json_Unmarshal_config raw with
        | Err err =>
            mret (Err (fmt_Errorf "unmarshaling JSON at %q: %w"
                         [arg_s (path p); arg_w (Some err)]))
        | Ok auths =>
            let authConfigs := match AuthConfigs auths with
                               | None => Some ∅
                               | Some m => Some m
                               end in
            let credHelpers := match CredHelpers auths with
                               | None => Some ∅
                               | Some m => Some m
                               end in
            mret (Ok {| AuthConfigs := authConfigs; CredHelpers := credHelpers |})
        end
  end.

(** modifyJSON finds an auth.json file, calls editor on the contents, and
    writes it back if editor returns true. Returns a human-readable
    description of the file, to be returned by SetCredentials.

    The editor works on the document in place and may assign to
    variables of the function that encloses it: it takes the document
    and those variables ([L]) and returns them next to its three
    results. *)
Definition modifyJSON {L : Type} (sys : option types.SystemContext)
    (editor : dockerConfigFile → L →
              M (dockerConfigFile * (bool * string * option error) * L))
    (l : L) : M (result string * L) :=
  '(p, _, err) ← getPathToAuth sys;
  match err with
  | Some err => mret (Err err, l)
  | None =>
      if legacyFormat p then
        mret (Err (fmt_Errorf "writes to %s using legacy format are not supported"
                     [arg_s (path p)]), l)
      else
        let dir := filepath_Dir (path p) in
        err ← os_MkdirAll dir;
        match err with
        | Some err => mret (Err err, l)
        | None =>
            auths ← parse p;
            match auths with
            | Err err =>
                mret (Err (fmt_Errorf "reading JSON file %q: %w"
                             [arg_s (path p); arg_w (Some err)]), l)
            | Ok auths =>
                '(auths, edited, l) ← editor auths l;
                let '(updated, description, err) :=
                  (edited : bool * string * option error) in
                match err with
                | Some err =>
                    mret (Err (fmt_Errorf "updating %q: %w"
                                 [arg_s (path p); arg_w (Some err)]), l)
                | None =>
                    err ← (if updated then
                             match json_MarshalIndent auths with
                             | Err err =>
                                 mret (Some (fmt_Errorf "marshaling JSON %q: %w"
                                               [arg_s (path p); arg_w (Some err)]))
                             | Ok newData =>
                                 err ← ioutils_AtomicWriteFile (path p) newData;
                                 match err with
                                 | Some err =>
                                     mret (Some (fmt_Errorf "writing to file %q: %w"
                                                   [arg_s (path p); arg_w (Some err)]))
                                 | None => mret None
                                 end
                             end
                           else mret None);
                    match err with
                    | Some err => mret (Err err, l)
                    | None =>
                        let description :=
                          if bool_decide (description = "") then path p
                          else description in
                        mret (Ok description, l)
                    end
                end
            end
        end
  end.

(** *** The helper adapter *)

(** [fmt.Sprintf("docker-credential-%s", credHelper)] *)
Definition helperName (credHelper : string) : string :=
  "docker-credential-" +:+ credHelper.

Definition getAuthFromCredHelper (credHelper registry : string)
  : M (result types.DockerAuthConfig) :=
  creds ← call_helper (call_Get (helperName credHelper) registry)
                      (helperclient_Get (helperName credHelper) registry);
  match creds with
  | Err err =>
      if IsErrCredentialsNotFound err then mret (Ok types.empty)
      else mret (Err err)
  | Ok creds =>
      if bool_decide (credentials.Username creds = "<token>") then
        mret (Ok {| types.Username := ""; types.Password := "";
                    types.IdentityToken := credentials.Secret creds |})
      else
        mret (Ok {| types.Username := credentials.Username creds;
                    types.Password := credentials.Secret creds;
                    types.IdentityToken := "" |})
  end.

(** setAuthToCredHelper stores (username, password) for registry in
    credHelper. Returns a human-readable description of the destination,
    to be returned by SetCredentials. *)
Definition setAuthToCredHelper (credHelper registry username password : string)
  : M (result string) :=
  let creds := {| credentials.ServerURL := registry;
                  credentials.Username := username;
                  credentials.Secret := password |} in
  err ← call_helper (call_Store (helperName credHelper) creds)
                    (helperclient_Store (helperName credHelper) creds);
  match err with
  | Some err => mret (Err err)
  | None => mret (Ok ("credential helper: " +:+ credHelper))
  end.

Definition deleteAuthFromCredHelper (credHelper registry : string)
  : M (option error) :=
  call_helper (call_Erase (helperName credHelper) registry)
              (helperclient_Erase (helperName credHelper) registry).

Definition unsupportedNamespaceErr (helper : string) : error :=
  fmt_Errorf "namespaced key is not supported for credential helper %s"
             [arg_s helper].

(** *** The entry matcher *)

(** The first loop of findCredentialsInFile: the first candidate that is
    a key of [auths]. *)
Fixpoint first_existing (auths : gomap dockerAuthConfig) (keys : list string)
  : option (string * dockerAuthConfig) :=
  match keys with
  | [] => None
  | key :: keys' =>
      match gomap_lookup auths key with
      | Some val => Some (key, val)
      | None => first_existing auths keys'
      end
  end.

(** The second loop: the first entry, in the order of the range, whose
    normalised key is [registry]. *)
Fixpoint first_normalized (entries : list (string * dockerAuthConfig))
    (legacy : bool) (registry : string) : option (string * dockerAuthConfig) :=
  match entries with
  | [] => None
  | (k, v) :: entries' =>
      if bool_decide (normalizeAuthFileKey k legacy = registry) then Some (k, v)
      else first_normalized entries' legacy registry
  end.

(** findCredentialsInFile looks for credentials matching "key" (which is
    "registry" or a namespace in "registry") in "path". *)
Definition findCredentialsInFile (key registry : string) (p : authPath)
  : M (result types.DockerAuthConfig) :=
  auths ← parse p;
  match auths with
  | Err err =>
      mret (Err (fmt_Errorf "reading JSON file %q: %w"
                   [arg_s (path p); arg_w (Some err)]))
  | Ok auths =>
      match gomap_lookup (CredHelpers auths) registry with
      | Some ch => getAuthFromCredHelper ch registry
      | None =>
          let keys := if negb (legacyFormat p) then authKeysForKey key
                      else [registry] in
          match first_existing (AuthConfigs auths) keys with
          | Some (key, val) => mret (decodeDockerAuth (path p) key val)
          | None =>
              let registry := normalizeRegistry registry in
              match first_normalized (go_range (default ∅ (AuthConfigs auths)))
                      (legacyFormat p) registry with
              | Some (k, v) => mret (decodeDockerAuth (path p) k v)
              | None => mret (Ok types.empty)
              end
          end
      end
  end.

(** *** Reading credentials *)

(** The anonymous function of getCredentialsWithHomeDir that queries the
    auth files, as a loop over the paths. *)
Fixpoint getCredentialsFromAuthFiles_loop (key registry : string)
    (paths : list authPath) : M (result (types.DockerAuthConfig * string)) :=
  match paths with
  | [] => mret (Ok (types.empty, ""))
  | p :: paths' =>
      authConfig ← findCredentialsInFile key registry p;
      match authConfig with
      | Err err => mret (Err err)
      | Ok authConfig =>
          if negb (bool_decide (authConfig = types.empty)) then
            mret (Ok (authConfig, path p))
          else getCredentialsFromAuthFiles_loop key registry paths'
      end
  end.

Definition getCredentialsFromAuthFiles (sys : option types.SystemContext)
    (key registry homeDir : string)
  : M (result (types.DockerAuthConfig * string)) :=
  paths ← getAuthFilePaths sys homeDir;
  getCredentialsFromAuthFiles_loop key registry paths.

(** The loop of getCredentialsWithHomeDir over the helpers, and what
    follows it. *)
Fixpoint getCredentials_loop (sys : option types.SystemContext)
    (key registry homeDir : string) (helpers : list string)
    (multiErr : option error) : M (result types.DockerAuthConfig) :=
  match helpers with
  | [] =>
      match multiErr with
      | Some e => mret (Err e)
      | None => mret (Ok types.empty)
      end
  | helper :: helpers' =>
      creds ← (if decide (helper = AuthenticationFileHelper) then
                 r ← getCredentialsFromAuthFiles sys key registry homeDir;
                 mret (match r with
                       | Ok (creds, _) => Ok creds
                       | Err err => Err err
                       end)
               else getAuthFromCredHelper helper registry);
      match creds with
      | Err err =>
          getCredentials_loop sys key registry homeDir helpers'
            (multierror_Append multiErr err)
      | Ok creds =>
          if negb (bool_decide (creds = types.empty)) then mret (Ok creds)
          else getCredentials_loop sys key registry homeDir helpers' multiErr
      end
  end.

(** getCredentialsWithHomeDir is an internal implementation detail of
    GetCredentialsForRef and GetCredentials. It exists only to allow
    testing it with an artificial home directory. *)
Definition getCredentialsWithHomeDir (sys : option types.SystemContext)
    (key homeDir : string) : M (result types.DockerAuthConfig) :=
  match validateKey key with
  | Err err => mret (Err err)
  | Ok _ =>
      match sys ≫= types.DockerAuthConfig_ with
      | Some inline => mret (Ok inline)
      | None =>
          let registry := registryOfKey key in
          match CredentialHelpers sys with
          | Err err => mret (Err err)
          | Ok helpers =>
              getCredentials_loop sys key registry homeDir helpers None
          end
      end
  end.

(** GetCredentials returns the registry credentials matching key,
    appropriate for sys and the users' configuration. If an entry is not
    found, an empty struct is returned. *)
Definition GetCredentials (sys : option types.SystemContext) (key : string)
  : M (result types.DockerAuthConfig) :=
  getCredentialsWithHomeDir sys key homedir_Get.

(** *** Storing credentials *)

(** The editor that SetCredentials passes to modifyJSON. *)
Definition SetCredentials_editor (key username password : string)
    (isNamespaced : bool) (auths : dockerConfigFile) (l : unit)
  : M (dockerConfigFile * (bool * string * option error) * unit) :=
  match gomap_lookup (CredHelpers auths) key with
  | Some ch =>
      if isNamespaced then
        mret (auths, (false, "", Some (unsupportedNamespaceErr ch)), l)
      else
        r ← setAuthToCredHelper ch key username password;
        match r with
        | Err err => mret (auths, (false, "", Some err), l)
        | Ok desc => mret (auths, (false, desc, None), l)
        end
  | None =>
      let creds := Base64.EncodeToString (username +:+ ":" +:+ password) in
      let newCreds := {| Auth := creds; IdentityToken := "" |} in
      mret ({| AuthConfigs := gomap_set (AuthConfigs auths) key newCreds;
               CredHelpers := CredHelpers auths |},
            (true, "", None), l)
  end.

(** The loop of SetCredentials over the helpers, and the return after
    it. *)
Fixpoint SetCredentials_loop (sys : option types.SystemContext)
    (key username password : string) (isNamespaced : bool)
    (helpers : list string) (multiErr : option error) : M (result string) :=
  match helpers with
  | [] =>
      match multiErr with
      | Some e => mret (Err e)
      | None => mret (Ok "")
      end
  | helper :: helpers' =>
      r ← (if decide (helper = AuthenticationFileHelper) then
             '(r, _) ← modifyJSON sys
                         (SetCredentials_editor key username password isNamespaced) ();
             mret r
           else if isNamespaced then mret (Err (unsupportedNamespaceErr helper))
           else setAuthToCredHelper helper key username password);
      match r with
      | Err err =>
          SetCredentials_loop sys key username password isNamespaced helpers'
            (multierror_Append multiErr err)
      | Ok desc => mret (Ok desc)
      end
  end.

(** SetCredentials stores the username and password in a location
    appropriate for sys and the users' configuration. Returns a
    human-readable description of the location that was updated. *)
Definition SetCredentials (sys : option types.SystemContext)
    (key username password : string) : M (result string) :=
  match validateKey key with
  | Err err => mret (Err err)
  | Ok isNamespaced =>
      match CredentialHelpers sys with
      | Err err => mret (Err err)
      | Ok helpers =>
          SetCredentials_loop sys key username password isNamespaced helpers None
      end
  end.

(** *** Removing credentials *)

(** The variables of RemoveAuthentication that its closures assign to:
    [multiErr] and [isLoggedIn]. *)
Definition removal : Type := option error * bool.

(** The closure removeFromCredHelper. The error it reports wraps the
    variable [err] of the enclosing function, which is nil by then; the
    one returned by the helper is out of scope at that point. *)
Definition removeFromCredHelper (key : string) (isNamespaced : bool)
    (helper : string) (l : removal) : M removal :=
  let '(multiErr, isLoggedIn) := l in
  if isNamespaced then mret (multiErr, isLoggedIn)
  else
    err ← deleteAuthFromCredHelper helper key;
    match err with
    | None => mret (multiErr, true)
    | Some err =>
        if IsErrCredentialsNotFound err then mret (multiErr, isLoggedIn)
        else
          mret (multierror_Append multiErr
                  (fmt_Errorf
                     "removing credentials for %s from credential helper %s: %w"
                     [arg_s key; arg_s helper; arg_w None]),
                isLoggedIn)
    end.

(** The editor that RemoveAuthentication passes to modifyJSON. *)
Definition RemoveAuthentication_editor (key : string) (isNamespaced : bool)
    (auths : dockerConfigFile) (l : removal)
  : M (dockerConfigFile * (bool * string * option error) * removal) :=
  l ← match gomap_lookup (CredHelpers auths) key with
      | Some innerHelper => removeFromCredHelper key isNamespaced innerHelper l
      | None => mret l
      end;
  let '(multiErr, isLoggedIn) := (l : removal) in
  match gomap_lookup (AuthConfigs auths) key with
  | Some _ =>
      mret ({| AuthConfigs := gomap_delete (AuthConfigs auths) key;
               CredHelpers := CredHelpers auths |},
            (true, "", multiErr), (multiErr, true))
  | None => mret (auths, (true, "", multiErr), (multiErr, isLoggedIn))
  end.

(** One iteration of the loop of RemoveAuthentication. *)
Definition RemoveAuthentication_step (sys : option types.SystemContext)
    (key : string) (isNamespaced : bool) (helper : string) (l : removal)
  : M removal :=
  if decide (helper = AuthenticationFileHelper) then
    '(r, l) ← modifyJSON sys (RemoveAuthentication_editor key isNamespaced) l;
    let '(multiErr, isLoggedIn) := (l : removal) in
    match r with
    | Err err => mret (multierror_Append multiErr err, isLoggedIn)
    | Ok _ => mret (multiErr, isLoggedIn)
    end
  else removeFromCredHelper key isNamespaced helper l.

Fixpoint RemoveAuthentication_loop (sys : option types.SystemContext)
    (key : string) (isNamespaced : bool) (helpers : list string) (l : removal)
  : M removal :=
  match helpers with
  | [] => mret l
  | helper :: helpers' =>
      l ← RemoveAuthentication_step sys key isNamespaced helper l;
      RemoveAuthentication_loop sys key isNamespaced helpers' l
  end.

(** RemoveAuthentication removes credentials for `key` from all possible
    sources such as credential helpers and auth files. The result is the
    error, [None] for nil. *)
Definition RemoveAuthentication (sys : option types.SystemContext) (key : string)
  : M (option error) :=
  match validateKey key with
  | Err err => mret (Some err)
  | Ok isNamespaced =>
      match CredentialHelpers sys with
      | Err err => mret (Some err)
      | Ok helpers =>
          '(multiErr, isLoggedIn) ←
            RemoveAuthentication_loop sys key isNamespaced helpers (None, false);
          match multiErr with
          | Some e => mret (Some e)
          | None =>
              if negb isLoggedIn then mret (Some ErrNotLoggedIn)
              else mret None
          end
      end
  end.

End Engine.

(** ** The rest of the package

    The functions of [config.go] that list and remove all credentials,
    and the deprecated reading function. They need two more things from
    outside: the [list] command of the helper programs, and the order of
    a range over the other two kinds of map in the code. *)

(** [helperclient.List] and [errors.Is(err, exec.ErrNotFound)]. *)
Class HelperLister {helper_client : HelperClient} : Type := {
  helperclient_List :
    string → helper_state → result (gmap string string) * helper_state;
  is_exec_ErrNotFound : error → bool;
}.

(** The order of a range over a [map[string]string] and over the keys of
    a [map[string]bool] whose values are all [true]. *)
Class RangeOrder : Type := {
  range_strings : gmap string string → list (string * string);
  range_strings_perm : ∀ m, range_strings m ≡ₚ map_to_list m;
  range_keys : gset string → list string;
  range_keys_perm : ∀ s, range_keys s ≡ₚ elements s;
}.

Section EngineRest.

Context {platform : Platform} {json : Json} {helper_client : HelperClient}
        {map_range : MapRange} {helper_lister : HelperLister}
        {range_order : RangeOrder}.

#[local] Existing Instance M_ret.
#[local] Existing Instance M_bind.

(** SetAuthentication stores the username and password in the credential
    helper or file. *)
Definition SetAuthentication (sys : option types.SystemContext)
    (key username password : string) : M (option error) :=
  r ← SetCredentials sys key username password;
  mret (match r with
        | Ok _ => None
        | Err err => Some err
        end).

(** getAuthenticationWithHomeDir is an internal implementation detail of
    GetAuthentication, it exists only to allow testing it with an
    artificial home directory. *)
Definition getAuthenticationWithHomeDir (sys : option types.SystemContext)
    (key homeDir : string) : M (result (string * string)) :=
  auth ← getCredentialsWithHomeDir sys key homeDir;
  match auth with
  | Err err => mret (Err err)
  | Ok auth =>
      if nonempty (types.IdentityToken auth) then
        mret (Err (fmt_Errorf
                     "non-empty identity token found and this API doesn't support it: %w"
                     [arg_w (Some ErrNotSupported)]))
      else mret (Ok (types.Username auth, types.Password auth))
  end.

(** GetAuthentication returns the registry credentials matching key, as a
    user name and a password. Deprecated in the source. *)
Definition GetAuthentication (sys : option types.SystemContext) (key : string)
  : M (result (string * string)) :=
  getAuthenticationWithHomeDir sys key homedir_Get.

(** A [list] command of a helper program. It stores and erases nothing;
    the record of calls, which holds the get, store and erase commands,
    is left as it is. *)
Definition listAuthsFromCredHelper (credHelper : string)
  : M (result (gmap string string)) :=
  λ w, let '(r, h) := helperclient_List (helperName credHelper) (helpers w) in
       (r, {| files := files w;
              dirs := dirs w;
              mkdir_denied := mkdir_denied w;
              write_denied := write_denied w;
              helpers := h;
              calls := calls w |}).

(** The loop of the editor of RemoveAllAuthentication over [credHelpers]:
    it returns at the first erase that fails. *)
Fixpoint erase_credHelpers (entries : list (string * string)) : M (option error) :=
  match entries with
  | [] => mret None
  | (registry, helper) :: entries' =>
      err ← deleteAuthFromCredHelper helper registry;
      match err with
      | Some err => mret (Some err)
      | None => erase_credHelpers entries'
      end
  end.

(** The editor that RemoveAllAuthentication passes to modifyJSON. *)
Definition RemoveAllAuthentication_editor (auths : dockerConfigFile) (l : unit)
  : M (dockerConfigFile * (bool * string * option error) * unit) :=
  err ← erase_credHelpers (range_strings (default ∅ (CredHelpers auths)));
  match err with
  | Some err => mret (auths, (false, "", Some err), l)
  | None =>
      mret ({| AuthConfigs := Some ∅; CredHelpers := Some ∅ |},
            (true, "", None), l)
  end.

(** The loop of RemoveAllAuthentication over the registries that an
    external helper lists: it stops at the first erase that fails, with
    that error. *)
Fixpoint erase_listed (helper : string) (registries : list string)
  : M (option error) :=
  match registries with
  | [] => mret None
  | registry :: registries' =>
      err ← deleteAuthFromCredHelper helper registry;
      match err with
      | Some err => mret (Some err)
      | None => erase_listed helper registries'
      end
  end.

(** One iteration of the loop of RemoveAllAuthentication. *)
Definition RemoveAllAuthentication_step (sys : option types.SystemContext)
    (helper : string) (multiErr : option error) : M (option error) :=
  if decide (helper = AuthenticationFileHelper) then
    '(r, _) ← modifyJSON sys RemoveAllAuthentication_editor ();
    match r with
    | Err err => mret (multierror_Append multiErr err)
    | Ok _ => mret multiErr
    end
  else
    creds ← listAuthsFromCredHelper helper;
    match creds with
    | Err err =>
        if is_exec_ErrNotFound err then mret multiErr
        else mret (multierror_Append multiErr err)
    | Ok creds =>
        err ← erase_listed helper (range_strings creds).*1;
        match err with
        | Some err => mret (multierror_Append multiErr err)
        | None => mret multiErr
        end
    end.

Fixpoint RemoveAllAuthentication_loop (sys : option types.SystemContext)
    (helpers : list string) (multiErr : option error) : M (option error) :=
  match helpers with
  | [] => mret multiErr
  | helper :: helpers' =>
      multiErr ← RemoveAllAuthentication_step sys helper multiErr;
      RemoveAllAuthentication_loop sys helpers' multiErr
  end.

(** RemoveAllAuthentication deletes all the credentials stored in
    credential helpers and auth files. *)
Definition RemoveAllAuthentication (sys : option types.SystemContext)
  : M (option error) :=
  match CredentialHelpers sys with
  | Err err => mret (Some err)
  | Ok helpers => RemoveAllAuthentication_loop sys helpers None
  end.

(** *** Listing all credentials *)

(** The key under which GetAllCredentials lists an entry of [auths]. *)
Definition listed_key (key : string) (legacy : bool) : string :=
  let key := normalizeAuthFileKey key legacy in
  if bool_decide (key = normalizeRegistry "docker.io") then "docker.io" else key.

(** The two loops of GetAllCredentials over one parsed file. *)
Definition add_file_keys (auths : dockerConfigFile) (legacy : bool)
    (allKeys : gset string) : gset string :=
  let allKeys :=
    foldl (λ keys entry, {[ entry.1 ]} ∪ keys) allKeys
          (range_strings (default ∅ (CredHelpers auths))) in
  foldl (λ keys entry, {[ listed_key entry.1 legacy ]} ∪ keys) allKeys
        (go_range (default ∅ (AuthConfigs auths))).

(** The loop of GetAllCredentials over the auth files. *)
Fixpoint collect_file_keys (paths : list authPath) (allKeys : gset string)
  : M (result (gset string)) :=
  match paths with
  | [] => mret (Ok allKeys)
  | p :: paths' =>
      auths ← parse p;
      match auths with
      | Err err =>
          mret (Err (fmt_Errorf "reading JSON file %q: %w"
                       [arg_s (path p); arg_w (Some err)]))
      | Ok auths =>
          collect_file_keys paths' (add_file_keys auths (legacyFormat p) allKeys)
      end
  end.

(** The first loop of GetAllCredentials, over the helpers. *)
Fixpoint collect_keys (sys : option types.SystemContext) (helpers : list string)
    (allKeys : gset string) : M (result (gset string)) :=
  match helpers with
  | [] => mret (Ok allKeys)
  | helper :: helpers' =>
      if decide (helper = AuthenticationFileHelper) then
        paths ← getAuthFilePaths sys homedir_Get;
        r ← collect_file_keys paths allKeys;
        match r with
        | Err err => mret (Err err)
        | Ok allKeys => collect_keys sys helpers' allKeys
        end
      else
        creds ← listAuthsFromCredHelper helper;
        match creds with
        | Err err =>
            if is_exec_ErrNotFound err then collect_keys sys helpers' allKeys
            else mret (Err err)
        | Ok creds =>
            collect_keys sys helpers'
              (foldl (λ keys entry, {[ entry.1 ]} ∪ keys) allKeys
                     (range_strings creds))
        end
  end.

(** The second loop of GetAllCredentials, over the keys it collected. *)
Fixpoint get_each (sys : option types.SystemContext) (keys : list string)
    (authConfigs : gmap string types.DockerAuthConfig)
  : M (result (gmap string types.DockerAuthConfig)) :=
  match keys with
  | [] => mret (Ok authConfigs)
  | key :: keys' =>
      authConf ← GetCredentials sys key;
      match authConf with
      | Err err => mret (Err err)
      | Ok authConf =>
          if negb (bool_decide (authConf = types.empty)) then
            get_each sys keys' (<[key := authConf]> authConfigs)
          else get_each sys keys' authConfigs
      end
  end.

(** GetAllCredentials returns the registry credentials for all registries
    stored in any of the configured credential helpers. *)
Definition GetAllCredentials (sys : option types.SystemContext)
  : M (result (gmap string types.DockerAuthConfig)) :=
  match CredentialHelpers sys with
  | Err err => mret (Err err)
  | Ok helpers =>
      allKeys ← collect_keys sys helpers ∅;
      match allKeys with
      | Err err => mret (Err err)
      | Ok allKeys => get_each sys (range_keys allKeys) ∅
      end
  end.

End EngineRest.

(** * Properties *)

(** ** Words of the specification about strings *)

(** [s] begins with [pre]. *)
Definition begins_with (pre s : string) : Prop := ∃ rest, s = pre +:+ rest.

(** [s] contains the byte [c]. *)
Definition contains_byte (c : ascii) (s : string) : Prop :=
  ∃ l r, s = l +:+ String c r.

(** [s] contains '/' and there is a ':' somewhere after the first '/'. *)
Definition colon_after_first_slash (s : string) : Prop :=
  ∃ host rest, s = host +:+ String "/" rest
               ∧ ¬ contains_byte "/" host ∧ contains_byte ":" rest.

(** ** Facts about the [strings] functions *)

Section StringFacts.

Lemma prefix_begins_with (pre s : string) :
  String.prefix pre s = true ↔ begins_with pre s.
Proof.
  revert s; induction pre as [|a pre IH]; intros s.
  - split; [intros _; exists s; reflexivity | intros _; destruct s; reflexivity].
  - destruct s as [|b s]; simpl.
    + split; [discriminate | intros [r Hr]; discriminate].
    + destruct (ascii_dec a b) as [->|Hne].
      * rewrite IH. split; intros [r Hr]; exists r; simpl in *; congruence.
      * split; [discriminate | intros [r Hr]; simpl in Hr; congruence].
Qed.

Lemma contains_byte_nil (c : ascii) : ¬ contains_byte c "".
Proof. intros [[|a l] [r H]]; discriminate. Qed.

Lemma contains_byte_cons (c a : ascii) (s : string) :
  contains_byte c (String a s) ↔ a = c ∨ contains_byte c s.
Proof.
  split.
  - intros [[|b l] [r H]]; simpl in H; injection H as -> ->.
    + left; reflexivity.
    + right; exists l, r; reflexivity.
  - intros [->|[l [r ->]]].
    + exists "", s; reflexivity.
    + exists (String a l), r; reflexivity.
Qed.

Lemma contains_byte_app (c : ascii) (s t : string) :
  contains_byte c (s +:+ t) ↔ contains_byte c s ∨ contains_byte c t.
Proof.
  induction s as [|a s IH]; simpl.
  - split; [auto | intros [H|H]; [destruct (contains_byte_nil _ H) | exact H]].
  - rewrite !contains_byte_cons, IH. tauto.
Qed.

Lemma IndexByte_range (s : string) (c : ascii) :
  Strings.IndexByte s c = -1 ∨ 0 ≤ Strings.IndexByte s c < Strings.len s.
Proof.
  unfold Strings.len; induction s as [|a s IH]; simpl; [left; reflexivity|].
  destruct (Ascii.eqb a c); [right; lia|].
  destruct (Z.ltb_spec (Strings.IndexByte s c) 0); [left; reflexivity | right; lia].
Qed.

Lemma IndexByte_absent (s : string) (c : ascii) :
  Strings.IndexByte s c = -1 ↔ ¬ contains_byte c s.
Proof.
  induction s as [|a s IH]; simpl.
  - split; [intros _; apply contains_byte_nil | reflexivity].
  - rewrite contains_byte_cons. destruct (Ascii.eqb_spec a c) as [->|Hne].
    + split; [discriminate | intros H; destruct H; left; reflexivity].
    + destruct (IndexByte_range s c) as [Hi|Hi].
      * rewrite Hi. change (-1 <? 0) with true. cbv iota.
        split; [intros _ [?|?]; [congruence | tauto] | reflexivity].
      * destruct (Z.ltb_spec (Strings.IndexByte s c) 0); [lia|].
        split; [lia|]. intros Hn. exfalso.
        assert (Strings.IndexByte s c ≠ -1) as Hx by lia.
        rewrite IH in Hx. tauto.
Qed.

Lemma IndexByte_present (s : string) (c : ascii) :
  0 ≤ Strings.IndexByte s c → contains_byte c s.
Proof.
  induction s as [|a s IH]; simpl; [lia|].
  rewrite contains_byte_cons. destruct (Ascii.eqb_spec a c) as [->|Hne]; [auto|].
  destruct (Z.ltb_spec (Strings.IndexByte s c) 0); [lia | auto].
Qed.

Lemma ContainsRune_contains (s : string) (c : ascii) :
  Strings.ContainsRune s c = true ↔ contains_byte c s.
Proof.
  unfold Strings.ContainsRune, Strings.IndexRune.
  destruct (Z.leb_spec 0 (Strings.IndexByte s c)) as [Hi|Hi].
  - split; [intros _; apply IndexByte_present, Hi | reflexivity].
  - split; [discriminate|]. intros Hc.
    destruct (IndexByte_range s c) as [Hn|?]; [|lia].
    apply IndexByte_absent in Hn. tauto.
Qed.

(** The first occurrence splits the string. *)
Lemma IndexByte_split (s : string) (c : ascii) :
  0 ≤ Strings.IndexByte s c →
  s = Strings.slice_to s (Strings.IndexByte s c)
      +:+ String c (Strings.slice_from s (Strings.IndexByte s c + 1))
  ∧ ¬ contains_byte c (Strings.slice_to s (Strings.IndexByte s c)).
Proof.
  unfold Strings.slice_to, Strings.slice_from.
  induction s as [|a s IH]; simpl; [lia|].
  destruct (Ascii.eqb_spec a c) as [->|Hne].
  - intros _. simpl. split; [reflexivity | apply contains_byte_nil].
  - destruct (Z.ltb_spec (Strings.IndexByte s c) 0) as [|Hi]; [lia|].
    intros _. destruct (IH Hi) as [Heq Hno].
    replace (Z.to_nat (Strings.IndexByte s c + 1))
      with (S (Z.to_nat (Strings.IndexByte s c))) by lia.
    replace (Z.to_nat (Strings.IndexByte s c + 1 + 1))
      with (S (Z.to_nat (Strings.IndexByte s c + 1))) by lia.
    simpl. split; [f_equal; exact Heq|].
    rewrite contains_byte_cons. tauto.
Qed.

(** A byte that is not in [l] is first found right after [l]. *)
Lemma IndexByte_app (l r : string) (c : ascii) :
  ¬ contains_byte c l →
  Strings.IndexByte (l +:+ String c r) c = Strings.len l.
Proof.
  unfold Strings.len. induction l as [|a l IH]; simpl; intros Hno.
  - rewrite Ascii.eqb_refl. reflexivity.
  - rewrite contains_byte_cons in Hno.
    destruct (Ascii.eqb_spec a c) as [->|Hne]; [tauto|].
    rewrite IH by tauto.
    destruct (Z.ltb_spec (Z.of_nat (String.length l)) 0); lia.
Qed.

Lemma append_assoc (s t u : string) : (s +:+ t) +:+ u = s +:+ (t +:+ u).
Proof. induction s; simpl; [reflexivity | f_equal; assumption]. Qed.

Lemma length_append (s t : string) :
  String.length (s +:+ t) = (String.length s + String.length t)%nat.
Proof. induction s; simpl; [reflexivity | f_equal; assumption]. Qed.

Lemma append_nil_r (s : string) : s +:+ "" = s.
Proof. induction s; simpl; [reflexivity | f_equal; assumption]. Qed.

Lemma drop_app_length (l r : string) :
  Strings.drop (String.length l) (l +:+ r) = r.
Proof. induction l; simpl; auto. Qed.

Lemma take_app_length (l r : string) :
  Strings.take (String.length l) (l +:+ r) = l.
Proof. induction l; simpl; [destruct r; reflexivity | f_equal; auto]. Qed.

End StringFacts.

(** ** Key validation (C3) *)

(** The errors of [validateKey]: the [InvalidKey] of the specification. *)
Definition InvalidKey (key : string) (e : error) : Prop :=
  e = fmt_Errorf "key %s contains http[s]:// prefix" [arg_s key]
  ∨ e = fmt_Errorf "key %s contains a '@' character" [arg_s key]
  ∨ e = fmt_Errorf "key %s contains a ':' character after host[:port]" [arg_s key].

(** The keys that the specification calls invalid. *)
Definition invalid_key_shape (key : string) : Prop :=
  begins_with "http://" key ∨ begins_with "https://" key
  ∨ contains_byte "@" key ∨ colon_after_first_slash key.

Lemma namespaced_contains_slash (key : string) :
  negb (Strings.IndexRune key "/" =? -1) = true ↔ contains_byte "/" key.
Proof.
  unfold Strings.IndexRune. rewrite negb_true_iff, Z.eqb_neq.
  split.
  - intros Hne. destruct (IndexByte_range key "/") as [?|Hr]; [contradiction|].
    apply IndexByte_present; lia.
  - intros Hc Hi. apply IndexByte_absent in Hi. contradiction.
Qed.

Lemma first_slash_colon (key : string) :
  negb (Strings.IndexRune key "/" =? -1)
  && Strings.ContainsRune
       (Strings.slice_from key (Strings.IndexRune key "/" + 1)) ":" = true
  ↔ colon_after_first_slash key.
Proof.
  rewrite andb_true_iff, namespaced_contains_slash, ContainsRune_contains.
  unfold Strings.IndexRune. split.
  - intros [Hs Hc].
    assert (0 ≤ Strings.IndexByte key "/") as Hi.
    { destruct (IndexByte_range key "/") as [Hn|?]; [|lia].
      apply IndexByte_absent in Hn. contradiction. }
    destruct (IndexByte_split key "/" Hi) as [Heq Hno].
    eexists _, _. split; [exact Heq|]. split; assumption.
  - intros (host & rest & -> & Hno & Hc).
    split; [apply contains_byte_app; right; apply contains_byte_cons; auto|].
    rewrite IndexByte_app by assumption.
    unfold Strings.slice_from, Strings.len.
    replace (Z.to_nat (Z.of_nat (String.length host) + 1))
      with (String.length (host +:+ "/")).
    + change (String "/" rest) with ("/" +:+ rest).
      rewrite <- append_assoc, drop_app_length. exact Hc.
    + rewrite length_append. simpl. lia.
Qed.

(** C3. [validateKey] fails, with an [InvalidKey] error, exactly on the
    keys that begin with http:// or https://, contain '@', or contain '/'
    with a ':' somewhere after the first '/'; so it rejects "https://x",
    "a/b:1" and every "x@sha256:..." and accepts "localhost:5000/foo"; on
    success it reports the key as namespaced iff the key contains '/'. *)
Theorem validateKey_spec :
  (∀ key, (∃ e, validateKey key = Err e) ↔ invalid_key_shape key)
  ∧ (∀ key e, validateKey key = Err e → InvalidKey key e)
  ∧ (∀ key isNamespaced,
       validateKey key = Ok isNamespaced →
       (isNamespaced = true ↔ contains_byte "/" key))
  ∧ (∃ e, validateKey "https://x" = Err e)
  ∧ (∃ e, validateKey "a/b:1" = Err e)
  ∧ (∀ digest, ∃ e, validateKey ("x@sha256:" +:+ digest) = Err e)
  ∧ validateKey "localhost:5000/foo" = Ok true.
Proof.
  assert (∀ key, (∃ e, validateKey key = Err e) ↔ invalid_key_shape key) as Hshape.
  { intros key. unfold validateKey, invalid_key_shape, Strings.HasPrefix.
    rewrite <- !prefix_begins_with, <- ContainsRune_contains, <- first_slash_colon.
    destruct (String.prefix "http://" key); [split; eauto|].
    destruct (String.prefix "https://" key); [split; eauto|].
    destruct (Strings.ContainsRune key "@"); [split; eauto|].
    simpl.
    destruct (negb (Strings.IndexRune key "/" =? -1)
              && Strings.ContainsRune
                   (Strings.slice_from key (Strings.IndexRune key "/" + 1)) ":");
      [split; eauto|].
    split; [intros [e He]; discriminate | intros [?|[?|[?|?]]]; discriminate]. }
  split; [exact Hshape|].
  split.
  { intros key e. unfold validateKey, InvalidKey.
    repeat match goal with
           | |- context [if ?b then _ else _] => destruct b
           end; intros [= <-]; auto. }
  split.
  { intros key isNamespaced. unfold validateKey.
    repeat match goal with
           | |- context [if ?b then _ else _] => destruct b eqn:?
           end; try discriminate.
    intros [= <-]. apply namespaced_contains_slash. }
  split; [eexists; reflexivity|].
  split; [eexists; reflexivity|].
  split; [|reflexivity].
  intros digest. apply Hshape. right; right; left.
  exists "x", ("sha256:" +:+ digest). reflexivity.
Qed.

(** ** Candidate keys (C2) *)

Lemma authKeysForKey_loop_eq (res : list string) (key : string) :
  authKeysForKey_loop res key
  = if Strings.LastIndex key "/" =? -1 then res ++ [key]
    else authKeysForKey_loop (res ++ [key])
           (Strings.slice_to key (Strings.LastIndex key "/")).
Proof.
  funelim (authKeysForKey_loop res key);
    match goal with H : (_ =? _) = _ |- _ => rewrite H end; reflexivity.
Qed.

Lemma slice_to_last_slash_shorter (key : string) :
  Strings.LastIndex key "/" ≠ -1 →
  (String.length (Strings.slice_to key (Strings.LastIndex key "/"))
   < String.length key)%nat.
Proof.
  intros Hne. unfold Strings.slice_to. rewrite length_take.
  destruct (LastIndex_slash_bound key) as [?|Hb]; [contradiction|].
  unfold Strings.len in Hb. lia.
Qed.

Lemma authKeysForKey_loop_acc (n : nat) :
  ∀ key res, (String.length key < n)%nat →
             authKeysForKey_loop res key = res ++ authKeysForKey key.
Proof.
  induction n as [|n IH]; intros key res Hlt; [lia|].
  unfold authKeysForKey.
  rewrite (authKeysForKey_loop_eq res), (authKeysForKey_loop_eq []).
  destruct (Z.eqb_spec (Strings.LastIndex key "/") (-1)) as [|Hne]; [reflexivity|].
  pose proof (slice_to_last_slash_shorter key Hne).
  rewrite (IH _ (res ++ [key])), (IH _ ([] ++ [key])) by lia.
  rewrite <- app_assoc. reflexivity.
Qed.

(** The recursion behind the loop. *)
Lemma authKeysForKey_unfold (key : string) :
  authKeysForKey key
  = key :: (if Strings.LastIndex key "/" =? -1 then []
            else authKeysForKey (Strings.slice_to key (Strings.LastIndex key "/"))).
Proof.
  unfold authKeysForKey at 1. rewrite authKeysForKey_loop_eq.
  destruct (Strings.LastIndex key "/" =? -1); [reflexivity|].
  apply (authKeysForKey_loop_acc (S (String.length
    (Strings.slice_to key (Strings.LastIndex key "/"))))). lia.
Qed.

Lemma prefix_slash (a : ascii) (s : string) :
  String.prefix "/" (String a s) = bool_decide (a = "/"%char).
Proof.
  cbn [String.prefix]. destruct (ascii_dec "/" a) as [<-|Hne].
  - destruct s; reflexivity.
  - rewrite bool_decide_eq_false_2; [reflexivity | intros ->; apply Hne; reflexivity].
Qed.

Lemma LastIndex_absent (s : string) :
  Strings.LastIndex s "/" = -1 ↔ ¬ contains_byte "/" s.
Proof.
  induction s as [|a s IH].
  - split; [intros _; apply contains_byte_nil | reflexivity].
  - cbn [Strings.LastIndex]. rewrite contains_byte_cons, prefix_slash.
    destruct (LastIndex_slash_bound s) as [Hi|Hi].
    + rewrite Hi. change (0 <=? -1) with false. cbv iota.
      apply IH in Hi. case_bool_decide; split; try tauto; try discriminate.
    + destruct (Z.leb_spec 0 (Strings.LastIndex s "/")); [|lia].
      split; [lia|]. intros Hn. exfalso.
      assert (Strings.LastIndex s "/" ≠ -1) as Hx by lia.
      rewrite IH in Hx. tauto.
Qed.

Lemma LastIndex_app (parent seg : string) :
  ¬ contains_byte "/" seg →
  Strings.LastIndex (parent +:+ "/" +:+ seg) "/" = Strings.len parent.
Proof.
  intros Hno. unfold Strings.len.
  induction parent as [|a parent IH].
  - change ("" +:+ "/" +:+ seg) with (String "/" seg).
    cbn [Strings.LastIndex]. apply LastIndex_absent in Hno. rewrite Hno.
    change (0 <=? -1) with false. cbv iota. rewrite prefix_slash.
    reflexivity.
  - change (String a parent +:+ "/" +:+ seg)
      with (String a (parent +:+ "/" +:+ seg)).
    cbn [Strings.LastIndex]. rewrite IH.
    destruct (Z.leb_spec 0 (Z.of_nat (String.length parent))); [|lia].
    cbn [String.length]. lia.
Qed.

Lemma LastIndex_split (s : string) :
  0 ≤ Strings.LastIndex s "/" →
  s = Strings.slice_to s (Strings.LastIndex s "/") +:+ "/"
      +:+ Strings.slice_from s (Strings.LastIndex s "/" + 1)
  ∧ ¬ contains_byte "/" (Strings.slice_from s (Strings.LastIndex s "/" + 1)).
Proof.
  unfold Strings.slice_to, Strings.slice_from.
  induction s as [|a s IH]; [cbn; lia|].
  cbn [Strings.LastIndex]. rewrite prefix_slash.
  destruct (Z.leb_spec 0 (Strings.LastIndex s "/")) as [Hi|Hi].
  - intros _. destruct (IH Hi) as [Heq Hno].
    replace (Z.to_nat (Strings.LastIndex s "/" + 1))
      with (S (Z.to_nat (Strings.LastIndex s "/"))) in * by lia.
    replace (Z.to_nat (Strings.LastIndex s "/" + 1 + 1))
      with (S (S (Z.to_nat (Strings.LastIndex s "/")))) by lia.
    cbn [Strings.take Strings.drop] in *. split; [|exact Hno].
    simpl. f_equal. exact Heq.
  - case_bool_decide as Ha; [|lia]. subst a. intros _.
    cbn. split; [reflexivity|].
    apply LastIndex_absent.
    destruct (LastIndex_slash_bound s); [assumption | lia].
Qed.

(** The candidate list as the specification describes it: a registry is
    its own single candidate; a key with a last segment is followed by the
    candidates of the key without that segment. *)
Inductive truncations : string → list string → Prop :=
| truncations_registry (registry : string) :
    ¬ contains_byte "/" registry →
    truncations registry [registry]
| truncations_namespace (parent segment : string) (l : list string) :
    ¬ contains_byte "/" segment →
    truncations parent l →
    truncations (parent +:+ "/" +:+ segment) ((parent +:+ "/" +:+ segment) :: l).

Lemma authKeysForKey_truncations (n : nat) :
  ∀ key, (String.length key < n)%nat → truncations key (authKeysForKey key).
Proof.
  induction n as [|n IH]; intros key Hlt; [lia|].
  rewrite authKeysForKey_unfold.
  destruct (Z.eqb_spec (Strings.LastIndex key "/") (-1)) as [Hi|Hne].
  - apply truncations_registry, LastIndex_absent, Hi.
  - pose proof (slice_to_last_slash_shorter key Hne) as Hshort.
    destruct (LastIndex_slash_bound key) as [?|Hb]; [contradiction|].
    destruct (LastIndex_split key) as [Heq Hno]; [lia|].
    rewrite Heq at 1 2.
    apply truncations_namespace; [exact Hno|]. apply IH. lia.
Qed.

Lemma truncations_authKeysForKey (key : string) (l : list string) :
  truncations key l → l = authKeysForKey key.
Proof.
  induction 1 as [registry Hno|parent segment l Hno _ IH].
  - rewrite authKeysForKey_unfold.
    apply LastIndex_absent in Hno. rewrite Hno. reflexivity.
  - rewrite authKeysForKey_unfold, LastIndex_app by assumption.
    unfold Strings.len, Strings.slice_to. rewrite Nat2Z.id, take_app_length.
    destruct (Z.eqb_spec (Z.of_nat (String.length parent)) (-1)); [lia|].
    rewrite IH. reflexivity.
Qed.

Lemma registryOfKey_no_slash (s : string) :
  ¬ contains_byte "/" s → registryOfKey s = s.
Proof.
  intros Hno. unfold registryOfKey, Strings.IndexRune.
  apply IndexByte_absent in Hno. rewrite Hno. reflexivity.
Qed.

Lemma registryOfKey_first_slash (host rest : string) :
  ¬ contains_byte "/" host → registryOfKey (host +:+ String "/" rest) = host.
Proof.
  intros Hno. unfold registryOfKey, Strings.IndexRune.
  rewrite IndexByte_app by assumption.
  unfold Strings.len, Strings.slice_to. rewrite Nat2Z.id, take_app_length.
  destruct (Z.eqb_spec (Z.of_nat (String.length host)) (-1)); [lia | reflexivity].
Qed.

Lemma registryOfKey_parent (parent segment : string) :
  registryOfKey (parent +:+ "/" +:+ segment) = registryOfKey parent.
Proof.
  destruct (IndexByte_range parent "/") as [Hi|Hi].
  - apply IndexByte_absent in Hi.
    rewrite (registryOfKey_no_slash parent Hi).
    apply (registryOfKey_first_slash parent segment Hi).
  - destruct (IndexByte_split parent "/") as [Heq Hno]; [lia|].
    rewrite Heq at 1 2. rewrite append_assoc.
    change (String "/" ?x +:+ ?y) with (String "/" (x +:+ y)).
    rewrite !registryOfKey_first_slash by assumption. reflexivity.
Qed.

Lemma truncations_last (key : string) (l : list string) :
  truncations key l → last l = Some (registryOfKey key).
Proof.
  induction 1 as [registry Hno|parent segment l Hno Ht IH].
  - rewrite registryOfKey_no_slash by assumption. reflexivity.
  - rewrite registryOfKey_parent. destruct Ht; exact IH.
Qed.

(** ** Decoding an entry (C5) *)

(** [s] ends with the byte [c]. *)
Definition ends_with (c : ascii) (s : string) : Prop := ∃ l, s = l +:+ String c "".

(** [n] times the byte [c]. *)
Fixpoint replicate_byte (n : nat) (c : ascii) : string :=
  match n with
  | O => ""
  | S n' => String c (replicate_byte n' c)
  end.

Lemma prefix_single (c a : ascii) (s : string) :
  String.prefix (String c "") (String a s) = bool_decide (a = c).
Proof.
  cbn [String.prefix]. destruct (ascii_dec c a) as [<-|Hne].
  - rewrite bool_decide_eq_true_2 by reflexivity. destruct s; reflexivity.
  - rewrite bool_decide_eq_false_2; [reflexivity | intros ->; apply Hne; reflexivity].
Qed.

Lemma Index_single (s : string) (c : ascii) :
  Strings.Index s (String c "") = Strings.IndexByte s c.
Proof.
  induction s as [|a s IH]; [reflexivity|].
  cbn [Strings.Index Strings.IndexByte]. rewrite prefix_single, IH.
  destruct (Ascii.eqb_spec a c) as [->|Hne].
  - rewrite bool_decide_eq_true_2 by reflexivity. reflexivity.
  - rewrite bool_decide_eq_false_2 by assumption. reflexivity.
Qed.

(** Cutting at a separator that the part before it does not contain. *)
Lemma Cut_first (user rest : string) (c : ascii) :
  ¬ contains_byte c user →
  Strings.Cut (user +:+ String c rest) (String c "") = (user, rest, true).
Proof.
  intros Hno. unfold Strings.Cut. rewrite Index_single, IndexByte_app by assumption.
  unfold Strings.len, Strings.slice_to, Strings.slice_from.
  destruct (Z.leb_spec 0 (Z.of_nat (String.length user))); [|lia].
  rewrite Nat2Z.id, take_app_length.
  replace (Z.to_nat (Z.of_nat (String.length user) + Z.of_nat (String.length (String c ""))))
    with (String.length (user +:+ String c "")) by (rewrite length_append; simpl; lia).
  change (String c rest) with (String c "" +:+ rest).
  rewrite <- append_assoc, drop_app_length. reflexivity.
Qed.

Lemma ends_with_cons (c a : ascii) (s : string) :
  ends_with c (String a s) ↔ (s = "" ∧ a = c) ∨ ends_with c s.
Proof.
  split.
  - intros [[|b l] Hl]; simpl in Hl; injection Hl as -> ->.
    + left; auto.
    + right; exists l; reflexivity.
  - intros [[-> ->]|[l ->]].
    + exists ""; reflexivity.
    + exists (String a l); reflexivity.
Qed.

Lemma ends_with_nil (c : ascii) : ¬ ends_with c "".
Proof. intros [[|b l] Hl]; discriminate. Qed.

Lemma trimLeftByte_split (s : string) (c : ascii) :
  ∃ n, s = replicate_byte n c +:+ Strings.trimLeftByte s c
       ∧ ¬ begins_with (String c "") (Strings.trimLeftByte s c).
Proof.
  induction s as [|a s (n & Heq & Hno)]; simpl.
  - exists O. split; [reflexivity|]. intros [r Hr]; discriminate.
  - destruct (Ascii.eqb_spec a c) as [->|Hne].
    + exists (S n). split; [simpl; f_equal; exact Heq | exact Hno].
    + exists O. split; [reflexivity|]. intros [r Hr]. simpl in Hr. congruence.
Qed.

Lemma trimRightByte_split (s : string) (c : ascii) :
  ∃ n, s = Strings.trimRightByte s c +:+ replicate_byte n c
       ∧ ¬ ends_with c (Strings.trimRightByte s c).
Proof.
  induction s as [|a s (n & Heq & Hno)]; cbn [Strings.trimRightByte].
  - exists O. split; [reflexivity | apply ends_with_nil].
  - destruct (Strings.trimRightByte s c) as [|b t] eqn:Ht.
    + simpl in Heq. destruct (Ascii.eqb_spec a c) as [->|Hne].
      * exists (S n). split; [simpl; f_equal; exact Heq | apply ends_with_nil].
      * exists n. split; [simpl; f_equal; exact Heq|].
        rewrite ends_with_cons. intros [[_ ?]|He]; [congruence|].
        apply (ends_with_nil _ He).
    + exists n. split; [simpl; f_equal; exact Heq|].
      rewrite ends_with_cons. intros [[? _]|He]; [discriminate | auto].
Qed.

Lemma ends_with_app (c : ascii) (l s : string) :
  s ≠ "" → ends_with c s → ends_with c (l +:+ s).
Proof.
  intros _ [m ->]. exists (l +:+ m). rewrite append_assoc. reflexivity.
Qed.

Lemma Trim_split (s : string) (c : ascii) :
  ∃ lead trail, s = replicate_byte lead c +:+ Strings.Trim s c +:+ replicate_byte trail c
                ∧ ¬ begins_with (String c "") (Strings.Trim s c)
                ∧ ¬ ends_with c (Strings.Trim s c).
Proof.
  unfold Strings.Trim.
  destruct (trimRightByte_split s c) as (trail & Hs & Hend).
  destruct (trimLeftByte_split (Strings.trimRightByte s c) c) as (lead & Ht & Hbegin).
  exists lead, trail. split; [|split; [exact Hbegin|]].
  - rewrite <- append_assoc, <- Ht. exact Hs.
  - intros He. apply Hend. rewrite Ht. apply ends_with_app; [|exact He].
    intros Hnil. rewrite Hnil in He. apply (ends_with_nil _ He).
Qed.

Lemma trimLeftByte_id (s : string) (c : ascii) :
  ¬ begins_with (String c "") s → Strings.trimLeftByte s c = s.
Proof.
  destruct s as [|a s]; [reflexivity|]. simpl. intros Hno.
  destruct (Ascii.eqb_spec a c) as [->|]; [|reflexivity].
  destruct Hno. exists s. reflexivity.
Qed.

Lemma trimRightByte_id (s : string) (c : ascii) :
  ¬ ends_with c s → Strings.trimRightByte s c = s.
Proof.
  induction s as [|a s IH]; [reflexivity|].
  rewrite ends_with_cons. intros Hno. cbn [Strings.trimRightByte].
  rewrite IH by tauto. destruct s as [|b s]; [|reflexivity].
  destruct (Ascii.eqb_spec a c); [tauto | reflexivity].
Qed.

Lemma Trim_id (s : string) (c : ascii) :
  ¬ begins_with (String c "") s → ¬ ends_with c s → Strings.Trim s c = s.
Proof.
  intros Hb He. unfold Strings.Trim.
  rewrite trimRightByte_id, trimLeftByte_id by assumption. reflexivity.
Qed.

(** Whether the last byte of [s] is [c]. *)
Fixpoint last_byte_is (c : ascii) (s : string) : bool :=
  match s with
  | "" => false
  | String a "" => Ascii.eqb a c
  | String _ s' => last_byte_is c s'
  end.

Lemma ends_with_last_byte (c : ascii) (s : string) :
  ends_with c s ↔ last_byte_is c s = true.
Proof.
  induction s as [|a s IH].
  - split; [intros H; destruct (ends_with_nil _ H) | discriminate].
  - rewrite ends_with_cons, IH. cbn [last_byte_is]. destruct s as [|b s].
    + destruct (Ascii.eqb_spec a c); split; try tauto; try discriminate.
    + split; [intros [[? _]|?]; [discriminate | assumption] | auto].
Qed.

(** C5, as the code has it. When the decoded auth string has a colon, the
    user name is what precedes the first colon and the password is what
    follows it without the NUL bytes at its two ends: the leading ones are
    removed like the trailing ones, and everything between them is kept. *)
Theorem decodeDockerAuth_password (path key : string) (conf : dockerAuthConfig)
    (user rest : string) :
  Base64.DecodeString (Auth conf) = Some (user +:+ ":" +:+ rest) →
  ¬ contains_byte ":" user →
  ∃ (lead trail : nat) (password : string),
    rest = replicate_byte lead zero +:+ password +:+ replicate_byte trail zero
    ∧ ¬ begins_with (String zero "") password
    ∧ ¬ ends_with zero password
    ∧ decodeDockerAuth path key conf
      = Ok {| types.Username := user;
              types.Password := password;
              types.IdentityToken := IdentityToken conf |}.
Proof.
  intros Hdecoded Hfirst.
  destruct (Trim_split rest zero) as (lead & trail & Hrest & Hb & He).
  exists lead, trail, (Strings.Trim rest zero).
  split; [exact Hrest|]. split; [exact Hb|]. split; [exact He|].
  unfold decodeDockerAuth. rewrite Hdecoded.
  change (user +:+ ":" +:+ rest) with (user +:+ String ":" rest).
  rewrite (Cut_first user rest ":" Hfirst). reflexivity.
Qed.

(** ** Facts about base64 and UTF-8 *)

Section Base64Facts.

Import Base64.

Lemma string_ind3 (P : string → Prop) :
  P "" →
  (∀ a, P (String a "")) →
  (∀ a b, P (String a (String b ""))) →
  (∀ a b c s, P s → P (String a (String b (String c s)))) →
  ∀ s, P s.
Proof.
  intros H0 H1 H2 H3 s.
  assert (P s ∧ (∀ a, P (String a s)) ∧ (∀ a b, P (String a (String b s)))) as [? _];
    [|assumption].
  induction s as [|c s (IH0 & IH1 & IH2)]; auto.
Qed.

Lemma dec6_enc6 (x : sextet) : dec6 (enc6 x) = Some x.
Proof. destruct x as [[[[[[] []] []] []] []] []]; reflexivity. Qed.

Lemma enc6_not_pad (x : sextet) : Ascii.eqb (enc6 x) padChar = false.
Proof. destruct x as [[[[[[] []] []] []] []] []]; reflexivity. Qed.

Lemma enc6_not_newline (x : sextet) : is_newline (enc6 x) = false.
Proof. destruct x as [[[[[[] []] []] []] []] []]; reflexivity. Qed.

Lemma enc6_ascii (x : sextet) : Utf8.in_range 0 127 (enc6 x) = true.
Proof. destruct x as [[[[[[] []] []] []] []] []]; reflexivity. Qed.

Lemma EncodeToString_nil (s : string) : EncodeToString s = "" → s = "".
Proof.
  destruct s as [|[] [|[] [|[] s]]]; [reflexivity | discriminate..].
Qed.

Lemma skip_newlines_EncodeToString (s : string) :
  skip_newlines (EncodeToString s) = EncodeToString s.
Proof.
  induction s as [|[]|[] []|[] [] [] s IH] using string_ind3;
    cbn [EncodeToString skip_newlines]; rewrite ?enc6_not_newline;
    rewrite ?IH; reflexivity.
Qed.

Lemma decode_quanta_EncodeToString (s : string) :
  decode_quanta (EncodeToString s) = Some s.
Proof.
  induction s as [|[]|[] []|[] [] [] s IH] using string_ind3;
    cbn [EncodeToString decode_quanta].
  - reflexivity.
  - change (Ascii.eqb padChar padChar) with true. cbv iota.
    rewrite !dec6_enc6. reflexivity.
  - change (Ascii.eqb padChar padChar) with true. rewrite enc6_not_pad. cbv iota.
    rewrite !dec6_enc6. reflexivity.
  - rewrite enc6_not_pad, !dec6_enc6. cbn [mbind option_bind].
    destruct (EncodeToString s) eqn:Henc.
    + apply EncodeToString_nil in Henc. subst s. reflexivity.
    + rewrite IH. reflexivity.
Qed.

(** Decoding undoes encoding. *)
Lemma DecodeString_EncodeToString (s : string) :
  DecodeString (EncodeToString s) = Some s.
Proof.
  unfold DecodeString.
  rewrite skip_newlines_EncodeToString. apply decode_quanta_EncodeToString.
Qed.

(** Every byte of [s] is below [utf8.RuneSelf]. *)
Fixpoint all_ascii (s : string) : bool :=
  match s with
  | "" => true
  | String c s' => Utf8.in_range 0 127 c && all_ascii s'
  end.

Lemma ValidString_ascii (s : string) : all_ascii s = true → Utf8.ValidString s = true.
Proof.
  induction s as [|c s IH]; [reflexivity|]. cbn [all_ascii Utf8.ValidString].
  intros [Hc Hs]%andb_true_iff. rewrite Hc. auto.
Qed.

Lemma EncodeToString_ascii (s : string) : all_ascii (EncodeToString s) = true.
Proof.
  induction s as [|[]|[] []|[] [] [] s IH] using string_ind3;
    cbn [EncodeToString all_ascii]; rewrite ?enc6_ascii, ?IH; reflexivity.
Qed.

Lemma EncodeToString_utf8 (s : string) : Utf8.ValidString (EncodeToString s) = true.
Proof. apply ValidString_ascii, EncodeToString_ascii. Qed.

End Base64Facts.

(** ** A concrete environment

    One environment in which everything computes: a Linux process, a
    toy encoding in place of JSON, helper programs that keep a table. *)

Module Concrete.

Definition join (elems : list string) : string :=
  String.concat "/" (filter (λ e, e ≠ "") elems).

Definition dir (name : string) : string :=
  let i := Strings.LastIndex name "/" in
  if i <? 0 then "." else if i =? 0 then "/" else Strings.slice_to name i.

Definition platform (env : gmap string string) (helpers : list string) : Platform :=
  {| GOOS := "linux";
     os_Getenv := λ name, default "" (env !! name);
     os_Getuid := 1000;
     homedir_Get := "/home/user";
     filepath_FromSlash := λ s, s;
     filepath_Join := join;
     filepath_Dir := dir;
     AuthenticationFileHelper := "containers-auth.json";
     CredentialHelpers := λ _, Ok helpers |}.

Fixpoint string_of_pos (p : positive) : string :=
  match p with
  | xH => "."
  | xO p => String "0" (string_of_pos p)
  | xI p => String "1" (string_of_pos p)
  end.

Fixpoint pos_of_string (s : string) : option positive :=
  match s with
  | String c s' =>
      if Ascii.eqb c "." then (if bool_decide (s' = "") then Some xH else None)
      else if Ascii.eqb c "0" then xO <$> pos_of_string s'
      else if Ascii.eqb c "1" then xI <$> pos_of_string s'
      else None
  | "" => None
  end.

#[global] Instance dockerAuthConfig_countable : Countable dockerAuthConfig.
Proof.
  refine (inj_countable' (λ c, (Auth c, IdentityToken c))
                         (λ p, {| Auth := p.1; IdentityToken := p.2 |}) _).
  intros []; reflexivity.
Defined.

#[global] Instance dockerConfigFile_countable : Countable dockerConfigFile.
Proof.
  refine (inj_countable' (λ d, (AuthConfigs d, CredHelpers d))
                         (λ p, {| AuthConfigs := p.1; CredHelpers := p.2 |}) _).
  intros []; reflexivity.
Defined.

Definition json : Json :=
  {| json_MarshalIndent := λ d, Ok (string_of_pos (encode d));
     json_Unmarshal_config := λ raw,
       match pos_of_string raw ≫= decode with
       | Some d => if decide (utf8_doc d) then Ok (json_reload d)
                   else Err (foreign_error "invalid character")
       | None => Err (foreign_error "unexpected end of JSON input")
       end;
     json_Unmarshal_auths := λ raw,
       match pos_of_string raw ≫= decode with
       | Some d => Ok (AuthConfigs d)
       | None => Err (foreign_error "unexpected end of JSON input")
       end |}.

Definition not_found : error :=
  foreign_error "credentials not found in native keychain".

(** The helper programs: a table from program and registry to user name
    and secret; the program [docker-credential-broken] always fails. *)
Definition helper_client : HelperClient :=
  {| helper_state := gmap (string * string) (string * string);
     helperclient_Get := λ program registry st,
       if bool_decide (program = "docker-credential-broken")
       then (Err (foreign_error "exit status 1"), st)
       else match st !! (program, registry) with
            | Some (u, s) =>
                (Ok {| credentials.ServerURL := registry;
                       credentials.Username := u;
                       credentials.Secret := s |}, st)
            | None => (Err not_found, st)
            end;
     helperclient_Store := λ program creds st,
       if bool_decide (program = "docker-credential-broken")
       then (Some (foreign_error "exit status 1"), st)
       else (None, <[(program, credentials.ServerURL creds)
                     := (credentials.Username creds, credentials.Secret creds)]> st);
     helperclient_Erase := λ program registry st,
       if bool_decide (program = "docker-credential-broken")
       then (Some (foreign_error "exit status 1"), st)
       else match st !! (program, registry) with
            | Some _ => (None, delete (program, registry) st)
            | None => (Some not_found, st)
            end;
     IsErrCredentialsNotFound := λ e,
       match e with
       | foreign_error text =>
           bool_decide (text = "credentials not found in native keychain")
       | _ => false
       end |}.

Program Definition map_range : MapRange :=
  {| go_range := map_to_list |}.
Next Obligation. reflexivity. Qed.

Definition world (fs : gmap string file) : World (helper_client := helper_client) :=
  {| files := fs; dirs := {["/run"]}; mkdir_denied := ∅; write_denied := ∅;
     helpers := ∅; calls := [] |}.

End Concrete.


Section ConcreteFacts.

Lemma pos_of_string_of_pos (p : positive) :
  Concrete.pos_of_string (Concrete.string_of_pos p) = Some p.
Proof.
  induction p as [p IH|p IH|]; cbn [Concrete.string_of_pos Concrete.pos_of_string].
  - change (Ascii.eqb "1" ".") with false. change (Ascii.eqb "1" "0") with false.
    change (Ascii.eqb "1" "1") with true. cbv iota. rewrite IH. reflexivity.
  - change (Ascii.eqb "0" ".") with false. change (Ascii.eqb "0" "0") with true.
    cbv iota. rewrite IH. reflexivity.
  - reflexivity.
Qed.

Lemma utf8_doc_reload (d : dockerConfigFile) : utf8_doc d → utf8_doc (json_reload d).
Proof.
  intros [Ha Hc]. split; [exact Ha|]. unfold json_reload. simpl.
  destruct (CredHelpers d) as [m|]; [|apply map_Forall_empty].
  destruct (decide (m = ∅)); [apply map_Forall_empty | exact Hc].
Qed.

Lemma concrete_json_spec : JsonSpec Concrete.json.
Proof.
  split.
  - eexists; reflexivity.
  - eexists; reflexivity.
  - intros d; eexists; reflexivity.
  - intros d raw Hu [= <-]. simpl.
    rewrite pos_of_string_of_pos. simpl. rewrite decode_encode.
    destruct (decide (utf8_doc d)); [reflexivity | contradiction].
  - intros raw d. simpl.
    destruct (Concrete.pos_of_string raw ≫= decode) as [d'|]; [|discriminate].
    destruct (decide (utf8_doc d')); [|discriminate].
    intros [= <-]. apply utf8_doc_reload; assumption.
Qed.

End ConcreteFacts.

(** ** The engine *)

Ltac munfold := unfold mbind, mret, M_bind, M_ret in *.

(** The paths that follow the primary path when the user chose none. *)
Definition fallback_paths {platform : Platform} (homeDir : string) : list authPath :=
  let xdgCfgHome := if decide (os_Getenv "XDG_CONFIG_HOME" = "")
                    then filepath_Join [homeDir; ".config"]
                    else os_Getenv "XDG_CONFIG_HOME" in
  [ {| path := filepath_Join [xdgCfgHome; filepath_FromSlash "containers/auth.json"];
       legacyFormat := false |};
    {| path := if decide (os_Getenv "DOCKER_CONFIG" = "")
               then filepath_Join [homeDir; filepath_FromSlash ".docker/config.json"]
               else filepath_Join [os_Getenv "DOCKER_CONFIG"; "config.json"];
       legacyFormat := false |};
    {| path := filepath_Join [homeDir; ".dockercfg"]; legacyFormat := true |} ].

(** The context names an auth file, in the modern or the legacy format. *)
Definition user_specified (sys : option types.SystemContext) : Prop :=
  ∃ s, sys = Some s
       ∧ (types.AuthFilePath s ≠ "" ∨ types.LegacyFormatAuthFilePath s ≠ "").

Section EngineFacts.

Context {platform : Platform} {json : Json} {helper_client : HelperClient}
        {map_range : MapRange}.

Implicit Types (w : World) (sys : option types.SystemContext).

(** *** Paths (C7) *)

Lemma getPathToAuth_world sys w : (getPathToAuth sys w).2 = w.
Proof.
  unfold getPathToAuth, getPathToAuthWithOS, os_Stat_IsNotExist. munfold.
  repeat (case_match; simpl; try reflexivity).
Qed.

Lemma getPathToAuth_user_specified sys w :
  (getPathToAuth sys w).1.1.2 = true ↔ user_specified sys.
Proof.
  unfold user_specified, getPathToAuth, getPathToAuthWithOS, os_Stat_IsNotExist,
    nonempty.
  munfold. split.
  - repeat (case_match; simpl; try discriminate);
      intros _; eexists; (split; [reflexivity|]);
      repeat match goal with
             | H : negb (bool_decide _) = true |- _ =>
                 apply negb_true_iff, bool_decide_eq_false in H
             end; auto.
  - intros (s & -> & Hs).
    destruct (bool_decide (types.AuthFilePath s = "")) eqn:Ha; simpl; [|reflexivity].
    apply bool_decide_eq_true in Ha.
    destruct Hs as [?|Hl]; [contradiction|].
    rewrite bool_decide_eq_false_2 by assumption. reflexivity.
Qed.

Lemma getPathToAuth_error_default sys w e :
  (getPathToAuth sys w).1.2 = Some e → (getPathToAuth sys w).1.1.2 = false.
Proof.
  unfold getPathToAuth, getPathToAuthWithOS, os_Stat_IsNotExist. munfold.
  repeat (case_match; simpl; try discriminate); reflexivity.
Qed.

(** C7. Whatever the primary path is (and also when it could not be
    determined and is left out), the paths to search are the primary
    path followed, when the user named no auth file, by exactly the
    three fallback paths in their order, and by nothing when the user
    named one. *)
Theorem getAuthFilePaths_fallbacks sys (homeDir : string) w :
  ∃ (primary : list authPath) (userSpecified : bool),
    (primary, userSpecified)
    = match (getPathToAuth sys w).1 with
      | (pathToAuth, u, None) => ([pathToAuth], u)
      | (_, u, Some _) => ([], u)
      end
    ∧ (userSpecified = true ↔ user_specified sys)
    ∧ getAuthFilePaths sys homeDir w
      = (primary ++ (if userSpecified then [] else fallback_paths homeDir), w).
Proof.
  pose proof (getPathToAuth_world sys w) as Hw.
  pose proof (getPathToAuth_user_specified sys w) as Hu.
  unfold getAuthFilePaths, fallback_paths. munfold.
  destruct (getPathToAuth sys w) as [[[pathToAuth u] err] w'].
  simpl in Hw, Hu. subst w'. simpl.
  exists (match err with None => [pathToAuth] | Some _ => [] end), u.
  split; [destruct err; reflexivity|]. split; [exact Hu|].
  unfold xdgConfigHomePath, dockerHomePath, dockerLegacyHomePath, nonempty,
    newAuthPathDefault.
  destruct u; simpl; [rewrite app_nil_r; reflexivity|].
  repeat case_bool_decide; repeat case_decide; try contradiction;
    destruct err; simpl; reflexivity.
Qed.

(** *** The file store (C4, C9) *)

Lemma parse_world (p : authPath) w : (parse p w).2 = w.
Proof.
  unfold parse, os_ReadFile. munfold.
  repeat (case_match; simpl; try reflexivity).
Qed.

Lemma parse_not_exist (p : authPath) w :
  files w !! path p = None →
  parse p w = (Ok {| AuthConfigs := Some ∅; CredHelpers := None |}, w).
Proof.
  intros Habsent. unfold parse, os_ReadFile. munfold.
  rewrite Habsent. reflexivity.
Qed.

(** C4, as the code has it. For a path whose file does not exist, parse
    returns without error an empty document: its auths map is empty and
    not nil, its credHelpers map is nil (and so has no entry either). *)
Theorem parse_absent (p : authPath) w :
  files w !! path p = None →
  ∃ d, parse p w = (Ok d, w)
       ∧ AuthConfigs d = Some ∅
       ∧ CredHelpers d = None
       ∧ (∀ k, gomap_lookup (CredHelpers d) k = None).
Proof.
  intros Habsent. eexists. split; [apply parse_not_exist, Habsent|].
  split; [reflexivity|]. split; reflexivity.
Qed.

(** A file in the modern format never parses to a nil [auths] map. *)
Lemma parse_modern_AuthConfigs (p : authPath) w (d : dockerConfigFile) :
  legacyFormat p = false → (parse p w).1 = Ok d → is_Some (AuthConfigs d).
Proof.
  intros Hmodern. unfold parse, os_ReadFile. munfold. rewrite Hmodern.
  repeat (case_match; simpl; try discriminate); intros [= <-]; simpl; eauto.
Qed.

(** *** Namespaced keys and external helpers (C8) *)

Lemma multierror_Append_unsupported (es : list error) (helper : string) :
  multierror_Append (Some (multierror_Error es)) (unsupportedNamespaceErr helper)
  = Some (multierror_Error (es ++ [unsupportedNamespaceErr helper])).
Proof. reflexivity. Qed.

Lemma SetCredentials_loop_namespaced_external sys (key username password : string)
    (helpers : list string) :
  AuthenticationFileHelper ∉ helpers →
  ∀ (es : list error) w,
    SetCredentials_loop sys key username password true helpers
      (Some (multierror_Error es)) w
    = (Err (multierror_Error (es ++ (unsupportedNamespaceErr <$> helpers))), w).
Proof.
  induction helpers as [|helper helpers IH]; intros Hext es w.
  - simpl. rewrite app_nil_r. reflexivity.
  - apply not_elem_of_cons in Hext as [Hne Hext].
    cbn [SetCredentials_loop]. munfold.
    destruct (decide (helper = AuthenticationFileHelper)) as [?|_]; [congruence|].
    rewrite multierror_Append_unsupported, IH by assumption.
    rewrite <- app_assoc. reflexivity.
Qed.

(** C8. With a namespaced key and a chain of external helpers only,
    SetCredentials fails; its error aggregates one
    namespace-unsupported error for each helper of the chain, in order;
    the world is as before, so no helper program was called. *)
Theorem SetCredentials_namespaced_external sys (key username password : string)
    (helpers : list string) w :
  validateKey key = Ok true →
  CredentialHelpers sys = Ok helpers →
  helpers ≠ [] →
  AuthenticationFileHelper ∉ helpers →
  SetCredentials sys key username password w
  = (Err (multierror_Error (unsupportedNamespaceErr <$> helpers)), w)
  ∧ calls (SetCredentials sys key username password w).2 = calls w.
Proof.
  intros Hkey Hhelpers Hnonempty Hext.
  assert (SetCredentials sys key username password w
          = (Err (multierror_Error (unsupportedNamespaceErr <$> helpers)), w)) as ->;
    [|split; reflexivity].
  unfold SetCredentials. rewrite Hkey, Hhelpers.
  destruct helpers as [|helper helpers]; [contradiction|].
  apply not_elem_of_cons in Hext as [Hne Hext].
  cbn [SetCredentials_loop]. munfold.
  destruct (decide (helper = AuthenticationFileHelper)) as [?|_]; [congruence|].
  apply (SetCredentials_loop_namespaced_external sys key username password
           helpers Hext [unsupportedNamespaceErr helper]).
Qed.

(** *** The entry matcher (C2, C10) *)

(** The candidate keys for a file. *)
Definition candidates (p : authPath) (key registry : string) : list string :=
  if legacyFormat p then [registry] else authKeysForKey key.

(** The entry of [auths] that a lookup meets first: the first candidate
    that is a key of the map or, when none is, the first entry in the
    order of the range whose normalised key is the normalised
    registry. *)
Inductive first_match (d : dockerConfigFile) (p : authPath) (key registry : string)
  : string → dockerAuthConfig → Prop :=
| match_candidate (pre post : list string) (k : string) (v : dockerAuthConfig) :
    candidates p key registry = pre ++ k :: post →
    (∀ k', k' ∈ pre → gomap_lookup (AuthConfigs d) k' = None) →
    gomap_lookup (AuthConfigs d) k = Some v →
    first_match d p key registry k v
| match_normalized (pre post : list (string * dockerAuthConfig))
    (k : string) (v : dockerAuthConfig) :
    (∀ k', k' ∈ candidates p key registry →
           gomap_lookup (AuthConfigs d) k' = None) →
    go_range (default ∅ (AuthConfigs d)) = pre ++ (k, v) :: post →
    (∀ k' v', (k', v') ∈ pre →
              normalizeAuthFileKey k' (legacyFormat p) ≠ normalizeRegistry registry) →
    normalizeAuthFileKey k (legacyFormat p) = normalizeRegistry registry →
    first_match d p key registry k v.

Lemma first_existing_found (auths : gomap dockerAuthConfig)
    (pre post : list string) (k : string) (v : dockerAuthConfig) :
  (∀ k', k' ∈ pre → gomap_lookup auths k' = None) →
  gomap_lookup auths k = Some v →
  first_existing auths (pre ++ k :: post) = Some (k, v).
Proof.
  intros Hpre Hk. induction pre as [|k' pre IH]; simpl.
  - rewrite Hk. reflexivity.
  - rewrite (Hpre k') by left. apply IH. intros k'' Hin. apply Hpre. right; exact Hin.
Qed.

Lemma first_existing_none (auths : gomap dockerAuthConfig) (keys : list string) :
  (∀ k', k' ∈ keys → gomap_lookup auths k' = None) →
  first_existing auths keys = None.
Proof.
  induction keys as [|k keys IH]; intros Hnone; simpl; [reflexivity|].
  rewrite (Hnone k) by left. apply IH. intros k' Hin. apply Hnone. right; exact Hin.
Qed.

Lemma first_normalized_found (pre post : list (string * dockerAuthConfig))
    (legacy : bool) (registry k : string) (v : dockerAuthConfig) :
  (∀ k' v', (k', v') ∈ pre → normalizeAuthFileKey k' legacy ≠ registry) →
  normalizeAuthFileKey k legacy = registry →
  first_normalized (pre ++ (k, v) :: post) legacy registry = Some (k, v).
Proof.
  intros Hpre Hk. induction pre as [|[k' v'] pre IH]; simpl.
  - rewrite bool_decide_eq_true_2 by assumption. reflexivity.
  - rewrite bool_decide_eq_false_2 by (apply (Hpre k' v'); left).
    apply IH. intros k'' v'' Hin. apply (Hpre k'' v''). right; exact Hin.
Qed.

Lemma findCredentialsInFile_first_match (key registry : string) (p : authPath) w
    (d : dockerConfigFile) (k : string) (v : dockerAuthConfig) :
  (parse p w).1 = Ok d →
  gomap_lookup (CredHelpers d) registry = None →
  first_match d p key registry k v →
  findCredentialsInFile key registry p w = (decodeDockerAuth (path p) k v, w).
Proof.
  intros Hparse Hch Hmatch. unfold findCredentialsInFile. munfold.
  pose proof (parse_world p w) as Hw.
  destruct (parse p w) as [r w']. simpl in Hparse, Hw. subst r w'.
  rewrite Hch. fold (candidates p key registry).
  assert ((if negb (legacyFormat p) then authKeysForKey key else [registry])
          = candidates p key registry) as -> by (unfold candidates; destruct (legacyFormat p); reflexivity).
  destruct Hmatch as [pre post k v Hc Hpre Hk|pre post k v Hnone Hr Hpre Hk].
  - rewrite Hc, (first_existing_found _ pre post k v Hpre Hk). reflexivity.
  - rewrite (first_existing_none _ _ Hnone), Hr,
      (first_normalized_found pre post _ _ k v Hpre Hk). reflexivity.
Qed.

(** C2. The candidate keys of a key are the key itself followed by its
    successive truncations at the last '/', ending with the registry
    (for a/b/c: a/b/c, a/b, a); for a file in the legacy format the
    only candidate is the registry. The candidates are probed in that
    order: the entry of the first candidate that is a key of auths is
    decoded and returned, whatever the other entries are and in
    whatever order a range would visit them. *)
Theorem candidates_best_match_first :
  (∀ key, truncations key (authKeysForKey key)
          ∧ (∀ l, truncations key l → l = authKeysForKey key)
          ∧ last (authKeysForKey key) = Some (registryOfKey key))
  ∧ authKeysForKey "a/b/c" = ["a/b/c"; "a/b"; "a"]
  ∧ (∀ (p : authPath) (key registry : string),
       candidates p key registry
       = if legacyFormat p then [registry] else authKeysForKey key)
  ∧ (∀ (key registry : string) (p : authPath) w (d : dockerConfigFile)
       (pre post : list string) (k : string) (v : dockerAuthConfig),
       (parse p w).1 = Ok d →
       gomap_lookup (CredHelpers d) registry = None →
       candidates p key registry = pre ++ k :: post →
       (∀ k', k' ∈ pre → gomap_lookup (AuthConfigs d) k' = None) →
       gomap_lookup (AuthConfigs d) k = Some v →
       findCredentialsInFile key registry p w
       = (decodeDockerAuth (path p) k v, w)).
Proof.
  split; [|split; [reflexivity|split; [reflexivity|]]].
  - intros key.
    assert (truncations key (authKeysForKey key)) as Ht
        by (apply (authKeysForKey_truncations (S (String.length key))); lia).
    split; [exact Ht|]. split; [apply truncations_authKeysForKey|].
    apply (truncations_last key), Ht.
  - intros key registry p w d pre post k v Hparse Hch Hc Hpre Hk.
    apply (findCredentialsInFile_first_match key registry p w d k v Hparse Hch).
    apply (match_candidate d p key registry pre post k v Hc Hpre Hk).
Qed.

(** *** Reading credentials (C9, C10) *)

(** What json.Unmarshal is applied to for a path fails on [raw]. *)
Definition not_json (p : authPath) (raw : string) : Prop :=
  if legacyFormat p then ∃ e, json_Unmarshal_auths raw = Err e
  else ∃ e, json_Unmarshal_config raw = Err e.

Lemma empty_not_json (p : authPath) : JsonSpec json → not_json p "".
Proof.
  intros Hjson. unfold not_json.
  destruct (legacyFormat p); [apply (json_empty_auths _ Hjson) | apply (json_empty_config _ Hjson)].
Qed.

Lemma parse_not_json (p : authPath) w (raw : string) :
  files w !! path p = Some (RegularFile raw) → not_json p raw →
  ∃ e, parse p w = (Err e, w).
Proof.
  intros Hfile Hbad. unfold parse, os_ReadFile, not_json in *. munfold.
  rewrite Hfile. destruct (legacyFormat p), Hbad as [e ->]; eexists; reflexivity.
Qed.

Lemma go_range_empty : go_range ∅ = [].
Proof.
  pose proof (go_range_perm ∅) as Hperm. rewrite map_to_list_empty in Hperm.
  apply Permutation_nil_r in Hperm. exact Hperm.
Qed.

Lemma findCredentialsInFile_absent (key registry : string) (p : authPath) w :
  files w !! path p = None →
  findCredentialsInFile key registry p w = (Ok types.empty, w).
Proof.
  intros Habsent. unfold findCredentialsInFile. munfold.
  rewrite (parse_not_exist p w Habsent). cbn [gomap_lookup CredHelpers AuthConfigs].
  rewrite first_existing_none by (intros; apply lookup_empty).
  simpl. rewrite go_range_empty. reflexivity.
Qed.

Lemma findCredentialsInFile_parse_error (key registry : string) (p : authPath) w
    (e : error) :
  parse p w = (Err e, w) →
  findCredentialsInFile key registry p w
  = (Err (fmt_Errorf "reading JSON file %q: %w" [arg_s (path p); arg_w (Some e)]), w).
Proof. intros Hparse. unfold findCredentialsInFile. munfold. rewrite Hparse. reflexivity. Qed.

Lemma getCredentialsFromAuthFiles_loop_error (key registry : string)
    (p : authPath) (ps : list authPath) w w' (e : error) :
  findCredentialsInFile key registry p w = (Err e, w') →
  getCredentialsFromAuthFiles_loop key registry (p :: ps) w = (Err e, w').
Proof. intros Hfind. cbn [getCredentialsFromAuthFiles_loop]. munfold. rewrite Hfind. reflexivity. Qed.

(** Once an error is recorded, the loop over the helpers ends with an
    error or with credentials that a later helper has. *)
Lemma getCredentials_loop_after_error sys (key registry homeDir : string)
    (helpers : list string) :
  ∀ (multiErr : option error) w,
    is_Some multiErr →
    let r := (getCredentials_loop sys key registry homeDir helpers multiErr w).1 in
    (∃ e, r = Err e) ∨ (∃ creds, r = Ok creds ∧ creds ≠ types.empty).
Proof.
  induction helpers as [|helper helpers IH]; intros multiErr w [m ->].
  - left; eexists; reflexivity.
  - cbn [getCredentials_loop]. munfold.
    match goal with
    | |- context [let '(a, w') := ?step w in _] => destruct (step w) as [[creds|err] w1]
    end.
    + case_bool_decide as Hempty; simpl.
      * apply IH. eauto.
      * right. eexists; split; [reflexivity | assumption].
    + apply IH. unfold multierror_Append. eauto.
Qed.

(** Files that do not exist are passed over. *)
Lemma getCredentialsFromAuthFiles_loop_skip (key registry : string)
    (pre rest : list authPath) w :
  (∀ q, q ∈ pre → files w !! path q = None) →
  getCredentialsFromAuthFiles_loop key registry (pre ++ rest) w
  = getCredentialsFromAuthFiles_loop key registry rest w.
Proof.
  induction pre as [|q pre IH]; intros Habsent; [reflexivity|].
  cbn [app getCredentialsFromAuthFiles_loop]. munfold.
  rewrite (findCredentialsInFile_absent key registry q w) by (apply Habsent; left).
  rewrite bool_decide_eq_true_2 by reflexivity.
  apply IH. intros q' Hin. apply Habsent. right; exact Hin.
Qed.

Lemma getCredentials_file_error sys (key homeDir : string)
    (helpers : list string) (pre : list authPath) (p : authPath) (ps : list authPath)
    w w' (e : error) :
  getAuthFilePaths sys homeDir w = (pre ++ p :: ps, w) →
  (∀ q, q ∈ pre → files w !! path q = None) →
  findCredentialsInFile key (registryOfKey key) p w = (Err e, w') →
  getCredentials_loop sys key (registryOfKey key) homeDir
    (AuthenticationFileHelper :: helpers) None w
  = getCredentials_loop sys key (registryOfKey key) homeDir helpers
      (multierror_Append None e) w'.
Proof.
  intros Hpaths Habsent Hfind. cbn [getCredentials_loop]. munfold.
  destruct (decide (AuthenticationFileHelper = AuthenticationFileHelper)); [|congruence].
  unfold getCredentialsFromAuthFiles. munfold. rewrite Hpaths.
  rewrite (getCredentialsFromAuthFiles_loop_skip _ _ _ _ _ Habsent).
  rewrite (getCredentialsFromAuthFiles_loop_error _ _ _ _ _ _ _ Hfind).
  reflexivity.
Qed.

(** The result of GetCredentials when, with the file helper first in the
    chain, the first auth file that exists makes the lookup in it fail. *)
Lemma GetCredentials_file_error sys (key : string) (isNamespaced : bool)
    (helpers : list string) (pre : list authPath) (p : authPath) (ps : list authPath)
    w w' (e : error) :
  validateKey key = Ok isNamespaced →
  sys ≫= types.DockerAuthConfig_ = None →
  CredentialHelpers sys = Ok (AuthenticationFileHelper :: helpers) →
  getAuthFilePaths sys homedir_Get w = (pre ++ p :: ps, w) →
  (∀ q, q ∈ pre → files w !! path q = None) →
  findCredentialsInFile key (registryOfKey key) p w = (Err e, w') →
  let r := (GetCredentials sys key w).1 in
  ((∃ e', r = Err e') ∨ (∃ creds, r = Ok creds ∧ creds ≠ types.empty))
  ∧ (helpers = [] → ∃ e', r = Err e').
Proof.
  intros Hkey Hinline Hhelpers Hpaths Habsent Hfind.
  unfold GetCredentials, getCredentialsWithHomeDir.
  rewrite Hkey, Hinline, Hhelpers.
  rewrite (getCredentials_file_error _ _ _ _ _ _ _ _ _ _ Hpaths Habsent Hfind).
  split.
  - apply getCredentials_loop_after_error. unfold multierror_Append. eauto.
  - intros ->. eexists; reflexivity.
Qed.

(** C9. A file that exists but holds zero bytes, or anything else that
    json.Unmarshal rejects, makes parse fail, while a file that does not
    exist parses to a document. So in the loop of GetCredentials over
    the auth files an absent file is passed over and the lookup goes on
    with the remaining paths, while a file that is empty or not JSON
    ends the loop with an error, whatever paths remain; and
    GetCredentials, with the file helper first in the chain and such a
    file after absent ones only, returns an error unless a later helper
    has credentials (it never returns "not found"), and an error for
    sure when the file helper is the only one. *)
Theorem empty_file_is_an_error_absent_file_is_not :
  JsonSpec json →
  (∀ (p : authPath) w (raw : string),
     files w !! path p = Some (RegularFile raw) →
     raw = "" ∨ not_json p raw →
     ∃ e, parse p w = (Err e, w))
  ∧ (∀ (p : authPath) w,
       files w !! path p = None → ∃ d, parse p w = (Ok d, w))
  ∧ (∀ (key registry : string) (p : authPath) (ps : list authPath) w,
       files w !! path p = None →
       getCredentialsFromAuthFiles_loop key registry (p :: ps) w
       = getCredentialsFromAuthFiles_loop key registry ps w)
  ∧ (∀ (key registry : string) (p : authPath) (ps : list authPath) w (raw : string),
       files w !! path p = Some (RegularFile raw) →
       raw = "" ∨ not_json p raw →
       ∃ e, getCredentialsFromAuthFiles_loop key registry (p :: ps) w = (Err e, w))
  ∧ (∀ sys (key : string) (isNamespaced : bool) (helpers : list string)
       (pre : list authPath) (p : authPath) (ps : list authPath) w (raw : string),
       validateKey key = Ok isNamespaced →
       sys ≫= types.DockerAuthConfig_ = None →
       CredentialHelpers sys = Ok (AuthenticationFileHelper :: helpers) →
       getAuthFilePaths sys homedir_Get w = (pre ++ p :: ps, w) →
       (∀ q, q ∈ pre → files w !! path q = None) →
       files w !! path p = Some (RegularFile raw) →
       raw = "" ∨ not_json p raw →
       let r := (GetCredentials sys key w).1 in
       ((∃ e, r = Err e) ∨ (∃ creds, r = Ok creds ∧ creds ≠ types.empty))
       ∧ (helpers = [] → ∃ e, r = Err e)).
Proof.
  intros Hjson.
  assert (∀ (p : authPath) w (raw : string),
            files w !! path p = Some (RegularFile raw) →
            raw = "" ∨ not_json p raw →
            ∃ e, parse p w = (Err e, w)) as Hparse.
  { intros p w raw Hfile [->|Hbad]; apply (parse_not_json p w _ Hfile);
      [apply empty_not_json, Hjson | exact Hbad]. }
  split; [exact Hparse|].
  split; [intros p w Habsent; eexists; apply parse_not_exist, Habsent|].
  split.
  { intros key registry p ps w Habsent.
    apply (getCredentialsFromAuthFiles_loop_skip key registry [p] ps w).
    intros q Hin. apply list_elem_of_singleton in Hin. subst q. exact Habsent. }
  split.
  { intros key registry p ps w raw Hfile Hbad.
    destruct (Hparse p w raw Hfile Hbad) as [e He]. eexists.
    apply getCredentialsFromAuthFiles_loop_error.
    apply findCredentialsInFile_parse_error, He. }
  intros sys key isNamespaced helpers pre p ps w raw
         Hkey Hinline Hhelpers Hpaths Habsent Hfile Hbad.
  destruct (Hparse p w raw Hfile Hbad) as [e He].
  eapply (GetCredentials_file_error sys key isNamespaced helpers pre p ps w w);
    [exact Hkey | exact Hinline | exact Hhelpers | exact Hpaths | exact Habsent |].
  apply findCredentialsInFile_parse_error, He.
Qed.

(** C10. When the entry of auths that a lookup meets first has an auth
    field that is not valid base64, the lookup in that file fails: the
    entry is not taken for an empty one and no later candidate is
    tried; the loop over the auth files ends there with that error and
    reads no later file; and GetCredentials, with the file helper first
    in the chain and that file after absent ones only, returns an error
    unless a later helper has credentials, and an error for sure when no
    helper follows. *)
Theorem undecodable_entry_is_an_error :
  (∀ (key registry : string) (p : authPath) w (d : dockerConfigFile)
     (k : string) (v : dockerAuthConfig),
     (parse p w).1 = Ok d →
     gomap_lookup (CredHelpers d) registry = None →
     first_match d p key registry k v →
     Base64.DecodeString (Auth v) = None →
     findCredentialsInFile key registry p w = (Err base64_CorruptInputError, w)
     ∧ ∀ ps, getCredentialsFromAuthFiles_loop key registry (p :: ps) w
             = (Err base64_CorruptInputError, w))
  ∧ (∀ sys (key : string) (isNamespaced : bool) (helpers : list string)
       (pre : list authPath) (p : authPath) (ps : list authPath) w
       (d : dockerConfigFile) (k : string) (v : dockerAuthConfig),
       validateKey key = Ok isNamespaced →
       sys ≫= types.DockerAuthConfig_ = None →
       CredentialHelpers sys = Ok (AuthenticationFileHelper :: helpers) →
       getAuthFilePaths sys homedir_Get w = (pre ++ p :: ps, w) →
       (∀ q, q ∈ pre → files w !! path q = None) →
       (parse p w).1 = Ok d →
       gomap_lookup (CredHelpers d) (registryOfKey key) = None →
       first_match d p key (registryOfKey key) k v →
       Base64.DecodeString (Auth v) = None →
       let r := (GetCredentials sys key w).1 in
       ((∃ e, r = Err e) ∨ (∃ creds, r = Ok creds ∧ creds ≠ types.empty))
       ∧ (helpers = [] → ∃ e, r = Err e)).
Proof.
  assert (∀ (key registry : string) (p : authPath) w (d : dockerConfigFile)
            (k : string) (v : dockerAuthConfig),
            (parse p w).1 = Ok d →
            gomap_lookup (CredHelpers d) registry = None →
            first_match d p key registry k v →
            Base64.DecodeString (Auth v) = None →
            findCredentialsInFile key registry p w
            = (Err base64_CorruptInputError, w)) as Hfind.
  { intros key registry p w d k v Hparse Hch Hmatch Hbad.
    rewrite (findCredentialsInFile_first_match key registry p w d k v Hparse Hch Hmatch).
    unfold decodeDockerAuth. rewrite Hbad. reflexivity. }
  split.
  - intros key registry p w d k v Hparse Hch Hmatch Hbad.
    split; [apply (Hfind key registry p w d k v); assumption|].
    intros ps. apply getCredentialsFromAuthFiles_loop_error.
    apply (Hfind key registry p w d k v); assumption.
  - intros sys key isNamespaced helpers pre p ps w d k v
           Hkey Hinline Hhelpers Hpaths Habsent Hparse Hch Hmatch Hbad.
    eapply (GetCredentials_file_error sys key isNamespaced helpers pre p ps w w);
      [exact Hkey | exact Hinline | exact Hhelpers | exact Hpaths | exact Habsent |].
    apply (Hfind key _ p w d k v); assumption.
Qed.

(** *** Storing and reading back (C1) *)

(** The world after [os.MkdirAll] created [name]. *)
Definition after_mkdir (name : string) w : World :=
  {| files := files w;
     dirs := dirs w ∪ list_to_set (dir_chain (String.length name) name);
     mkdir_denied := mkdir_denied w;
     write_denied := write_denied w;
     helpers := helpers w;
     calls := calls w |}.

(** The world after [name] was written. *)
Definition after_write (name data : string) w : World :=
  {| files := <[name := RegularFile data]> (files w);
     dirs := dirs w;
     mkdir_denied := mkdir_denied w;
     write_denied := write_denied w;
     helpers := helpers w;
     calls := calls w |}.

Lemma os_MkdirAll_ok (name : string) w :
  name ∉ mkdir_denied w → os_MkdirAll name w = (None, after_mkdir name w).
Proof. intros Hok. unfold os_MkdirAll. rewrite bool_decide_eq_false_2 by assumption. reflexivity. Qed.

Lemma ioutils_AtomicWriteFile_ok (name data : string) w :
  name ∉ write_denied w →
  ioutils_AtomicWriteFile name data w = (None, after_write name data w).
Proof.
  intros Hok. unfold ioutils_AtomicWriteFile.
  rewrite bool_decide_eq_false_2 by assumption. reflexivity.
Qed.

(** parse looks at one file only. *)
Lemma parse_same_file (p : authPath) w1 w2 :
  files w1 !! path p = files w2 !! path p → (parse p w1).1 = (parse p w2).1.
Proof.
  intros Hsame. unfold parse, os_ReadFile. munfold. rewrite Hsame.
  repeat (case_match; simpl; try reflexivity).
Qed.

Lemma parse_eq (p : authPath) w (r : result dockerConfigFile) :
  (parse p w).1 = r → parse p w = (r, w).
Proof.
  intros <-. pose proof (parse_world p w). destruct (parse p w); simpl in *; congruence.
Qed.

Lemma parse_utf8 (p : authPath) w (d : dockerConfigFile) :
  JsonSpec json → legacyFormat p = false → (parse p w).1 = Ok d → utf8_doc d.
Proof.
  intros Hjson Hmodern. unfold parse, os_ReadFile. munfold. rewrite Hmodern.
  destruct (files w !! path p) as [[raw|]|]; simpl; [|discriminate|].
  - destruct (json_Unmarshal_config raw) as [d0|e] eqn:Hu; [|discriminate].
    intros [= <-].
    destruct (json_unmarshal_utf8 _ Hjson _ _ Hu) as [Ha Hc]. split; simpl.
    + destruct (AuthConfigs d0); exact Ha.
    + destruct (CredHelpers d0); exact Hc.
  - intros [= <-]. split; simpl; apply map_Forall_empty.
Qed.

(** The primary path stays what it is when directories and files are
    added. *)
Lemma getPathToAuth_stable sys w w' (p : authPath) (u : bool) :
  (getPathToAuth sys w).1 = (p, u, None) →
  dirs w ⊆ dirs w' →
  (∀ name, is_Some (files w !! name) → is_Some (files w' !! name)) →
  getPathToAuth sys w' = ((p, u, None), w').
Proof.
  intros Hpath Hdirs Hfiles.
  unfold getPathToAuth, getPathToAuthWithOS, os_Stat_IsNotExist in *. munfold.
  cbv zeta in *. revert Hpath.
  repeat (case_match; simpl; try discriminate; try congruence).
  all: exfalso;
    match goal with
    | Hw : _ || _ = true, Hw' : _ || _ = false |- _ =>
        apply orb_true_iff in Hw; apply orb_false_iff in Hw';
        rewrite !bool_decide_eq_true in Hw; rewrite !bool_decide_eq_false in Hw';
        destruct Hw, Hw'; auto
    end.
Qed.

Lemma gomap_lookup_reload_normalized (m : gomap string) (k : string) :
  gomap_lookup m k = None →
  gomap_lookup
    (match (match m with
            | Some g => if decide (g = ∅) then None else Some g
            | None => None
            end) with
     | None => Some ∅
     | Some g => Some g
     end) k = None.
Proof.
  destruct m as [g|]; simpl; [|intros _; apply lookup_empty].
  destruct (decide (g = ∅)); simpl; [intros _; apply lookup_empty | auto].
Qed.

(** The document that SetCredentials writes for a key without a
    credential helper of its own. *)
Definition with_credentials (d : dockerConfigFile) (key username password : string)
  : dockerConfigFile :=
  {| AuthConfigs :=
       gomap_set (AuthConfigs d) key
         {| Auth := Base64.EncodeToString (username +:+ ":" +:+ password);
            IdentityToken := "" |};
     CredHelpers := CredHelpers d |}.

Lemma utf8_doc_with_credentials (d : dockerConfigFile) (key username password : string) :
  utf8_doc d → Utf8.ValidString key = true →
  utf8_doc (with_credentials d key username password).
Proof.
  intros [Ha Hc] Hkey. split; [|exact Hc]. simpl.
  apply map_Forall_insert_2; [|exact Ha].
  simpl. split; [exact Hkey|]. split; [apply EncodeToString_utf8 | reflexivity].
Qed.

Lemma modifyJSON_SetCredentials sys (key username password : string)
    (isNamespaced : bool) w (p : authPath) (u : bool) (d : dockerConfigFile)
    (raw : string) :
  (getPathToAuth sys w).1 = (p, u, None) →
  legacyFormat p = false →
  filepath_Dir (path p) ∉ mkdir_denied w →
  path p ∉ write_denied w →
  (parse p w).1 = Ok d →
  gomap_lookup (CredHelpers d) key = None →
  json_MarshalIndent (with_credentials d key username password) = Ok raw →
  modifyJSON sys (SetCredentials_editor key username password isNamespaced) () w
  = ((Ok (path p), ()),
     after_write (path p) raw (after_mkdir (filepath_Dir (path p)) w)).
Proof.
  intros Hpath Hmodern Hmkdir Hwrite Hparse Hch Hraw.
  unfold modifyJSON. munfold.
  pose proof (getPathToAuth_world sys w) as Hw.
  destruct (getPathToAuth sys w) as [[[p' u'] err] w0].
  simpl in Hpath, Hw. injection Hpath as -> -> ->. subst w0.
  rewrite Hmodern, (os_MkdirAll_ok _ _ Hmkdir).
  rewrite (parse_eq p (after_mkdir (filepath_Dir (path p)) w) (Ok d))
    by (rewrite <- Hparse; apply parse_same_file; reflexivity).
  unfold SetCredentials_editor. munfold. rewrite Hch.
  fold (with_credentials d key username password). rewrite Hraw.
  rewrite ioutils_AtomicWriteFile_ok by exact Hwrite.
  reflexivity.
Qed.

Lemma getAuthFilePaths_primary sys (homeDir : string) w (p : authPath) (u : bool) :
  getPathToAuth sys w = ((p, u, None), w) →
  ∃ ps, getAuthFilePaths sys homeDir w = (p :: ps, w).
Proof.
  intros Hpath. unfold getAuthFilePaths. munfold. rewrite Hpath.
  destruct u; simpl; [eexists; reflexivity|].
  destruct (nonempty (os_Getenv "DOCKER_CONFIG")); eexists; reflexivity.
Qed.

Lemma parse_modern_file (p : authPath) w (raw : string) (d : dockerConfigFile) :
  files w !! path p = Some (RegularFile raw) →
  legacyFormat p = false →
  json_Unmarshal_config raw = Ok d →
  (parse p w).1
  = Ok {| AuthConfigs := match AuthConfigs d with
                         | None => Some ∅
                         | Some m => Some m
                         end;
          CredHelpers := match CredHelpers d with
                         | None => Some ∅
                         | Some m => Some m
                         end |}.
Proof.
  intros Hfile Hmodern Hjson. unfold parse, os_ReadFile. munfold.
  rewrite Hfile, Hmodern, Hjson. reflexivity.
Qed.

Lemma decodeDockerAuth_encoded (file key username password : string) :
  ¬ contains_byte ":" username →
  ¬ begins_with (String zero "") password →
  ¬ ends_with zero password →
  decodeDockerAuth file key
    {| Auth := Base64.EncodeToString (username +:+ ":" +:+ password);
       IdentityToken := "" |}
  = Ok {| types.Username := username;
          types.Password := password;
          types.IdentityToken := "" |}.
Proof.
  intros Hcolon Hb He. unfold decodeDockerAuth. cbn [Auth IdentityToken].
  rewrite DecodeString_EncodeToString.
  change (username +:+ ":" +:+ password) with (username +:+ String ":" password).
  rewrite (Cut_first username password ":" Hcolon), (Trim_id _ _ Hb He).
  reflexivity.
Qed.

(** C1, as the code has it. Take a valid key that is valid UTF-8, a
    user name without ':' and a password that neither begins nor ends
    with a NUL byte, not both empty; a context without inline
    credentials whose chain of helpers begins with the file helper; and
    a primary auth file in the modern format that is absent or parses,
    has no credHelpers entry for the key or for its registry, and can
    be written. Then SetCredentials succeeds, naming that file, and
    GetCredentials returns exactly the user name and the password, with
    an empty identity token. *)
Theorem SetCredentials_then_GetCredentials sys (key : string) (isNamespaced : bool)
    (username password : string) (helpers : list string) w
    (p : authPath) (userSpecified : bool) (d : dockerConfigFile) :
  JsonSpec json →
  validateKey key = Ok isNamespaced →
  Utf8.ValidString key = true →
  ¬ contains_byte ":" username →
  ¬ begins_with (String zero "") password →
  ¬ ends_with zero password →
  username ≠ "" ∨ password ≠ "" →
  sys ≫= types.DockerAuthConfig_ = None →
  CredentialHelpers sys = Ok (AuthenticationFileHelper :: helpers) →
  (getPathToAuth sys w).1 = (p, userSpecified, None) →
  legacyFormat p = false →
  filepath_Dir (path p) ∉ mkdir_denied w →
  path p ∉ write_denied w →
  (parse p w).1 = Ok d →
  gomap_lookup (CredHelpers d) key = None →
  gomap_lookup (CredHelpers d) (registryOfKey key) = None →
  ∃ w', SetCredentials sys key username password w = (Ok (path p), w')
        ∧ GetCredentials sys key w'
          = (Ok {| types.Username := username;
                   types.Password := password;
                   types.IdentityToken := "" |}, w').
Proof.
  intros Hjson Hkey Hutf8 Hcolon Hb He Hnonempty Hinline Hhelpers Hpath Hmodern
         Hmkdir Hwrite Hparse Hch Hchreg.
  destruct (json_marshal_total _ Hjson (with_credentials d key username password))
    as [raw Hraw].
  set (w' := after_write (path p) raw (after_mkdir (filepath_Dir (path p)) w)).
  exists w'. split.
  - unfold SetCredentials. rewrite Hkey, Hhelpers.
    cbn [SetCredentials_loop]. munfold.
    destruct (decide (AuthenticationFileHelper = AuthenticationFileHelper));
      [|congruence].
    rewrite (modifyJSON_SetCredentials sys key username password isNamespaced
               w p userSpecified d raw) by assumption.
    reflexivity.
  - assert (getPathToAuth sys w' = ((p, userSpecified, None), w')) as Hpath'.
    { apply (getPathToAuth_stable sys w w' p userSpecified Hpath).
      - simpl. apply union_subseteq_l.
      - intros name Hsome. simpl.
        destruct (decide (path p = name)) as [->|Hne].
        + rewrite lookup_insert_eq. eauto.
        + rewrite lookup_insert_ne by assumption. exact Hsome. }
    destruct (getAuthFilePaths_primary sys homedir_Get w' p userSpecified Hpath')
      as [ps Hpaths].
    assert (utf8_doc (with_credentials d key username password)) as Hdoc.
    { apply utf8_doc_with_credentials; [|exact Hutf8].
      apply (parse_utf8 p w d Hjson Hmodern Hparse). }
    pose proof (json_roundtrip _ Hjson _ _ Hdoc Hraw) as Hread.
    assert (files w' !! path p = Some (RegularFile raw)) as Hfile
        by (simpl; apply lookup_insert_eq).
    pose proof (parse_modern_file p w' raw _ Hfile Hmodern Hread) as Hparse'.
    assert (findCredentialsInFile key (registryOfKey key) p w'
            = (Ok {| types.Username := username;
                     types.Password := password;
                     types.IdentityToken := "" |}, w')) as Hfind.
    { rewrite <- (decodeDockerAuth_encoded (path p) key username password)
        by assumption.
      apply (findCredentialsInFile_first_match key (registryOfKey key) p w' _
               key _ Hparse').
      - cbn [CredHelpers json_reload with_credentials].
        apply gomap_lookup_reload_normalized, Hchreg.
      - apply (match_candidate _ p key (registryOfKey key) []
                 (if Strings.LastIndex key "/" =? -1 then []
                  else authKeysForKey
                         (Strings.slice_to key (Strings.LastIndex key "/")))).
        + unfold candidates. rewrite Hmodern. apply authKeysForKey_unfold.
        + intros k' Hin. apply elem_of_nil in Hin. contradiction.
        + cbn [AuthConfigs json_reload with_credentials gomap_set gomap_lookup].
          apply lookup_insert_eq. }
    unfold GetCredentials, getCredentialsWithHomeDir.
    rewrite Hkey, Hinline, Hhelpers.
    cbn [getCredentials_loop]. munfold.
    destruct (decide (AuthenticationFileHelper = AuthenticationFileHelper));
      [|congruence].
    unfold getCredentialsFromAuthFiles. munfold. rewrite Hpaths.
    cbn [getCredentialsFromAuthFiles_loop]. munfold. rewrite Hfind.
    assert ({| types.Username := username;
               types.Password := password;
               types.IdentityToken := "" |} ≠ types.empty) as Hfound
        by (intros [= -> ->]; destruct Hnonempty; congruence).
    rewrite (bool_decide_eq_false_2 _ Hfound). simpl.
    rewrite (bool_decide_eq_false_2 _ Hfound). reflexivity.
Qed.

(** *** Removing credentials (C6) *)

























End EngineFacts.

(** * The theorems at work in the concrete environment *)

Section Instances.

#[local] Existing Instance Concrete.json.
#[local] Existing Instance Concrete.helper_client.
#[local] Existing Instance Concrete.map_range.

(** Linux, no environment variable set, the file helper alone. *)
#[local] Instance file_only : Platform :=
  Concrete.platform ∅ ["containers-auth.json"].


(** Two external helpers. *)
Definition external_only : Platform :=
  Concrete.platform ∅ ["pass"; "secretservice"].

Definition primary : authPath := newAuthPathDefault "/run/containers/1000/auth.json".

(** Nothing stored anywhere. *)
Definition fresh : World := Concrete.world ∅.

(** After two logins, to a registry and to a namespace in it. *)
Definition logged_in : World :=
  (SetCredentials None "quay.io/team" "bob" "r2"
     (SetCredentials None "quay.io" "alice" "r1" fresh).2).2.

(** There is no primary auth file; the next file to search exists and
    has no byte. *)
Definition config_home : authPath :=
  newAuthPathDefault "/home/user/.config/containers/auth.json".
Definition empty_file : World := Concrete.world {[ path config_home := RegularFile "" ]}.

(** The primary auth file has an entry whose auth field is not base64. *)
Definition undecodable : World :=
  Concrete.world
    {[ path primary :=
         RegularFile
           (match json_MarshalIndent
                    {| AuthConfigs := Some {[ "quay.io" := {| Auth := "!!!!";
                                                              IdentityToken := "" |} ]};
                       CredHelpers := None |} with
            | Ok raw => raw
            | Err _ => ""
            end) ]}.

Lemma SetCredentials_then_GetCredentials_witness :
  ∃ w', SetCredentials None "quay.io/ns" "alice" "secret" fresh
        = (Ok "/run/containers/1000/auth.json", w')
        ∧ GetCredentials None "quay.io/ns" w'
          = (Ok {| types.Username := "alice";
                   types.Password := "secret";
                   types.IdentityToken := "" |}, w').
Proof.
  apply (SetCredentials_then_GetCredentials None "quay.io/ns" true "alice" "secret"
           [] fresh primary false {| AuthConfigs := Some ∅; CredHelpers := None |}).
  - exact concrete_json_spec.
  - reflexivity.
  - reflexivity.
  - apply IndexByte_absent. reflexivity.
  - rewrite <- prefix_begins_with. discriminate.
  - rewrite ends_with_last_byte. discriminate.
  - left. discriminate.
  - reflexivity.
  - reflexivity.
  - reflexivity.
  - reflexivity.
  - apply not_elem_of_empty.
  - apply not_elem_of_empty.
  - reflexivity.
  - reflexivity.
  - reflexivity.
Defined.

(** A user name with a colon does not come back: the first colon ends
    the user name on reading. *)
Lemma SetCredentials_GetCredentials_colon :
  validateKey "quay.io" = Ok false
  ∧ (SetCredentials None "quay.io" "a:b" "c" fresh).1
    = Ok "/run/containers/1000/auth.json"
  ∧ (GetCredentials None "quay.io"
       (SetCredentials None "quay.io" "a:b" "c" fresh).2).1
    = Ok {| types.Username := "a"; types.Password := "b:c"; types.IdentityToken := "" |}
  ∧ (GetCredentials None "quay.io"
       (SetCredentials None "quay.io" "a:b" "c" fresh).2).1
    ≠ Ok {| types.Username := "a:b"; types.Password := "c"; types.IdentityToken := "" |}.
Proof.
  split; [reflexivity|]. split; [vm_compute; reflexivity|].
  split; [vm_compute; reflexivity|]. vm_compute. discriminate.
Qed.

Lemma candidates_best_match_first_witness :
  let v := {| Auth := "Ym9iOnIy"; IdentityToken := "" |} in
  findCredentialsInFile "quay.io/team/img" "quay.io" primary logged_in
  = (decodeDockerAuth (path primary) "quay.io/team" v, logged_in)
  ∧ decodeDockerAuth (path primary) "quay.io/team" v
    = Ok {| types.Username := "bob"; types.Password := "r2"; types.IdentityToken := "" |}.
Proof.
  split; [|reflexivity].
  eapply (proj2 (proj2 (proj2 candidates_best_match_first))
            "quay.io/team/img" "quay.io" primary logged_in _
            ["quay.io/team/img"] ["quay.io"] "quay.io/team").
  - vm_compute. reflexivity.
  - reflexivity.
  - reflexivity.
  - intros k' Hin. apply list_elem_of_singleton in Hin. subst k'. reflexivity.
  - reflexivity.
Defined.

Lemma parse_absent_witness :
  files fresh !! path primary = None
  ∧ ∃ d, parse primary fresh = (Ok d, fresh)
         ∧ AuthConfigs d = Some ∅
         ∧ CredHelpers d = None
         ∧ (∀ k, gomap_lookup (CredHelpers d) k = None).
Proof. split; [reflexivity | apply (parse_absent primary fresh); reflexivity]. Defined.

(** For an absent file the credHelpers map of the document is nil. *)
Lemma parse_absent_CredHelpers_nil :
  files fresh !! path primary = None
  ∧ (parse primary fresh).1 = Ok {| AuthConfigs := Some ∅; CredHelpers := None |}
  ∧ CredHelpers {| AuthConfigs := Some ∅; CredHelpers := None |} ≠ Some ∅.
Proof. split; [reflexivity|]. split; [reflexivity | discriminate]. Qed.

Lemma decodeDockerAuth_password_witness :
  ∃ (lead trail : nat) (password : string),
    "b" = replicate_byte lead zero +:+ password +:+ replicate_byte trail zero
    ∧ ¬ begins_with (String zero "") password
    ∧ ¬ ends_with zero password
    ∧ decodeDockerAuth "auth.json" "quay.io" {| Auth := "YTpi"; IdentityToken := "t" |}
      = Ok {| types.Username := "a";
              types.Password := password;
              types.IdentityToken := "t" |}.
Proof.
  apply (decodeDockerAuth_password "auth.json" "quay.io"
           {| Auth := "YTpi"; IdentityToken := "t" |} "a" "b").
  - reflexivity.
  - apply IndexByte_absent. reflexivity.
Defined.

(** A NUL byte at the head of the password is removed: the password that
    comes back is not what follows the colon with its tail trimmed. *)
Lemma decodeDockerAuth_leading_NUL :
  let conf := {| Auth := "dToAcA=="; IdentityToken := "" |} in
  let rest := String zero "p" in
  Base64.DecodeString (Auth conf) = Some ("u" +:+ ":" +:+ rest)
  ∧ Strings.trimRightByte rest zero = rest
  ∧ decodeDockerAuth "auth.json" "quay.io" conf
    = Ok {| types.Username := "u"; types.Password := "p"; types.IdentityToken := "" |}
  ∧ decodeDockerAuth "auth.json" "quay.io" conf
    ≠ Ok {| types.Username := "u"; types.Password := rest; types.IdentityToken := "" |}.
Proof.
  split; [reflexivity|]. split; [reflexivity|]. split; [reflexivity|].
  vm_compute. discriminate.
Qed.


Lemma SetCredentials_namespaced_external_witness :
  SetCredentials (platform := external_only) None "quay.io/ns" "alice" "secret" fresh
  = (Err (multierror_Error [unsupportedNamespaceErr "pass";
                            unsupportedNamespaceErr "secretservice"]), fresh)
  ∧ calls (SetCredentials (platform := external_only)
             None "quay.io/ns" "alice" "secret" fresh).2
    = calls fresh.
Proof.
  apply (SetCredentials_namespaced_external (platform := external_only)
           None "quay.io/ns" "alice" "secret" ["pass"; "secretservice"] fresh).
  - reflexivity.
  - reflexivity.
  - discriminate.
  - intros Hin. apply elem_of_cons in Hin as [?|Hin]; [discriminate|].
    apply elem_of_cons in Hin as [?|Hin]; [discriminate|].
    apply elem_of_nil in Hin. exact Hin.
Defined.

Lemma empty_file_is_an_error_absent_file_is_not_witness :
  (∃ e, parse config_home empty_file = (Err e, empty_file))
  ∧ (∃ d, parse primary empty_file = (Ok d, empty_file))
  ∧ (∃ e, (GetCredentials None "quay.io" empty_file).1 = Err e).
Proof.
  destruct (empty_file_is_an_error_absent_file_is_not concrete_json_spec)
    as (Hempty & Habsent & _ & _ & Hget).
  split; [apply (Hempty config_home empty_file ""); [reflexivity | left; reflexivity]|].
  split; [apply (Habsent primary empty_file); reflexivity|].
  eapply (Hget None "quay.io" false [] [primary] config_home _ empty_file "").
  - reflexivity.
  - reflexivity.
  - reflexivity.
  - reflexivity.
  - intros q Hin. apply list_elem_of_singleton in Hin. subst q. reflexivity.
  - reflexivity.
  - left; reflexivity.
  - reflexivity.
Defined.

Lemma undecodable_entry_is_an_error_witness :
  findCredentialsInFile "quay.io" "quay.io" primary undecodable
  = (Err base64_CorruptInputError, undecodable)
  ∧ ∀ ps, getCredentialsFromAuthFiles_loop "quay.io" "quay.io" (primary :: ps) undecodable
          = (Err base64_CorruptInputError, undecodable).
Proof.
  eapply (proj1 undecodable_entry_is_an_error "quay.io" "quay.io" primary undecodable
            _ "quay.io" {| Auth := "!!!!"; IdentityToken := "" |}).
  - vm_compute. reflexivity.
  - reflexivity.
  - apply (match_candidate _ primary "quay.io" "quay.io" [] []).
    + reflexivity.
    + intros k' Hin. apply elem_of_nil in Hin. contradiction.
    + reflexivity.
  - reflexivity.
Defined.

End Instances.

(** * More of the package

    Properties of the code beyond the claims of the specification. *)

(** ** Keys *)

Lemma validateKey_Err_iff (key : string) :
  (∃ e, validateKey key = Err e) ↔ invalid_key_shape key.
Proof.
  unfold validateKey, invalid_key_shape, Strings.HasPrefix.
  rewrite <- !prefix_begins_with, <- ContainsRune_contains, <- first_slash_colon.
  destruct (String.prefix "http://" key); [split; eauto|].
  destruct (String.prefix "https://" key); [split; eauto|].
  destruct (Strings.ContainsRune key "@"); [split; eauto|].
  simpl.
  destruct (negb (Strings.IndexRune key "/" =? -1)
            && Strings.ContainsRune
                 (Strings.slice_from key (Strings.IndexRune key "/" + 1)) ":");
    [split; eauto|].
  split; [intros [e He]; discriminate | intros [?|[?|[?|?]]]; discriminate].
Qed.

Lemma validateKey_Ok_namespaced (key : string) (isNamespaced : bool) :
  validateKey key = Ok isNamespaced → (isNamespaced = true ↔ contains_byte "/" key).
Proof.
  unfold validateKey.
  repeat match goal with
         | |- context [if ?b then _ else _] => destruct b eqn:?
         end; try discriminate.
  intros [= <-]. apply namespaced_contains_slash.
Qed.

Lemma validateKey_total (key : string) :
  (∃ e, validateKey key = Err e) ∨ (∃ b, validateKey key = Ok b).
Proof. destruct (validateKey key); eauto. Qed.

(** A key that is invalid stays invalid when it is extended. *)
Lemma invalid_key_shape_extend (k rest : string) :
  invalid_key_shape k → invalid_key_shape (k +:+ rest).
Proof.
  unfold invalid_key_shape, begins_with, colon_after_first_slash.
  intros [[r ->]|[[r ->]|[Hat|(host & r & -> & Hno & Hcolon)]]].
  - left. exists (r +:+ rest). apply append_assoc.
  - right; left. exists (r +:+ rest). apply append_assoc.
  - right; right; left. apply contains_byte_app. left; exact Hat.
  - right; right; right. exists host, (r +:+ rest).
    split; [apply append_assoc|]. split; [exact Hno|].
    apply contains_byte_app. left; exact Hcolon.
Qed.

Lemma valid_prefix (k rest : string) (b : bool) :
  validateKey (k +:+ rest) = Ok b → ∃ b', validateKey k = Ok b'.
Proof.
  intros Hvalid. destruct (validateKey_total k) as [Hbad|Hok]; [|exact Hok].
  apply validateKey_Err_iff, (invalid_key_shape_extend k rest),
    validateKey_Err_iff in Hbad.
  destruct Hbad as [e He]. congruence.
Qed.

Lemma truncations_prefix (key : string) (l : list string) :
  truncations key l → ∀ k, k ∈ l → begins_with k key.
Proof.
  induction 1 as [registry Hno|parent segment l Hno Ht IH]; intros k Hin.
  - apply list_elem_of_singleton in Hin. subst k. exists "". symmetry. apply append_nil_r.
  - apply elem_of_cons in Hin as [->|Hin].
    + exists "". symmetry. apply append_nil_r.
    + destruct (IH k Hin) as [r ->]. exists (r +:+ "/" +:+ segment).
      apply append_assoc.
Qed.

Lemma registryOfKey_slash_free (key : string) : ¬ contains_byte "/" (registryOfKey key).
Proof.
  unfold registryOfKey, Strings.IndexRune.
  destruct (IndexByte_range key "/") as [Hi|Hi].
  - rewrite Hi. simpl. apply IndexByte_absent, Hi.
  - destruct (Z.eqb_spec (Strings.IndexByte key "/") (-1)); [lia|]. simpl.
    apply IndexByte_split. lia.
Qed.

(** X1. For a valid key, every candidate key that a lookup in an auth
    file probes is a valid key too, and so is the registry that is handed
    to the credential helpers, which moreover is not namespaced. *)
Theorem candidates_are_valid_keys (key : string) (isNamespaced : bool) :
  validateKey key = Ok isNamespaced →
  (∀ k, k ∈ authKeysForKey key → ∃ b, validateKey k = Ok b)
  ∧ validateKey (registryOfKey key) = Ok false.
Proof.
  intros Hvalid.
  assert (truncations key (authKeysForKey key)) as Ht
      by (apply (authKeysForKey_truncations (S (String.length key))); lia).
  assert (∀ k, k ∈ authKeysForKey key → ∃ b, validateKey k = Ok b) as Hall.
  { intros k Hin. destruct (truncations_prefix key _ Ht k Hin) as [rest Hrest].
    rewrite Hrest in Hvalid. apply (valid_prefix k rest isNamespaced Hvalid). }
  split; [exact Hall|].
  destruct (Hall (registryOfKey key)) as [b Hb].
  { apply (truncations_last key) in Ht.
    rewrite last_Some in Ht. destruct Ht as [l' ->].
    apply elem_of_app. right. left. }
  rewrite Hb. f_equal. destruct b; [|reflexivity].
  destruct (registryOfKey_slash_free key).
  apply (validateKey_Ok_namespaced _ _ Hb). reflexivity.
Qed.

Lemma candidates_are_valid_keys_witness :
  (∀ k, k ∈ authKeysForKey "localhost:5000/ns/img" → ∃ b, validateKey k = Ok b)
  ∧ validateKey (registryOfKey "localhost:5000/ns/img") = Ok false.
Proof. apply (candidates_are_valid_keys "localhost:5000/ns/img" true). reflexivity. Defined.

(** The number of bytes [c] in [s]. *)
Fixpoint count_byte (c : ascii) (s : string) : nat :=
  match s with
  | "" => O
  | String a s' => (if Ascii.eqb a c then 1 else 0) + count_byte c s'
  end.

Lemma count_byte_app (c : ascii) (s t : string) :
  count_byte c (s +:+ t) = (count_byte c s + count_byte c t)%nat.
Proof. induction s as [|a s IH]; simpl; [reflexivity | rewrite IH; lia]. Qed.

Lemma count_byte_absent (c : ascii) (s : string) :
  ¬ contains_byte c s → count_byte c s = O.
Proof.
  induction s as [|a s IH]; [reflexivity|]. rewrite contains_byte_cons. simpl.
  intros Hno. destruct (Ascii.eqb_spec a c); [tauto|]. apply IH. tauto.
Qed.

Lemma truncations_length (key : string) (l : list string) :
  truncations key l → length l = S (count_byte "/" key).
Proof.
  induction 1 as [registry Hno|parent segment l Hno Ht IH].
  - rewrite count_byte_absent by assumption. reflexivity.
  - rewrite !count_byte_app, (count_byte_absent _ segment Hno). simpl.
    rewrite IH. lia.
Qed.

Lemma truncations_NoDup (key : string) (l : list string) :
  truncations key l → NoDup l.
Proof.
  induction 1 as [registry Hno|parent segment l Hno Ht IH].
  - apply NoDup_singleton.
  - apply NoDup_cons. split; [|exact IH].
    intros Hin. destruct (truncations_prefix parent l Ht _ Hin) as [r Hr].
    apply (f_equal String.length) in Hr. rewrite !length_append in Hr.
    simpl in Hr. lia.
Qed.

(** X2. The candidate keys of a key are pairwise different, and there is
    one more of them than the key has '/' bytes: a lookup probes no key
    twice and probes every level of the key. *)
Theorem authKeysForKey_distinct (key : string) :
  NoDup (authKeysForKey key)
  ∧ length (authKeysForKey key) = S (count_byte "/" key).
Proof.
  assert (truncations key (authKeysForKey key)) as Ht
      by (apply (authKeysForKey_truncations (S (String.length key))); lia).
  split; [apply (truncations_NoDup key), Ht | apply (truncations_length key), Ht].
Qed.

(** ** Normalisation of the keys of a file *)

Lemma normalizeRegistry_idempotent (registry : string) :
  normalizeRegistry (normalizeRegistry registry) = normalizeRegistry registry.
Proof.
  unfold normalizeRegistry.
  destruct (bool_decide (registry = "registry-1.docker.io")
            || bool_decide (registry = "docker.io")) eqn:Hr; [reflexivity|].
  rewrite Hr. reflexivity.
Qed.

Lemma normalizeRegistry_slash_free (registry : string) :
  ¬ contains_byte "/" registry → ¬ contains_byte "/" (normalizeRegistry registry).
Proof.
  intros Hno. unfold normalizeRegistry.
  destruct (bool_decide (registry = "registry-1.docker.io")
            || bool_decide (registry = "docker.io")); [|exact Hno].
  apply IndexByte_absent. reflexivity.
Qed.

Lemma normalizeRegistry_slash (registry : string) :
  contains_byte "/" registry → normalizeRegistry registry = registry.
Proof.
  intros Hslash. unfold normalizeRegistry.
  destruct (bool_decide (registry = "registry-1.docker.io")) eqn:H1.
  { apply bool_decide_eq_true in H1. subst.
    exfalso. revert Hslash. apply IndexByte_absent. reflexivity. }
  destruct (bool_decide (registry = "docker.io")) eqn:H2; [|reflexivity].
  apply bool_decide_eq_true in H2. subst.
  exfalso. revert Hslash. apply IndexByte_absent. reflexivity.
Qed.

Lemma TrimPrefix_absent (s pre : string) :
  ¬ begins_with pre s → Strings.TrimPrefix s pre = s.
Proof.
  intros Hno. unfold Strings.TrimPrefix, Strings.HasPrefix.
  destruct (String.prefix pre s) eqn:Hp; [|reflexivity].
  apply prefix_begins_with in Hp. contradiction.
Qed.

Lemma TrimPrefix_present (pre rest : string) :
  Strings.TrimPrefix (pre +:+ rest) pre = rest.
Proof.
  unfold Strings.TrimPrefix, Strings.HasPrefix, Strings.slice_from, Strings.len.
  rewrite (proj2 (prefix_begins_with pre (pre +:+ rest))) by (exists rest; reflexivity).
  rewrite Nat2Z.id. apply drop_app_length.
Qed.

Lemma Cut_absent (s : string) (c : ascii) :
  ¬ contains_byte c s → Strings.Cut s (String c "") = (s, "", false).
Proof.
  intros Hno. unfold Strings.Cut. rewrite Index_single.
  apply IndexByte_absent in Hno. rewrite Hno. reflexivity.
Qed.

(** What precedes the first '/', for a string that is a host alone or a
    host followed by a path. *)
Lemma Cut_host (host tail : string) :
  ¬ contains_byte "/" host →
  tail = "" ∨ begins_with "/" tail →
  (Strings.Cut (host +:+ tail) "/").1.1 = host.
Proof.
  intros Hno [->|[rest ->]].
  - rewrite append_nil_r, Cut_absent by assumption. reflexivity.
  - change ("/" +:+ rest) with (String "/" rest).
    rewrite Cut_first by assumption. reflexivity.
Qed.

(** A host followed by a path begins with a scheme only if the host is
    the scheme without its slashes. *)
Lemma host_path_scheme (scheme host tail : string) :
  ¬ contains_byte "/" host →
  tail = "" ∨ begins_with "/" tail →
  begins_with (scheme +:+ "//") (host +:+ tail) →
  ¬ contains_byte "/" scheme →
  host = scheme.
Proof.
  intros Hno Htail [r Hr] Hscheme.
  destruct Htail as [->|[rest ->]].
  - rewrite append_nil_r in Hr. subst host. destruct Hno.
    rewrite append_assoc. apply contains_byte_app. right.
    exists "", ("/" +:+ r). reflexivity.
  - change ("/" +:+ rest) with (String "/" rest) in Hr.
    rewrite append_assoc in Hr. change ("//" +:+ r) with (String "/" ("/" +:+ r)) in Hr.
    pose proof (IndexByte_app host rest "/" Hno) as H1.
    pose proof (IndexByte_app scheme ("/" +:+ r) "/" Hscheme) as H2.
    rewrite Hr, H2 in H1. unfold Strings.len in H1.
    apply (f_equal (λ x, Strings.take (String.length scheme) x)) in Hr.
    rewrite take_app_length in Hr.
    replace (String.length scheme) with (String.length host) in Hr at 1 by lia.
    rewrite take_app_length in Hr. exact Hr.
Qed.

(** X3. A file key that is a URL, "http://" or "https://" followed by a
    host and possibly a path, is normalised to the normalised host, in
    files of both formats (the host "https:" after "http://" apart, which
    is taken for a second scheme); in a legacy file a key without scheme
    is cut at its first '/' in the same way. So the entry that docker
    login wrote under https://index.docker.io/v1/ stands for docker.io. *)
Theorem normalizeAuthFileKey_url (host tail : string) (legacy : bool) :
  ¬ contains_byte "/" host →
  tail = "" ∨ begins_with "/" tail →
  normalizeAuthFileKey ("https://" +:+ host +:+ tail) legacy = normalizeRegistry host
  ∧ (host ≠ "https:" →
     normalizeAuthFileKey ("http://" +:+ host +:+ tail) legacy = normalizeRegistry host)
  ∧ (host ≠ "https:" → host ≠ "http:" →
     normalizeAuthFileKey (host +:+ tail) true = normalizeRegistry host).
Proof.
  intros Hno Htail.
  assert (∀ scheme, scheme = "http:" ∨ scheme = "https:" → host ≠ scheme →
                    ¬ begins_with (scheme +:+ "//") (host +:+ tail)) as Hplain.
  { intros scheme Hscheme Hne Hb. apply Hne.
    apply (host_path_scheme scheme host tail Hno Htail Hb).
    destruct Hscheme as [->| ->]; apply IndexByte_absent; reflexivity. }
  assert (∀ scheme : string, scheme ≠ "" →
            bool_decide (host +:+ tail = scheme +:+ host +:+ tail) = false) as Hshorter.
  { intros scheme Hne. apply bool_decide_eq_false. intros Heq.
    apply (f_equal String.length) in Heq. rewrite !length_append in Heq.
    destruct scheme; [contradiction | simpl in Heq; lia]. }
  unfold normalizeAuthFileKey. split; [|split].
  - rewrite (TrimPrefix_absent ("https://" +:+ host +:+ tail) "http://")
      by (rewrite <- prefix_begins_with; discriminate).
    rewrite TrimPrefix_present, Hshorter by discriminate.
    rewrite orb_true_r, (Cut_host host tail Hno Htail). reflexivity.
  - intros Hne. rewrite TrimPrefix_present.
    rewrite (TrimPrefix_absent (host +:+ tail) "https://")
      by (apply (Hplain "https:"); auto).
    rewrite Hshorter by discriminate.
    rewrite orb_true_r, (Cut_host host tail Hno Htail). reflexivity.
  - intros Hne1 Hne2.
    rewrite (TrimPrefix_absent (host +:+ tail) "http://")
      by (apply (Hplain "http:"); auto).
    rewrite (TrimPrefix_absent (host +:+ tail) "https://")
      by (apply (Hplain "https:"); auto).
    cbn [orb]. rewrite (Cut_host host tail Hno Htail). reflexivity.
Qed.

Lemma normalizeAuthFileKey_url_witness :
  normalizeAuthFileKey ("https://" +:+ "index.docker.io" +:+ "/v1/") true
  = normalizeRegistry "index.docker.io"
  ∧ ("index.docker.io" ≠ "https:" →
     normalizeAuthFileKey ("http://" +:+ "index.docker.io" +:+ "/v1/") true
     = normalizeRegistry "index.docker.io")
  ∧ ("index.docker.io" ≠ "https:" → "index.docker.io" ≠ "http:" →
     normalizeAuthFileKey ("index.docker.io" +:+ "/v1/") true
     = normalizeRegistry "index.docker.io").
Proof.
  apply (normalizeAuthFileKey_url "index.docker.io" "/v1/" true).
  - apply IndexByte_absent. reflexivity.
  - right. exists "v1/". reflexivity.
Defined.

(** X4. The normalised form of a file key is a fixed point of
    normalizeRegistry. In a legacy file it has no '/'. In a file of the
    modern format a key without scheme keeps its namespace: a key with a
    '/' is left as it is, and so is different from every normalised
    registry, which is why the second pass of a lookup never returns a
    namespaced entry. *)
Theorem normalizeAuthFileKey_normal_form (key : string) :
  (∀ legacy, normalizeRegistry (normalizeAuthFileKey key legacy)
             = normalizeAuthFileKey key legacy)
  ∧ ¬ contains_byte "/" (normalizeAuthFileKey key true)
  ∧ (¬ begins_with "http://" key → ¬ begins_with "https://" key →
     contains_byte "/" key →
     normalizeAuthFileKey key false = key
     ∧ ∀ key', normalizeAuthFileKey key false
               ≠ normalizeRegistry (registryOfKey key')).
Proof.
  split; [intros legacy; apply normalizeRegistry_idempotent|]. split.
  - unfold normalizeAuthFileKey. cbn [orb].
    apply normalizeRegistry_slash_free.
    set (stripped := Strings.TrimPrefix (Strings.TrimPrefix key "http://") "https://").
    unfold Strings.Cut. rewrite Index_single.
    destruct (IndexByte_range stripped "/") as [Hi|Hi].
    + rewrite Hi. simpl. apply IndexByte_absent, Hi.
    + destruct (Z.leb_spec 0 (Strings.IndexByte stripped "/")); [|lia].
      simpl. apply IndexByte_split. lia.
  - intros Hhttp Hhttps Hslash.
    assert (normalizeAuthFileKey key false = key) as Hsame.
    { unfold normalizeAuthFileKey.
      rewrite (TrimPrefix_absent key "http://" Hhttp),
        (TrimPrefix_absent key "https://" Hhttps).
      rewrite bool_decide_eq_true_2 by reflexivity. simpl.
      apply normalizeRegistry_slash, Hslash. }
    split; [exact Hsame|]. intros key' Heq. rewrite Hsame in Heq.
    apply (normalizeRegistry_slash_free (registryOfKey key')
             (registryOfKey_slash_free key')).
    rewrite <- Heq. exact Hslash.
Qed.

(** ** Entries without a user name and a password *)

(** X5. An entry whose decoded auth string has no colon (the empty auth
    string of a credential helper marker among them) decodes to the empty
    record without error, whatever identity token the entry has: the
    token of such an entry is not returned. *)
Theorem decodeDockerAuth_no_colon (file key : string) (conf : dockerAuthConfig)
    (decoded : string) :
  Base64.DecodeString (Auth conf) = Some decoded →
  ¬ contains_byte ":" decoded →
  decodeDockerAuth file key conf = Ok types.empty.
Proof.
  intros Hdecoded Hno. unfold decodeDockerAuth.
  rewrite Hdecoded, (Cut_absent decoded ":" Hno). reflexivity.
Qed.

Lemma decodeDockerAuth_no_colon_witness :
  decodeDockerAuth "auth.json" "quay.io" {| Auth := ""; IdentityToken := "token" |}
  = Ok types.empty.
Proof.
  apply (decodeDockerAuth_no_colon "auth.json" "quay.io"
           {| Auth := ""; IdentityToken := "token" |} "").
  - reflexivity.
  - apply contains_byte_nil.
Defined.

(** ** What the operations touch *)

(** The get commands for one registry. *)
Definition is_Get (registry : string) (c : helper_call) : Prop :=
  ∃ program, c = call_Get program registry.

Definition is_any_Get (c : helper_call) : Prop :=
  ∃ program registry, c = call_Get program registry.

(** The store commands of one login. *)
Definition is_Store (key username password : string) (c : helper_call) : Prop :=
  ∃ program, c = call_Store program {| credentials.ServerURL := key;
                                       credentials.Username := username;
                                       credentials.Secret := password |}.

(** The erase commands for one key. *)
Definition is_Erase (key : string) (c : helper_call) : Prop :=
  ∃ program, c = call_Erase program key.

Definition is_any_Erase (c : helper_call) : Prop :=
  ∃ program registry, c = call_Erase program registry.

Section Effects.

Context {platform : Platform} {json : Json} {helper_client : HelperClient}
        {map_range : MapRange} {helper_lister : HelperLister}
        {range_order : RangeOrder}.

Implicit Types (w : World) (sys : option types.SystemContext)
         (P : helper_call → Prop).

(** [w'] is [w] after helper commands in [P] and nothing else: no file,
    directory or permission differs. *)
Definition reads P w w' : Prop :=
  files w' = files w ∧ dirs w' = dirs w
  ∧ mkdir_denied w' = mkdir_denied w ∧ write_denied w' = write_denied w
  ∧ ∃ more, calls w' = calls w ++ more ∧ Forall P more.

(** [w'] is [w] after helper commands in [P], after directories were
    made, and after the file [name] was written or not: every other file
    is as it was, and no file was removed. *)
Definition writes (name : string) P w w' : Prop :=
  (∀ other, other ≠ name → files w' !! other = files w !! other)
  ∧ (is_Some (files w !! name) → is_Some (files w' !! name))
  ∧ dirs w ⊆ dirs w'
  ∧ mkdir_denied w' = mkdir_denied w ∧ write_denied w' = write_denied w
  ∧ ∃ more, calls w' = calls w ++ more ∧ Forall P more.

Lemma reads_refl P w : reads P w w.
Proof.
  repeat split. exists []. split; [symmetry; apply app_nil_r | constructor].
Qed.

Lemma reads_trans P w1 w2 w3 : reads P w1 w2 → reads P w2 w3 → reads P w1 w3.
Proof.
  intros (Hf1 & Hd1 & Hm1 & Hw1 & m1 & Hc1 & HP1)
         (Hf2 & Hd2 & Hm2 & Hw2 & m2 & Hc2 & HP2).
  split; [rewrite Hf2; exact Hf1|]. split; [rewrite Hd2; exact Hd1|].
  split; [rewrite Hm2; exact Hm1|]. split; [rewrite Hw2; exact Hw1|].
  exists (m1 ++ m2). split; [rewrite Hc2, Hc1, app_assoc; reflexivity|].
  apply Forall_app; split; assumption.
Qed.

Lemma reads_weaken P (Q : helper_call → Prop) w w' :
  (∀ c, P c → Q c) → reads P w w' → reads Q w w'.
Proof.
  intros HPQ (Hf & Hd & Hm & Hw & more & Hc & HP).
  repeat split; try assumption. exists more. split; [exact Hc|].
  eapply Forall_impl; eauto.
Qed.

Lemma reads_writes (name : string) P w w' : reads P w w' → writes name P w w'.
Proof.
  intros (Hf & Hd & Hm & Hw & Hc).
  split; [intros other _; rewrite Hf; reflexivity|].
  split; [rewrite Hf; auto|]. split; [rewrite Hd; reflexivity|]. auto.
Qed.

Lemma writes_refl (name : string) P w : writes name P w w.
Proof. apply reads_writes, reads_refl. Qed.

Lemma writes_trans (name : string) P w1 w2 w3 :
  writes name P w1 w2 → writes name P w2 w3 → writes name P w1 w3.
Proof.
  intros (Hf1 & Hk1 & Hd1 & Hm1 & Hw1 & m1 & Hc1 & HP1)
         (Hf2 & Hk2 & Hd2 & Hm2 & Hw2 & m2 & Hc2 & HP2).
  split; [intros other Hne; rewrite Hf2, Hf1 by assumption; reflexivity|].
  split; [auto|]. split; [etrans; eassumption|].
  split; [rewrite Hm2; exact Hm1|]. split; [rewrite Hw2; exact Hw1|].
  exists (m1 ++ m2). split; [rewrite Hc2, Hc1, app_assoc; reflexivity|].
  apply Forall_app; split; assumption.
Qed.

Lemma call_helper_reads {A} (c : helper_call)
    (run : helper_state → A * helper_state) P w :
  P c → reads P w (call_helper c run w).2.
Proof.
  intros Hc. unfold call_helper. destruct (run (helpers w)) as [a h]. simpl.
  repeat split. exists [c]. split; [reflexivity | repeat constructor; exact Hc].
Qed.

(** *** Reading *)

Lemma getAuthFromCredHelper_reads (credHelper registry : string) w :
  reads (is_Get registry) w (getAuthFromCredHelper credHelper registry w).2.
Proof.
  unfold getAuthFromCredHelper. munfold.
  pose proof (call_helper_reads (call_Get (helperName credHelper) registry)
                (helperclient_Get (helperName credHelper) registry)
                (is_Get registry) w) as Hcall.
  destruct (call_helper _ _ w) as [creds w1]. simpl in Hcall.
  assert (reads (is_Get registry) w w1) as Hr by (apply Hcall; eexists; reflexivity).
  repeat case_match; exact Hr.
Qed.

Lemma findCredentialsInFile_reads (key registry : string) (p : authPath) w :
  reads (is_Get registry) w (findCredentialsInFile key registry p w).2.
Proof.
  unfold findCredentialsInFile. munfold.
  pose proof (parse_world p w) as Hw.
  destruct (parse p w) as [[d|e] w0]; simpl in Hw; subst w0;
    [|apply reads_refl].
  destruct (gomap_lookup (CredHelpers d) registry) as [ch|];
    [apply getAuthFromCredHelper_reads|].
  repeat case_match; apply reads_refl.
Qed.

Lemma getAuthFilePaths_world sys (homeDir : string) w :
  (getAuthFilePaths sys homeDir w).2 = w.
Proof.
  unfold getAuthFilePaths. munfold.
  pose proof (getPathToAuth_world sys w) as Hw.
  destruct (getPathToAuth sys w) as [[[p u] err] w0]. simpl in Hw. subst w0.
  repeat case_match; reflexivity.
Qed.

Lemma getCredentialsFromAuthFiles_loop_reads (key registry : string)
    (paths : list authPath) :
  ∀ w, reads (is_Get registry) w
         (getCredentialsFromAuthFiles_loop key registry paths w).2.
Proof.
  induction paths as [|p paths IH]; intros w; simpl; [apply reads_refl|].
  munfold.
  pose proof (findCredentialsInFile_reads key registry p w) as Hfile.
  destruct (findCredentialsInFile key registry p w) as [[authConfig|e] w1];
    simpl in Hfile; [|exact Hfile].
  destruct (negb (bool_decide (authConfig = types.empty))); [exact Hfile|].
  eapply reads_trans; [exact Hfile | apply IH].
Qed.

Lemma getCredentials_loop_reads sys (key registry homeDir : string)
    (helpers : list string) :
  ∀ (multiErr : option error) w,
    reads (is_Get registry) w
      (getCredentials_loop sys key registry homeDir helpers multiErr w).2.
Proof.
  induction helpers as [|helper helpers IH]; intros multiErr w; simpl.
  { destruct multiErr; apply reads_refl. }
  munfold.
  destruct (decide (helper = AuthenticationFileHelper)).
  - unfold getCredentialsFromAuthFiles. munfold.
    pose proof (getAuthFilePaths_world sys homeDir w) as Hw.
    destruct (getAuthFilePaths sys homeDir w) as [paths w0]. simpl in Hw. subst w0.
    pose proof (getCredentialsFromAuthFiles_loop_reads key registry paths w) as Hr.
    destruct (getCredentialsFromAuthFiles_loop key registry paths w)
      as [[[creds file]|err] w1]; simpl in Hr.
    + destruct (negb (bool_decide (creds = types.empty))); [exact Hr|].
      eapply reads_trans; [exact Hr | apply IH].
    + eapply reads_trans; [exact Hr | apply IH].
  - pose proof (getAuthFromCredHelper_reads helper registry w) as Hr.
    destruct (getAuthFromCredHelper helper registry w) as [[creds|err] w1];
      simpl in Hr.
    + destruct (negb (bool_decide (creds = types.empty))); [exact Hr|].
      eapply reads_trans; [exact Hr | apply IH].
    + eapply reads_trans; [exact Hr | apply IH].
Qed.

Lemma getCredentialsWithHomeDir_reads sys (key homeDir : string) w :
  reads (is_Get (registryOfKey key)) w (getCredentialsWithHomeDir sys key homeDir w).2.
Proof.
  unfold getCredentialsWithHomeDir.
  destruct (validateKey key); [|apply reads_refl].
  destruct (sys ≫= types.DockerAuthConfig_); [apply reads_refl|].
  destruct (CredentialHelpers sys); [|apply reads_refl].
  apply getCredentials_loop_reads.
Qed.

(** X6. GetCredentials only reads. It changes no file, makes no
    directory, and the only commands it sends to helper programs are get
    commands for the registry of the key (the key up to its first
    slash), never for the key with its namespace. *)
Theorem GetCredentials_reads sys (key : string) w :
  reads (is_Get (registryOfKey key)) w (GetCredentials sys key w).2.
Proof. apply getCredentialsWithHomeDir_reads. Qed.

(** *** Writing *)

Lemma getPathToAuth_same sys w w' :
  files w' = files w → dirs w' = dirs w →
  (getPathToAuth sys w').1 = (getPathToAuth sys w).1.
Proof.
  intros Hf Hd.
  unfold getPathToAuth, getPathToAuthWithOS, os_Stat_IsNotExist. munfold.
  cbv beta zeta.
  destruct sys as [s|];
    repeat match goal with
           | |- context [if nonempty ?x then _ else _] => destruct (nonempty x)
           | |- context [bool_decide (GOOS = "windows") || ?b] =>
               destruct (bool_decide (GOOS = "windows") || b)
           end;
    cbv beta; rewrite ?Hf, ?Hd; try reflexivity;
    destruct (_ || _); reflexivity.
Qed.

(** [w'] is [w] after helper commands in [P] and after the primary auth
    file of [sys] was written or not; the primary path is the same in
    both. *)
Definition touches sys P w w' : Prop :=
  writes (path (getPathToAuth sys w).1.1.1) P w w'
  ∧ (getPathToAuth sys w').1 = (getPathToAuth sys w).1.

Lemma reads_touches sys P w w' : reads P w w' → touches sys P w w'.
Proof.
  intros Hr. split; [apply reads_writes, Hr|].
  destruct Hr as (Hf & Hd & _). apply getPathToAuth_same; assumption.
Qed.

Lemma touches_refl sys P w : touches sys P w w.
Proof. apply reads_touches, reads_refl. Qed.

Lemma touches_trans sys P w1 w2 w3 :
  touches sys P w1 w2 → touches sys P w2 w3 → touches sys P w1 w3.
Proof.
  intros [Hw1 Hp1] [Hw2 Hp2]. rewrite Hp1 in Hw2.
  split; [eapply writes_trans; eassumption | congruence].
Qed.

Lemma writes_touches sys P w w' (p : authPath) (u : bool) :
  (getPathToAuth sys w).1 = (p, u, None) →
  writes (path p) P w w' → touches sys P w w'.
Proof.
  intros Hpath Hw. split; [rewrite Hpath; exact Hw|].
  rewrite Hpath.
  destruct Hw as (Hother & Hkept & Hdirs & _).
  rewrite (getPathToAuth_stable sys w w' p u Hpath Hdirs); [reflexivity|].
  intros name Hsome. destruct (decide (name = path p)) as [->|Hne]; [auto|].
  rewrite Hother by exact Hne. exact Hsome.
Qed.

Lemma os_MkdirAll_writes (dir name : string) P w :
  writes name P w (os_MkdirAll dir w).2 ∧ files (os_MkdirAll dir w).2 = files w.
Proof.
  unfold os_MkdirAll. destruct (bool_decide (dir ∈ mkdir_denied w)); simpl.
  - split; [apply writes_refl | reflexivity].
  - split; [|reflexivity]. repeat split; simpl; auto.
    + set_solver.
    + exists []. split; [symmetry; apply app_nil_r | constructor].
Qed.

Lemma ioutils_AtomicWriteFile_writes (name data : string) P w :
  writes name P w (ioutils_AtomicWriteFile name data w).2
  ∧ (is_Some (ioutils_AtomicWriteFile name data w).1 →
     (ioutils_AtomicWriteFile name data w).2 = w).
Proof.
  unfold ioutils_AtomicWriteFile. destruct (bool_decide (name ∈ write_denied w)); simpl.
  - split; [apply writes_refl | reflexivity].
  - split; [|intros [? [=]]]. repeat split; simpl; auto.
    + intros other Hne. apply lookup_insert_ne. congruence.
    + intros _. rewrite lookup_insert_eq. eauto.
    + exists []. split; [symmetry; apply app_nil_r | constructor].
Qed.

(** modifyJSON with an editor that only sends commands in [P] to helper
    programs: no file other than the primary one changes, and when
    modifyJSON fails no file changes at all. *)
Lemma modifyJSON_touches {L : Type} sys
    (editor : dockerConfigFile → L →
              M (dockerConfigFile * (bool * string * option error) * L))
    (l : L) P w :
  (∀ d l0 w0, reads P w0 (editor d l0 w0).2) →
  touches sys P w (modifyJSON sys editor l w).2
  ∧ (∀ e, (modifyJSON sys editor l w).1.1 = Err e →
          files (modifyJSON sys editor l w).2 = files w).
Proof.
  intros Heditor. unfold modifyJSON. munfold.
  pose proof (getPathToAuth_world sys w) as Hw.
  destruct (getPathToAuth sys w) as [[[p u] err] w0] eqn:Hpath.
  simpl in Hw. subst w0.
  assert ((getPathToAuth sys w).1 = (p, u, err)) as Hpath1 by (rewrite Hpath; reflexivity).
  destruct err as [err|]; [split; [apply touches_refl | reflexivity]|].
  destruct (legacyFormat p); [split; [apply touches_refl | reflexivity]|].
  destruct (os_MkdirAll_writes (filepath_Dir (path p)) (path p) P w) as [Hmk Hmkf].
  destruct (os_MkdirAll (filepath_Dir (path p)) w) as [merr w1]. simpl in Hmk, Hmkf.
  destruct merr as [merr|].
  { split; [eapply writes_touches; eassumption | intros; exact Hmkf]. }
  pose proof (parse_world p w1) as Hw.
  destruct (parse p w1) as [[d|perr] w0]; simpl in Hw; subst w0.
  2: { split; [eapply writes_touches; eassumption | intros; exact Hmkf]. }
  pose proof (Heditor d l w1) as Hed.
  destruct (editor d l w1) as [[[d' [[updated description] eerr]] l'] w2].
  simpl in Hed.
  assert (writes (path p) P w w2) as Hw2
      by (eapply writes_trans; [exact Hmk | apply reads_writes, Hed]).
  assert (files w2 = files w) as Hf2
      by (destruct Hed as (Hf & _); rewrite Hf; exact Hmkf).
  destruct eerr as [eerr|].
  { split; [eapply writes_touches; eassumption | intros; exact Hf2]. }
  destruct updated.
  2: { split; [eapply writes_touches; eassumption | intros; exact Hf2]. }
  destruct (json_MarshalIndent d') as [newData|jerr].
  2: { split; [eapply writes_touches; eassumption | intros; exact Hf2]. }
  destruct (ioutils_AtomicWriteFile_writes (path p) newData P w2) as [Hwr Hwrf].
  destruct (ioutils_AtomicWriteFile (path p) newData w2) as [werr w3].
  simpl in Hwr, Hwrf.
  assert (writes (path p) P w w3) as Hw3 by (eapply writes_trans; eassumption).
  destruct werr as [werr|]; simpl.
  - split; [eapply writes_touches; eassumption|].
    intros _ _. rewrite Hwrf by eauto. exact Hf2.
  - split; [eapply writes_touches; eassumption | discriminate].
Qed.

Lemma setAuthToCredHelper_reads (credHelper key username password : string) w :
  reads (is_Store key username password) w
    (setAuthToCredHelper credHelper key username password w).2.
Proof.
  unfold setAuthToCredHelper. munfold.
  match goal with
  | |- context [call_helper ?c ?run w] =>
      pose proof (call_helper_reads c run (is_Store key username password) w) as Hcall;
      destruct (call_helper c run w) as [err w1]
  end.
  simpl in Hcall.
  assert (reads (is_Store key username password) w w1) as Hr
      by (apply Hcall; eexists; reflexivity).
  destruct err; exact Hr.
Qed.

Lemma SetCredentials_editor_reads (key username password : string)
    (isNamespaced : bool) (d : dockerConfigFile) (l : unit) w :
  reads (is_Store key username password) w
    (SetCredentials_editor key username password isNamespaced d l w).2
  ∧ (isNamespaced = true →
     calls (SetCredentials_editor key username password isNamespaced d l w).2
     = calls w).
Proof.
  unfold SetCredentials_editor. munfold.
  destruct (gomap_lookup (CredHelpers d) key) as [ch|];
    [|split; [apply reads_refl | reflexivity]].
  destruct isNamespaced; [split; [apply reads_refl | reflexivity]|].
  pose proof (setAuthToCredHelper_reads ch key username password w) as Hr.
  destruct (setAuthToCredHelper ch key username password w) as [[desc|err] w1];
    (split; [exact Hr | discriminate]).
Qed.

(** modifyJSON sends the commands of its editor and no other. *)
Lemma modifyJSON_calls {L : Type} sys
    (editor : dockerConfigFile → L →
              M (dockerConfigFile * (bool * string * option error) * L))
    (l : L) w :
  (∀ d l0 w0, calls (editor d l0 w0).2 = calls w0) →
  calls (modifyJSON sys editor l w).2 = calls w.
Proof.
  intros Heditor. unfold modifyJSON, os_MkdirAll, ioutils_AtomicWriteFile. munfold.
  pose proof (getPathToAuth_world sys w) as Hw.
  destruct (getPathToAuth sys w) as [[[p u] err] w0]. simpl in Hw. subst w0.
  destruct err; [reflexivity|].
  destruct (legacyFormat p); [reflexivity|].
  destruct (bool_decide (filepath_Dir (path p) ∈ mkdir_denied w)); [reflexivity|].
  match goal with
  | |- context [parse p ?w1] =>
      pose proof (parse_world p w1) as Hw;
      destruct (parse p w1) as [[d|perr] w0]; simpl in Hw; subst w0;
      [pose proof (Heditor d l w1) as Hed;
       destruct (editor d l w1) as [[[d' [[updated description] eerr]] l'] w2]
      |reflexivity]
  end.
  simpl in Hed. destruct eerr; [exact Hed|].
  destruct updated; [|exact Hed].
  destruct (json_MarshalIndent d'); [|exact Hed].
  destruct (bool_decide (path p ∈ write_denied w2)); exact Hed.
Qed.

(** A namespaced key: modifyJSON with the editor of SetCredentials sends
    no command. *)
Lemma modifyJSON_SetCredentials_namespaced sys (key username password : string) w :
  calls (modifyJSON sys (SetCredentials_editor key username password true) () w).2
  = calls w.
Proof.
  apply modifyJSON_calls. intros d l0 w0.
  apply SetCredentials_editor_reads. reflexivity.
Qed.

Lemma SetCredentials_loop_touches sys (key username password : string)
    (isNamespaced : bool) (helpers : list string) :
  ∀ (multiErr : option error) w,
    let run := SetCredentials_loop sys key username password isNamespaced
                 helpers multiErr w in
    touches sys (is_Store key username password) w run.2
    ∧ (∀ e, run.1 = Err e → files run.2 = files w)
    ∧ (isNamespaced = true → calls run.2 = calls w).
Proof.
  induction helpers as [|helper helpers IH]; intros multiErr w; simpl.
  { destruct multiErr; (split; [apply touches_refl | split; reflexivity]). }
  munfold.
  destruct (decide (helper = AuthenticationFileHelper)).
  - destruct (modifyJSON_touches sys
                (SetCredentials_editor key username password isNamespaced) ()
                (is_Store key username password) w) as [Ht Hf].
    { intros d l0 w0. apply SetCredentials_editor_reads. }
    assert (isNamespaced = true →
            calls (modifyJSON sys
                     (SetCredentials_editor key username password isNamespaced) () w).2
            = calls w) as Hns
        by (intros ->; apply modifyJSON_SetCredentials_namespaced).
    destruct (modifyJSON sys (SetCredentials_editor key username password isNamespaced)
                () w) as [[r l'] w1].
    simpl in Ht, Hf, Hns. destruct r as [desc|err]; simpl.
    + split; [exact Ht|]. split; [discriminate | exact Hns].
    + destruct (IH (multierror_Append multiErr err) w1) as (Ht' & Hf' & Hns').
      split; [eapply touches_trans; eassumption|].
      split; [intros e0 He0; rewrite (Hf' e0 He0); apply (Hf err); reflexivity|].
      intros Hn. rewrite (Hns' Hn). apply Hns, Hn.
  - destruct isNamespaced.
    + destruct (IH (multierror_Append multiErr (unsupportedNamespaceErr helper)) w)
        as (Ht' & Hf' & Hns').
      split; [exact Ht'|]. split; [exact Hf' | exact Hns'].
    + pose proof (setAuthToCredHelper_reads helper key username password w) as Hr.
      destruct (setAuthToCredHelper helper key username password w) as [[desc|err] w1];
        simpl in Hr.
      * split; [apply reads_touches, Hr|]. split; discriminate.
      * destruct (IH (multierror_Append multiErr err) w1) as (Ht' & Hf' & Hns').
        split; [eapply touches_trans; [apply reads_touches, Hr | exact Ht']|].
        split; [|discriminate].
        intros e0 He0. rewrite (Hf' e0 He0). apply Hr.
Qed.

(** X7. What SetCredentials can change. No auth file other than the
    primary one is written and none is removed; the only commands to
    helper programs are store commands, for the key and the user name and
    password given. A SetCredentials that returns an error has changed no
    file, and one for a namespaced key has sent no command at all. *)
Theorem SetCredentials_writes sys (key username password : string) w :
  let run := SetCredentials sys key username password w in
  writes (path (getPathToAuth sys w).1.1.1) (is_Store key username password) w run.2
  ∧ (∀ e, run.1 = Err e → files run.2 = files w)
  ∧ (validateKey key = Ok true → calls run.2 = calls w).
Proof.
  unfold SetCredentials.
  destruct (validateKey key) as [isNamespaced|e];
    [|split; [apply writes_refl | split; reflexivity]].
  destruct (CredentialHelpers sys) as [helpers|e];
    [|split; [apply writes_refl | split; reflexivity]].
  destruct (SetCredentials_loop_touches sys key username password isNamespaced
              helpers None w) as ([Hw _] & Hf & Hns).
  split; [exact Hw|]. split; [exact Hf|].
  intros [= ->]. apply Hns. reflexivity.
Qed.

(** *** Removing *)

Lemma deleteAuthFromCredHelper_reads (helper registry : string) w :
  reads (is_Erase registry) w (deleteAuthFromCredHelper helper registry w).2.
Proof.
  unfold deleteAuthFromCredHelper. apply call_helper_reads. eexists; reflexivity.
Qed.

Lemma removeFromCredHelper_reads (key : string) (isNamespaced : bool)
    (helper : string) (l : removal) w :
  reads (is_Erase key) w (removeFromCredHelper key isNamespaced helper l w).2
  ∧ (isNamespaced = true →
     calls (removeFromCredHelper key isNamespaced helper l w).2 = calls w).
Proof.
  unfold removeFromCredHelper. munfold. destruct l as [multiErr isLoggedIn].
  destruct isNamespaced; [split; [apply reads_refl | reflexivity]|].
  pose proof (deleteAuthFromCredHelper_reads helper key w) as Hr.
  destruct (deleteAuthFromCredHelper helper key w) as [[err|] w1]; simpl in Hr;
    [destruct (IsErrCredentialsNotFound err)|]; (split; [exact Hr | discriminate]).
Qed.

Lemma RemoveAuthentication_editor_reads (key : string) (isNamespaced : bool)
    (d : dockerConfigFile) (l : removal) w :
  reads (is_Erase key) w (RemoveAuthentication_editor key isNamespaced d l w).2
  ∧ (isNamespaced = true →
     calls (RemoveAuthentication_editor key isNamespaced d l w).2 = calls w).
Proof.
  unfold RemoveAuthentication_editor. munfold.
  destruct (gomap_lookup (CredHelpers d) key) as [inner|].
  - destruct (removeFromCredHelper_reads key isNamespaced inner l w) as [Hr Hns].
    destruct (removeFromCredHelper key isNamespaced inner l w)
      as [[multiErr isLoggedIn] w1].
    simpl in Hr, Hns.
    destruct (gomap_lookup (AuthConfigs d) key); (split; [exact Hr | exact Hns]).
  - destruct l as [multiErr isLoggedIn].
    destruct (gomap_lookup (AuthConfigs d) key);
      (split; [apply reads_refl | reflexivity]).
Qed.

Lemma RemoveAuthentication_step_touches sys (key : string) (isNamespaced : bool)
    (helper : string) (l : removal) w :
  touches sys (is_Erase key) w
    (RemoveAuthentication_step sys key isNamespaced helper l w).2
  ∧ (isNamespaced = true →
     calls (RemoveAuthentication_step sys key isNamespaced helper l w).2 = calls w).
Proof.
  unfold RemoveAuthentication_step. munfold.
  destruct (decide (helper = AuthenticationFileHelper)).
  - destruct (modifyJSON_touches sys (RemoveAuthentication_editor key isNamespaced) l
                (is_Erase key) w) as [Ht _].
    { intros d l0 w0. apply RemoveAuthentication_editor_reads. }
    assert (isNamespaced = true →
            calls (modifyJSON sys (RemoveAuthentication_editor key isNamespaced) l w).2
            = calls w) as Hns.
    { intros Hn. apply modifyJSON_calls. intros d l0 w0.
      apply RemoveAuthentication_editor_reads, Hn. }
    destruct (modifyJSON sys (RemoveAuthentication_editor key isNamespaced) l w)
      as [[r [multiErr isLoggedIn]] w1].
    simpl in Ht, Hns. destruct r; (split; [exact Ht | exact Hns]).
  - destruct (removeFromCredHelper_reads key isNamespaced helper l w) as [Hr Hns].
    split; [apply reads_touches, Hr | exact Hns].
Qed.

Lemma RemoveAuthentication_loop_touches sys (key : string) (isNamespaced : bool)
    (helpers : list string) :
  ∀ (l : removal) w,
    touches sys (is_Erase key) w
      (RemoveAuthentication_loop sys key isNamespaced helpers l w).2
    ∧ (isNamespaced = true →
       calls (RemoveAuthentication_loop sys key isNamespaced helpers l w).2 = calls w).
Proof.
  induction helpers as [|helper helpers IH]; intros l w; simpl.
  { split; [apply touches_refl | reflexivity]. }
  munfold.
  destruct (RemoveAuthentication_step_touches sys key isNamespaced helper l w)
    as [Ht Hns].
  destruct (RemoveAuthentication_step sys key isNamespaced helper l w) as [l1 w1].
  simpl in Ht, Hns. destruct (IH l1 w1) as [Ht' Hns'].
  split; [eapply touches_trans; eassumption|].
  intros Hn. rewrite (Hns' Hn). apply Hns, Hn.
Qed.

(** X8. What RemoveAuthentication can change. No auth file other than the
    primary one is written and none is removed, whatever files a lookup
    would read the entry from; the only commands to helper programs are
    erase commands for the key itself. For a namespaced key no command is
    sent at all. *)
Theorem RemoveAuthentication_writes sys (key : string) w :
  let run := RemoveAuthentication sys key w in
  writes (path (getPathToAuth sys w).1.1.1) (is_Erase key) w run.2
  ∧ (validateKey key = Ok true → calls run.2 = calls w).
Proof.
  unfold RemoveAuthentication. munfold.
  destruct (validateKey key) as [isNamespaced|e];
    [|split; [apply writes_refl | reflexivity]].
  destruct (CredentialHelpers sys) as [helpers|e];
    [|split; [apply writes_refl | reflexivity]].
  destruct (RemoveAuthentication_loop_touches sys key isNamespaced helpers
              (None, false) w) as [[Hw _] Hns].
  destruct (RemoveAuthentication_loop sys key isNamespaced helpers (None, false) w)
    as [[multiErr isLoggedIn] w1].
  simpl in Hw, Hns.
  destruct multiErr; [|destruct (negb isLoggedIn)];
    (split; [exact Hw | intros [= ->]; apply Hns; reflexivity]).
Qed.

(** *** Removing everything *)

(** The document that RemoveAllAuthentication writes. *)
Definition no_entries : dockerConfigFile :=
  {| AuthConfigs := Some ∅; CredHelpers := Some ∅ |}.

Lemma listAuthsFromCredHelper_reads (credHelper : string) P w :
  reads P w (listAuthsFromCredHelper credHelper w).2.
Proof.
  unfold listAuthsFromCredHelper.
  destruct (helperclient_List (helperName credHelper) (helpers w)) as [r h]. simpl.
  repeat split. exists []. split; [symmetry; apply app_nil_r | constructor].
Qed.

Lemma is_Erase_any (registry : string) (c : helper_call) :
  is_Erase registry c → is_any_Erase c.
Proof. intros [program ->]. eexists _, _. reflexivity. Qed.

Lemma reads_calls_elem P w w' (c : helper_call) :
  reads P w w' → c ∈ calls w → c ∈ calls w'.
Proof.
  intros (_ & _ & _ & _ & more & Hc & _) Hin. rewrite Hc.
  apply elem_of_app. left; exact Hin.
Qed.

Lemma deleteAuthFromCredHelper_called (helper registry : string) w :
  call_Erase (helperName helper) registry
  ∈ calls (deleteAuthFromCredHelper helper registry w).2.
Proof.
  unfold deleteAuthFromCredHelper, call_helper.
  destruct (helperclient_Erase _ _ _) as [err h]. simpl.
  apply elem_of_app. right. left.
Qed.

Lemma erase_credHelpers_reads (entries : list (string * string)) :
  ∀ w, reads is_any_Erase w (erase_credHelpers entries w).2
       ∧ ((erase_credHelpers entries w).1 = None →
          ∀ registry helper, (registry, helper) ∈ entries →
            call_Erase (helperName helper) registry
            ∈ calls (erase_credHelpers entries w).2).
Proof.
  induction entries as [|[registry helper] entries IH]; intros w; simpl.
  { split; [apply reads_refl|]. intros _ r h Hin. apply elem_of_nil in Hin. contradiction. }
  munfold.
  pose proof (deleteAuthFromCredHelper_reads helper registry w) as Hr.
  pose proof (deleteAuthFromCredHelper_called helper registry w) as Hcalled.
  apply (reads_weaken _ is_any_Erase) in Hr; [|apply is_Erase_any].
  destruct (deleteAuthFromCredHelper helper registry w) as [[err|] w1];
    simpl in Hr, Hcalled.
  { split; [exact Hr | discriminate]. }
  destruct (IH w1) as [Hr' Hall].
  split; [eapply reads_trans; eassumption|].
  intros Hnone r h Hin. apply elem_of_cons in Hin as [[= -> ->]|Hin].
  - eapply reads_calls_elem; eassumption.
  - apply Hall; assumption.
Qed.

Lemma erase_listed_reads (helper : string) (registries : list string) :
  ∀ w, reads is_any_Erase w (erase_listed helper registries w).2.
Proof.
  induction registries as [|registry registries IH]; intros w; simpl.
  { apply reads_refl. }
  munfold.
  pose proof (deleteAuthFromCredHelper_reads helper registry w) as Hr.
  apply (reads_weaken _ is_any_Erase) in Hr; [|apply is_Erase_any].
  destruct (deleteAuthFromCredHelper helper registry w) as [[err|] w1]; simpl in Hr;
    [exact Hr|].
  eapply reads_trans; [exact Hr | apply IH].
Qed.

Lemma RemoveAllAuthentication_editor_reads (d : dockerConfigFile) (l : unit) w :
  reads is_any_Erase w (RemoveAllAuthentication_editor d l w).2.
Proof.
  unfold RemoveAllAuthentication_editor. munfold.
  destruct (erase_credHelpers_reads (range_strings (default ∅ (CredHelpers d))) w)
    as [Hr _].
  destruct (erase_credHelpers _ w) as [[err|] w1]; exact Hr.
Qed.

Lemma range_strings_elem (m : gomap string) (registry helper : string) :
  gomap_lookup m registry = Some helper →
  (registry, helper) ∈ range_strings (default ∅ m).
Proof.
  intros Hlookup. rewrite (range_strings_perm (default ∅ m)).
  apply elem_of_map_to_list. destruct m as [g|]; [exact Hlookup | discriminate].
Qed.

(** What modifyJSON does with the editor of RemoveAllAuthentication: it
    fails and leaves the files as they are, or it has erased every entry
    of credHelpers in its helper and has written the document without
    entries. *)
Lemma modifyJSON_RemoveAllAuthentication sys w (p : authPath) (u : bool)
    (raw : string) :
  (getPathToAuth sys w).1 = (p, u, None) →
  json_MarshalIndent no_entries = Ok raw →
  let run := modifyJSON sys RemoveAllAuthentication_editor () w in
  match run.1.1 with
  | Err _ => files run.2 = files w
  | Ok _ =>
      legacyFormat p = false
      ∧ files run.2 = <[path p := RegularFile raw]> (files w)
      ∧ ∀ d, (parse p w).1 = Ok d →
             ∀ registry helper,
               gomap_lookup (CredHelpers d) registry = Some helper →
               call_Erase (helperName helper) registry ∈ calls run.2
  end.
Proof.
  intros Hpath Hraw. unfold modifyJSON. munfold.
  pose proof (getPathToAuth_world sys w) as Hw.
  destruct (getPathToAuth sys w) as [[[p' u'] err] w0].
  simpl in Hpath, Hw. injection Hpath as -> -> ->. subst w0.
  destruct (legacyFormat p) eqn:Hlegacy; [reflexivity|].
  destruct (os_MkdirAll_writes (filepath_Dir (path p)) (path p) is_any_Erase w)
    as [_ Hmkf].
  destruct (os_MkdirAll (filepath_Dir (path p)) w) as [merr w1]. simpl in Hmkf.
  destruct merr; [exact Hmkf|].
  pose proof (parse_world p w1) as Hw.
  pose proof (parse_same_file p w1 w) as Hsame.
  destruct (parse p w1) as [[d|perr] w0]; simpl in Hw, Hsame; subst w0;
    [|exact Hmkf].
  unfold RemoveAllAuthentication_editor. munfold.
  destruct (erase_credHelpers_reads (range_strings (default ∅ (CredHelpers d))) w1)
    as [Hr Hall].
  destruct (erase_credHelpers _ w1) as [[eerr|] w2]; simpl in Hr, Hall.
  { simpl. destruct Hr as (Hf & _). rewrite Hf. exact Hmkf. }
  fold no_entries. rewrite Hraw.
  unfold ioutils_AtomicWriteFile.
  destruct (bool_decide (path p ∈ write_denied w2)); simpl.
  { destruct Hr as (Hf & _). rewrite Hf. exact Hmkf. }
  split; [reflexivity|]. split.
  { destruct Hr as (Hf & _). rewrite Hf, Hmkf. reflexivity. }
  intros d' Hd registry helper Hlookup.
  rewrite <- Hsame in Hd by (rewrite Hmkf; reflexivity).
  injection Hd as <-. apply Hall; [reflexivity|].
  apply range_strings_elem, Hlookup.
Qed.

Lemma RemoveAllAuthentication_step_touches sys (helper : string)
    (multiErr : option error) w :
  touches sys is_any_Erase w (RemoveAllAuthentication_step sys helper multiErr w).2
  ∧ ((RemoveAllAuthentication_step sys helper multiErr w).1 = None → multiErr = None).
Proof.
  unfold RemoveAllAuthentication_step. munfold.
  destruct (decide (helper = AuthenticationFileHelper)).
  - destruct (modifyJSON_touches sys RemoveAllAuthentication_editor () is_any_Erase w)
      as [Ht _].
    { intros d l0 w0. apply RemoveAllAuthentication_editor_reads. }
    destruct (modifyJSON sys RemoveAllAuthentication_editor () w) as [[r l'] w1].
    simpl in Ht. destruct r; (split; [exact Ht|]); [auto | discriminate].
  - pose proof (listAuthsFromCredHelper_reads helper is_any_Erase w) as Hr.
    destruct (listAuthsFromCredHelper helper w) as [[creds|err] w1]; simpl in Hr.
    + pose proof (erase_listed_reads helper (range_strings creds).*1 w1) as Hr'.
      destruct (erase_listed helper (range_strings creds).*1 w1) as [[err|] w2];
        simpl in Hr';
        (split; [apply reads_touches; eapply reads_trans; eassumption|]);
        [discriminate | auto].
    + destruct (is_exec_ErrNotFound err);
        (split; [apply reads_touches, Hr|]); [auto | discriminate].
Qed.

Lemma RemoveAllAuthentication_loop_touches sys (helpers : list string) :
  ∀ (multiErr : option error) w,
    touches sys is_any_Erase w (RemoveAllAuthentication_loop sys helpers multiErr w).2
    ∧ ((RemoveAllAuthentication_loop sys helpers multiErr w).1 = None →
       multiErr = None).
Proof.
  induction helpers as [|helper helpers IH]; intros multiErr w; simpl.
  { split; [apply touches_refl | auto]. }
  munfold.
  destruct (RemoveAllAuthentication_step_touches sys helper multiErr w) as [Ht Hnone].
  destruct (RemoveAllAuthentication_step sys helper multiErr w) as [multiErr1 w1].
  simpl in Ht, Hnone. destruct (IH multiErr1 w1) as [Ht' Hnone'].
  split; [eapply touches_trans; eassumption | auto].
Qed.

(** Once the primary file holds the document without entries, the loop
    of RemoveAllAuthentication leaves it so. *)
Lemma RemoveAllAuthentication_loop_kept sys (helpers : list string)
    (p : authPath) (u : bool) (raw : string) :
  json_MarshalIndent no_entries = Ok raw →
  ∀ (multiErr : option error) w,
    (getPathToAuth sys w).1 = (p, u, None) →
    files w !! path p = Some (RegularFile raw) →
    files (RemoveAllAuthentication_loop sys helpers multiErr w).2 !! path p
    = Some (RegularFile raw).
Proof.
  intros Hraw.
  induction helpers as [|helper helpers IH]; intros multiErr w Hpath Hfile; simpl;
    [exact Hfile|].
  munfold.
  destruct (RemoveAllAuthentication_step_touches sys helper multiErr w) as [[_ Hp] _].
  assert (files (RemoveAllAuthentication_step sys helper multiErr w).2 !! path p
          = Some (RegularFile raw)) as Hfile1.
  { unfold RemoveAllAuthentication_step. munfold.
    destruct (decide (helper = AuthenticationFileHelper)).
    - pose proof (modifyJSON_RemoveAllAuthentication sys w p u raw Hpath Hraw) as Hm.
      destruct (modifyJSON sys RemoveAllAuthentication_editor () w) as [[r l'] w1].
      simpl in Hm. destruct r; simpl.
      + destruct Hm as (_ & -> & _). apply lookup_insert_eq.
      + rewrite Hm. exact Hfile.
    - pose proof (listAuthsFromCredHelper_reads helper is_any_Erase w) as Hr.
      destruct (listAuthsFromCredHelper helper w) as [[creds|err] w1]; simpl in Hr.
      + pose proof (erase_listed_reads helper (range_strings creds).*1 w1) as Hr'.
        destruct (erase_listed helper (range_strings creds).*1 w1) as [[err|] w2];
          simpl in Hr'; simpl;
          destruct Hr as (Hf & _), Hr' as (Hf' & _); rewrite Hf', Hf; exact Hfile.
      + destruct Hr as (Hf & _).
        destruct (is_exec_ErrNotFound err); simpl; rewrite Hf; exact Hfile. }
  destruct (RemoveAllAuthentication_step sys helper multiErr w) as [multiErr1 w1].
  simpl in Hp, Hfile1. apply IH; [rewrite Hp; exact Hpath | exact Hfile1].
Qed.

(** X9. What RemoveAllAuthentication can change: no auth file other than
    the primary one is written and none is removed, and the only commands
    to helper programs are erase commands. With the auth file helper
    alone, a failure leaves every file as it was: when an erase in a
    helper that credHelpers names fails, the entries of the file
    stay. *)
Theorem RemoveAllAuthentication_writes sys w :
  let run := RemoveAllAuthentication sys w in
  writes (path (getPathToAuth sys w).1.1.1) is_any_Erase w run.2
  ∧ (CredentialHelpers sys = Ok [AuthenticationFileHelper] →
     is_Some run.1 → files run.2 = files w).
Proof.
  unfold RemoveAllAuthentication.
  destruct (CredentialHelpers sys) as [helpers|e];
    [|split; [apply writes_refl | reflexivity]].
  destruct (RemoveAllAuthentication_loop_touches sys helpers None w) as [[Hw _] _].
  split; [exact Hw|].
  intros [= ->]. simpl. unfold RemoveAllAuthentication_step. munfold.
  destruct (decide (AuthenticationFileHelper = AuthenticationFileHelper));
    [|contradiction].
  destruct (modifyJSON_touches sys RemoveAllAuthentication_editor () is_any_Erase w)
    as [_ Hf].
  { intros d l0 w0. apply RemoveAllAuthentication_editor_reads. }
  destruct (modifyJSON sys RemoveAllAuthentication_editor () w) as [[r l'] w1].
  simpl in Hf. destruct r as [desc|err]; simpl.
  - intros [? [=]].
  - intros _. apply (Hf err). reflexivity.
Qed.

(** X10. After a RemoveAllAuthentication that returns no error, with the
    auth file helper first in the list, the primary auth file holds no
    entry: it parses to a document whose auths and credHelpers are both
    empty. Every entry that credHelpers had was erased in the helper it
    named. *)
Theorem RemoveAllAuthentication_success sys (helpers : list string) w w'
    (p : authPath) (u : bool) (d : dockerConfigFile) :
  JsonSpec json →
  CredentialHelpers sys = Ok (AuthenticationFileHelper :: helpers) →
  (getPathToAuth sys w).1 = (p, u, None) →
  (parse p w).1 = Ok d →
  RemoveAllAuthentication sys w = (None, w') →
  parse p w' = (Ok no_entries, w')
  ∧ ∀ registry helper,
      gomap_lookup (CredHelpers d) registry = Some helper →
      call_Erase (helperName helper) registry ∈ calls w'.
Proof.
  intros Hjson Hhelpers Hpath Hparse Hrun.
  destruct (json_marshal_total _ Hjson no_entries) as [raw Hraw].
  unfold RemoveAllAuthentication in Hrun. rewrite Hhelpers in Hrun.
  simpl in Hrun. munfold.
  destruct (RemoveAllAuthentication_step_touches sys AuthenticationFileHelper None w)
    as [[_ Hp] _].
  assert (∃ desc l', modifyJSON sys RemoveAllAuthentication_editor () w
                     = ((Ok desc, l'), (RemoveAllAuthentication_step sys
                                          AuthenticationFileHelper None w).2)
                     ∧ (RemoveAllAuthentication_step sys
                          AuthenticationFileHelper None w).1 = None)
    as (desc & l' & Hm & Hstep).
  { destruct (RemoveAllAuthentication_loop_touches sys helpers
                (RemoveAllAuthentication_step sys AuthenticationFileHelper None w).1
                (RemoveAllAuthentication_step sys AuthenticationFileHelper None w).2)
      as [_ Hnone].
    destruct (RemoveAllAuthentication_step sys AuthenticationFileHelper None w)
      as [multiErr1 w1] eqn:Hs.
    simpl in Hnone. rewrite Hrun in Hnone. specialize (Hnone eq_refl). subst multiErr1.
    unfold RemoveAllAuthentication_step in Hs. munfold.
    destruct (decide (AuthenticationFileHelper = AuthenticationFileHelper));
      [|contradiction].
    destruct (modifyJSON sys RemoveAllAuthentication_editor () w) as [[r l'] w2].
    destruct r as [desc|err]; [|discriminate].
    injection Hs as <-. eexists _, _. split; reflexivity. }
  pose proof (modifyJSON_RemoveAllAuthentication sys w p u raw Hpath Hraw) as Hspec.
  simpl in Hspec. rewrite Hm in Hspec. simpl in Hspec.
  destruct Hspec as (Hmodern & Hfiles & Hcalls).
  destruct (RemoveAllAuthentication_step sys AuthenticationFileHelper None w)
    as [multiErr1 w1].
  simpl in Hp, Hm, Hstep, Hfiles, Hcalls. subst multiErr1.
  assert (files w' !! path p = Some (RegularFile raw)) as Hfile.
  { replace w' with (RemoveAllAuthentication_loop sys helpers None w1).2
      by (rewrite Hrun; reflexivity).
    apply (RemoveAllAuthentication_loop_kept sys helpers p u raw Hraw);
      [rewrite Hp; exact Hpath | rewrite Hfiles; apply lookup_insert_eq]. }
  split.
  - apply parse_eq.
    rewrite (parse_modern_file p w' raw (json_reload no_entries) Hfile Hmodern).
    + unfold json_reload, no_entries. simpl.
      destruct (decide (∅ = ∅)); [reflexivity | contradiction].
    + apply (json_roundtrip _ Hjson); [|exact Hraw].
      split; intros k v Hkv; simpl in Hkv; rewrite lookup_empty in Hkv;
        discriminate.
  - intros registry helper Hlookup.
    destruct (RemoveAllAuthentication_loop_touches sys helpers None w1)
      as [[(_ & _ & _ & _ & _ & more & Hc & _) _] _].
    rewrite Hrun in Hc. simpl in Hc. rewrite Hc. apply elem_of_app. left.
    eapply Hcalls; eassumption.
Qed.

(** *** Listing *)

(** The document [d] of a file makes GetAllCredentials list [key]: it is
    a key of credHelpers, or the listed form of a key of auths. *)
Definition lists (d : dockerConfigFile) (legacy : bool) (key : string) : Prop :=
  is_Some (gomap_lookup (CredHelpers d) key)
  ∨ ∃ k, is_Some (gomap_lookup (AuthConfigs d) k) ∧ listed_key k legacy = key.

Lemma foldl_add_keys {A : Type} (f : A → string) (entries : list A) :
  ∀ (keys : gset string) (key : string),
    key ∈ foldl (λ keys entry, {[ f entry ]} ∪ keys) keys entries
    ↔ key ∈ keys ∨ ∃ entry, entry ∈ entries ∧ f entry = key.
Proof.
  induction entries as [|entry entries IH]; intros keys key; simpl.
  - split; [auto | intros [?|(? & Hin & _)]; [assumption|]].
    apply elem_of_nil in Hin. contradiction.
  - rewrite IH, elem_of_union, elem_of_singleton. split.
    + intros [[->|?]|(entry' & Hin & Hf)]; [right | left | right].
      * exists entry. split; [left | reflexivity].
      * assumption.
      * exists entry'. split; [right; exact Hin | exact Hf].
    + intros [?|(entry' & Hin & Hf)]; [left; right; assumption|].
      apply elem_of_cons in Hin as [->|Hin]; [left; left; symmetry; exact Hf|].
      right. exists entry'. split; assumption.
Qed.

Lemma go_range_elem (m : gomap dockerAuthConfig) (k : string) (v : dockerAuthConfig) :
  gomap_lookup m k = Some v → (k, v) ∈ go_range (default ∅ m).
Proof.
  intros Hlookup. rewrite (go_range_perm (default ∅ m)).
  apply elem_of_map_to_list. destruct m as [g|]; [exact Hlookup | discriminate].
Qed.

Lemma add_file_keys_spec (d : dockerConfigFile) (legacy : bool)
    (allKeys : gset string) (key : string) :
  key ∈ allKeys ∨ lists d legacy key → key ∈ add_file_keys d legacy allKeys.
Proof.
  unfold add_file_keys. rewrite !foldl_add_keys.
  intros [Hin|[[helper Hch]|(k & [v Hk] & Hlisted)]].
  - left; left; exact Hin.
  - left; right. exists (key, helper). split; [|reflexivity].
    apply range_strings_elem, Hch.
  - right. exists (k, v). split; [|exact Hlisted]. apply go_range_elem, Hk.
Qed.

Lemma collect_file_keys_spec (paths : list authPath) :
  ∀ (allKeys : gset string) w,
    (collect_file_keys paths allKeys w).2 = w
    ∧ ∀ keys, (collect_file_keys paths allKeys w).1 = Ok keys →
        allKeys ⊆ keys
        ∧ ∀ p d key, p ∈ paths → (parse p w).1 = Ok d →
                     lists d (legacyFormat p) key → key ∈ keys.
Proof.
  induction paths as [|p paths IH]; intros allKeys w; simpl.
  { split; [reflexivity|]. intros keys [= <-]. split; [reflexivity|].
    intros p d key Hin. apply elem_of_nil in Hin. contradiction. }
  munfold.
  pose proof (parse_world p w) as Hw.
  destruct (parse p w) as [[d|err] w0] eqn:Hparse; simpl in Hw; subst w0.
  2: { split; [reflexivity | discriminate]. }
  destruct (IH (add_file_keys d (legacyFormat p) allKeys) w) as [Hworld Hkeys].
  split; [exact Hworld|].
  intros keys Hok. destruct (Hkeys keys Hok) as [Hsub Hall].
  split.
  - intros key Hin. apply Hsub, add_file_keys_spec. left; exact Hin.
  - intros p' d' key Hin Hparse' Hlists.
    apply elem_of_cons in Hin as [->|Hin]; [|eapply Hall; eassumption].
    rewrite Hparse in Hparse'. injection Hparse' as <-.
    apply Hsub, add_file_keys_spec. right; exact Hlists.
Qed.

Lemma getAuthFilePaths_same sys (homeDir : string) w w' :
  files w' = files w → dirs w' = dirs w →
  (getAuthFilePaths sys homeDir w').1 = (getAuthFilePaths sys homeDir w).1.
Proof.
  intros Hf Hd. unfold getAuthFilePaths. munfold.
  pose proof (getPathToAuth_same sys w w' Hf Hd) as Hsame.
  destruct (getPathToAuth sys w') as [[[p' u'] err'] w0'].
  destruct (getPathToAuth sys w) as [[[p u] err] w0].
  simpl in Hsame. injection Hsame as -> -> ->.
  repeat case_match; reflexivity.
Qed.

Lemma collect_keys_spec sys (helpers : list string) :
  ∀ (allKeys : gset string) w,
    reads (λ _, False) w (collect_keys sys helpers allKeys w).2
    ∧ ∀ keys, (collect_keys sys helpers allKeys w).1 = Ok keys →
        allKeys ⊆ keys
        ∧ (AuthenticationFileHelper ∈ helpers →
           ∀ p d key, p ∈ (getAuthFilePaths sys homedir_Get w).1 →
                      (parse p w).1 = Ok d →
                      lists d (legacyFormat p) key → key ∈ keys).
Proof.
  induction helpers as [|helper helpers IH]; intros allKeys w; simpl.
  { split; [apply reads_refl|]. intros keys [= <-]. split; [reflexivity|].
    intros Hin. apply elem_of_nil in Hin. contradiction. }
  munfold.
  destruct (decide (helper = AuthenticationFileHelper)) as [->|Hne].
  - pose proof (getAuthFilePaths_world sys homedir_Get w) as Hw.
    destruct (getAuthFilePaths sys homedir_Get w) as [paths w0]. simpl in Hw. subst w0.
    destruct (collect_file_keys_spec paths allKeys w) as [Hworld Hfile].
    destruct (collect_file_keys paths allKeys w) as [[keys1|err] w1];
      simpl in Hworld, Hfile; subst w1.
    2: { split; [apply reads_refl | discriminate]. }
    destruct (Hfile keys1 eq_refl) as [Hsub1 Hall1].
    destruct (IH keys1 w) as [Hr Hkeys]. split; [exact Hr|].
    intros keys Hok. destruct (Hkeys keys Hok) as [Hsub _].
    split; [etrans; eassumption|].
    intros _ p d key Hin Hparse Hlists. simpl in Hin.
    eapply Hsub, Hall1; eassumption.
  - pose proof (listAuthsFromCredHelper_reads helper (λ _, False) w) as Hlist.
    destruct (listAuthsFromCredHelper helper w) as [[creds|err] w1]; simpl in Hlist.
    + destruct (IH (foldl (λ keys entry, {[ entry.1 ]} ∪ keys) allKeys
                      (range_strings creds)) w1) as [Hr Hkeys].
      split; [eapply reads_trans; eassumption|].
      intros keys Hok. destruct (Hkeys keys Hok) as [Hsub Hall].
      split.
      * intros key Hin. apply Hsub, foldl_add_keys. left; exact Hin.
      * intros Hfile p d key Hin Hparse Hlists.
        apply elem_of_cons in Hfile as [?|Hfile]; [congruence|].
        destruct Hlist as (Hf & Hd & _).
        apply (Hall Hfile p d key); [| |exact Hlists].
        -- rewrite (getAuthFilePaths_same sys homedir_Get w w1 Hf Hd). exact Hin.
        -- rewrite <- Hparse. apply parse_same_file. rewrite Hf. reflexivity.
    + destruct (is_exec_ErrNotFound err).
      * destruct (IH allKeys w1) as [Hr Hkeys].
        split; [eapply reads_trans; eassumption|].
        intros keys Hok. destruct (Hkeys keys Hok) as [Hsub Hall].
        split; [exact Hsub|].
        intros Hfile p d key Hin Hparse Hlists.
        apply elem_of_cons in Hfile as [?|Hfile]; [congruence|].
        destruct Hlist as (Hf & Hd & _).
        apply (Hall Hfile p d key); [| |exact Hlists].
        -- rewrite (getAuthFilePaths_same sys homedir_Get w w1 Hf Hd). exact Hin.
        -- rewrite <- Hparse. apply parse_same_file. rewrite Hf. reflexivity.
      * split; [exact Hlist | discriminate].
Qed.

Lemma GetCredentials_Ok_valid sys (key : string) w (auth : types.DockerAuthConfig) :
  (GetCredentials sys key w).1 = Ok auth → ∃ isNamespaced, validateKey key = Ok isNamespaced.
Proof.
  unfold GetCredentials, getCredentialsWithHomeDir.
  destruct (validateKey key) as [isNamespaced|e]; [eauto | discriminate].
Qed.

Lemma is_Get_any (registry : string) (c : helper_call) :
  is_Get registry c → is_any_Get c.
Proof. intros [program ->]. eexists _, _. reflexivity. Qed.

Lemma get_each_spec sys (keys : list string) :
  ∀ (authConfigs : gmap string types.DockerAuthConfig) w,
    reads is_any_Get w (get_each sys keys authConfigs w).2
    ∧ (∀ result, (get_each sys keys authConfigs w).1 = Ok result →
         (∀ key, key ∈ keys → ∃ isNamespaced, validateKey key = Ok isNamespaced)
         ∧ ∀ key auth, result !! key = Some auth →
             authConfigs !! key = Some auth
             ∨ (key ∈ keys ∧ auth ≠ types.empty)).
Proof.
  induction keys as [|key keys IH]; intros authConfigs w; simpl.
  { split; [apply reads_refl|]. intros result [= <-].
    split; [|auto]. intros key Hin. apply elem_of_nil in Hin. contradiction. }
  munfold.
  pose proof (getCredentialsWithHomeDir_reads sys key homedir_Get w) as Hr.
  fold (GetCredentials sys key) in Hr.
  apply (reads_weaken _ is_any_Get) in Hr; [|apply is_Get_any].
  pose proof (GetCredentials_Ok_valid sys key w) as Hvalid.
  destruct (GetCredentials sys key w) as [[authConf|err] w1]; simpl in Hr, Hvalid.
  2: { split; [exact Hr | discriminate]. }
  destruct (Hvalid authConf eq_refl) as [isNamespaced Hkey].
  destruct (bool_decide (authConf = types.empty)) eqn:Hempty; simpl.
  - destruct (IH authConfigs w1) as [Hr' Hres].
    split; [eapply reads_trans; eassumption|].
    intros result Hok. destruct (Hres result Hok) as [Hkeys Hentries]. split.
    + intros key' Hin. apply elem_of_cons in Hin as [->|Hin]; eauto.
    + intros key' auth Hlookup.
      destruct (Hentries key' auth Hlookup) as [?|[Hin ?]]; [auto|].
      right. split; [right; exact Hin | assumption].
  - apply bool_decide_eq_false in Hempty.
    destruct (IH (<[key := authConf]> authConfigs) w1) as [Hr' Hres].
    split; [eapply reads_trans; eassumption|].
    intros result Hok. destruct (Hres result Hok) as [Hkeys Hentries]. split.
    + intros key' Hin. apply elem_of_cons in Hin as [->|Hin]; eauto.
    + intros key' auth Hlookup.
      destruct (Hentries key' auth Hlookup) as [Hins|[Hin ?]].
      * apply lookup_insert_Some in Hins as [[<- <-]|[_ ?]]; [|auto].
        right. split; [left | exact Hempty].
      * right. split; [right; exact Hin | assumption].
Qed.

(** X11. GetAllCredentials only reads: it changes no file and the only
    commands it sends to helper programs, the list commands apart, are
    get commands. A map that it returns has no empty credentials, and
    every key of it is a valid key. *)
Theorem GetAllCredentials_result sys w :
  let run := GetAllCredentials sys w in
  reads is_any_Get w run.2
  ∧ ∀ result, run.1 = Ok result →
      ∀ key auth, result !! key = Some auth →
        auth ≠ types.empty ∧ ∃ isNamespaced, validateKey key = Ok isNamespaced.
Proof.
  unfold GetAllCredentials. munfold.
  destruct (CredentialHelpers sys) as [helpers|e];
    [|split; [apply reads_refl | discriminate]].
  destruct (collect_keys_spec sys helpers ∅ w) as [Hr _].
  apply (reads_weaken _ is_any_Get) in Hr; [|contradiction].
  destruct (collect_keys sys helpers ∅ w) as [[allKeys|err] w1]; simpl in Hr;
    [|split; [exact Hr | discriminate]].
  destruct (get_each_spec sys (range_keys allKeys) ∅ w1) as [Hr' Hres].
  split; [eapply reads_trans; eassumption|].
  intros result Hok key auth Hlookup.
  destruct (Hres result Hok) as [Hkeys Hentries].
  destruct (Hentries key auth Hlookup) as [Hempty|[Hin Hne]].
  - rewrite lookup_empty in Hempty. discriminate.
  - split; [exact Hne | apply Hkeys, Hin].
Qed.

(** X12. One key that is not valid spoils the whole listing. When the
    auth file helper is among the helpers and one of the auth files
    parses to a document that lists a key which validateKey rejects (a
    credHelpers key, or an auths key in its listed form: with an '@',
    say), GetAllCredentials returns an error and no credentials at
    all. *)
Theorem GetAllCredentials_invalid_key sys (helpers : list string) w
    (p : authPath) (d : dockerConfigFile) (key : string) (e : error) :
  CredentialHelpers sys = Ok helpers →
  AuthenticationFileHelper ∈ helpers →
  p ∈ (getAuthFilePaths sys homedir_Get w).1 →
  (parse p w).1 = Ok d →
  lists d (legacyFormat p) key →
  validateKey key = Err e →
  ∃ e', (GetAllCredentials sys w).1 = Err e'.
Proof.
  intros Hhelpers Hfile Hin Hparse Hlists Hinvalid.
  unfold GetAllCredentials. munfold. rewrite Hhelpers.
  destruct (collect_keys_spec sys helpers ∅ w) as [_ Hkeys].
  destruct (collect_keys sys helpers ∅ w) as [[allKeys|err] w1]; simpl in Hkeys;
    [|eauto].
  destruct (Hkeys allKeys eq_refl) as [_ Hall].
  pose proof (Hall Hfile p d key Hin Hparse Hlists) as Hkey.
  destruct (get_each_spec sys (range_keys allKeys) ∅ w1) as [_ Hres].
  destruct (get_each sys (range_keys allKeys) ∅ w1) as [[result|err] w2];
    simpl in Hres; [|eauto].
  destruct (Hres result eq_refl) as [Hvalid _].
  destruct (Hvalid key) as [isNamespaced Hok]; [|congruence].
  rewrite (range_keys_perm allKeys). apply elem_of_elements, Hkey.
Qed.

(** *** A primary file in the legacy format *)

Lemma getPathToAuth_legacy (s : types.SystemContext) w :
  types.AuthFilePath s = "" →
  types.LegacyFormatAuthFilePath s ≠ "" →
  getPathToAuth (Some s) w
  = (({| path := types.LegacyFormatAuthFilePath s; legacyFormat := true |},
      true, None), w).
Proof.
  intros Hmodern Hlegacy. unfold getPathToAuth, getPathToAuthWithOS, nonempty.
  rewrite Hmodern. rewrite bool_decide_eq_true_2 by reflexivity.
  rewrite (bool_decide_eq_false_2 _ Hlegacy). reflexivity.
Qed.

(** The error of modifyJSON for a path in the legacy format. *)
Definition legacy_write_error (file : string) : error :=
  fmt_Errorf "writes to %s using legacy format are not supported" [arg_s file].

Lemma modifyJSON_legacy {L : Type} (s : types.SystemContext)
    (editor : dockerConfigFile → L →
              M (dockerConfigFile * (bool * string * option error) * L))
    (l : L) w :
  types.AuthFilePath s = "" →
  types.LegacyFormatAuthFilePath s ≠ "" →
  modifyJSON (Some s) editor l w
  = ((Err (legacy_write_error (types.LegacyFormatAuthFilePath s)), l), w).
Proof.
  intros Hmodern Hlegacy. unfold modifyJSON. munfold.
  rewrite (getPathToAuth_legacy s w Hmodern Hlegacy). reflexivity.
Qed.

(** X13. An auth file in the legacy format is never written. When the
    context names only a legacy file and the auth file helper is the only
    helper, SetCredentials, RemoveAuthentication and
    RemoveAllAuthentication all fail with the error of modifyJSON, and
    change nothing. *)
Theorem legacy_file_is_not_written (s : types.SystemContext)
    (key username password : string) (isNamespaced : bool) w :
  types.AuthFilePath s = "" →
  types.LegacyFormatAuthFilePath s ≠ "" →
  CredentialHelpers (Some s) = Ok [AuthenticationFileHelper] →
  validateKey key = Ok isNamespaced →
  let e := multierror_Error
             [legacy_write_error (types.LegacyFormatAuthFilePath s)] in
  SetCredentials (Some s) key username password w = (Err e, w)
  ∧ RemoveAuthentication (Some s) key w = (Some e, w)
  ∧ RemoveAllAuthentication (Some s) w = (Some e, w).
Proof.
  intros Hmodern Hlegacy Hhelpers Hkey. split; [|split].
  - unfold SetCredentials. rewrite Hkey, Hhelpers.
    cbn [SetCredentials_loop]. munfold.
    destruct (decide (AuthenticationFileHelper = AuthenticationFileHelper));
      [|contradiction].
    rewrite (modifyJSON_legacy s _ () w Hmodern Hlegacy). reflexivity.
  - unfold RemoveAuthentication. rewrite Hkey, Hhelpers.
    cbn [RemoveAuthentication_loop]. unfold RemoveAuthentication_step. munfold.
    destruct (decide (AuthenticationFileHelper = AuthenticationFileHelper));
      [|contradiction].
    rewrite (modifyJSON_legacy s (RemoveAuthentication_editor key isNamespaced)
               (None, false) w Hmodern Hlegacy).
    reflexivity.
  - unfold RemoveAllAuthentication. rewrite Hhelpers.
    cbn [RemoveAllAuthentication_loop]. unfold RemoveAllAuthentication_step. munfold.
    destruct (decide (AuthenticationFileHelper = AuthenticationFileHelper));
      [|contradiction].
    rewrite (modifyJSON_legacy s _ () w Hmodern Hlegacy). reflexivity.
Qed.

(** *** A registry that credHelpers gives to a helper *)

(** The world after a command was sent to a helper program. *)
Definition after_call (c : helper_call) (h : helper_state) w : World :=
  {| files := files w;
     dirs := dirs w;
     mkdir_denied := mkdir_denied w;
     write_denied := write_denied w;
     helpers := h;
     calls := calls w ++ [c] |}.

(** X14. When the primary auth file names in credHelpers a helper for the
    key, SetCredentials with the auth file helper first stores the
    credentials in that helper and does not write them to the file: a
    store that succeeds ends the call, with a description that names the
    helper, and the files are as before. A namespaced key is refused for
    such an entry without any command sent, by an error that wraps the
    one for namespaced keys. *)
Theorem SetCredentials_credHelpers_entry sys (key username password : string)
    (isNamespaced : bool) (rest : list string) w (p : authPath) (u : bool)
    (d : dockerConfigFile) (ch : string) :
  validateKey key = Ok isNamespaced →
  CredentialHelpers sys = Ok (AuthenticationFileHelper :: rest) →
  (getPathToAuth sys w).1 = (p, u, None) →
  legacyFormat p = false →
  filepath_Dir (path p) ∉ mkdir_denied w →
  (parse p w).1 = Ok d →
  gomap_lookup (CredHelpers d) key = Some ch →
  let creds := {| credentials.ServerURL := key;
                  credentials.Username := username;
                  credentials.Secret := password |} in
  let w1 := after_mkdir (filepath_Dir (path p)) w in
  (isNamespaced = false →
   ∀ h, helperclient_Store (helperName ch) creds (helpers w) = (None, h) →
        SetCredentials sys key username password w
        = (Ok ("credential helper: " +:+ ch),
           after_call (call_Store (helperName ch) creds) h w1))
  ∧ (isNamespaced = true → rest = [] →
     SetCredentials sys key username password w
     = (Err (multierror_Error
               [fmt_Errorf "updating %q: %w"
                  [arg_s (path p); arg_w (Some (unsupportedNamespaceErr ch))]]),
        w1)).
Proof.
  intros Hkey Hhelpers Hpath Hmodern Hmkdir Hparse Hch creds w1.
  assert (parse p w1 = (Ok d, w1)) as Hparse1.
  { apply parse_eq. rewrite <- Hparse. apply parse_same_file. reflexivity. }
  pose proof (getPathToAuth_world sys w) as Hw.
  split.
  - intros -> h Hstore.
    unfold SetCredentials. rewrite Hkey, Hhelpers.
    cbn [SetCredentials_loop]. munfold.
    destruct (decide (AuthenticationFileHelper = AuthenticationFileHelper));
      [|contradiction].
    unfold modifyJSON. munfold.
    destruct (getPathToAuth sys w) as [[[p' u'] err] w0].
    simpl in Hpath, Hw. injection Hpath as -> -> ->. subst w0.
    rewrite Hmodern, (os_MkdirAll_ok _ _ Hmkdir). fold w1. rewrite Hparse1.
    unfold SetCredentials_editor. munfold. rewrite Hch.
    unfold setAuthToCredHelper, call_helper. munfold. fold creds.
    change (helpers w1) with (helpers w). rewrite Hstore. reflexivity.
  - intros -> ->.
    unfold SetCredentials. rewrite Hkey, Hhelpers.
    cbn [SetCredentials_loop]. munfold.
    destruct (decide (AuthenticationFileHelper = AuthenticationFileHelper));
      [|contradiction].
    unfold modifyJSON. munfold.
    destruct (getPathToAuth sys w) as [[[p' u'] err] w0].
    simpl in Hpath, Hw. injection Hpath as -> -> ->. subst w0.
    rewrite Hmodern, (os_MkdirAll_ok _ _ Hmkdir). fold w1. rewrite Hparse1.
    unfold SetCredentials_editor. munfold. rewrite Hch. reflexivity.
Qed.

(** *** The primary file from one call to the next *)

(** What parse returns for a file in the modern format that holds the
    encoding of [d]: the maps of [d], empty ones for those that are nil
    or were left out. *)
Definition reloaded (d : dockerConfigFile) : dockerConfigFile :=
  {| AuthConfigs := Some (default ∅ (AuthConfigs d));
     CredHelpers := Some (default ∅ (CredHelpers d)) |}.






Lemma utf8_doc_reloaded (d : dockerConfigFile) : utf8_doc d → utf8_doc (reloaded d).
Proof. intros [Ha Hc]. split; assumption. Qed.








(** *** Identity tokens *)

(** X18. A helper program that answers with the user name <token> gives
    an identity token: GetCredentials returns the secret as the identity
    token, with no user name and no password, and the deprecated
    GetAuthentication, which has no place for it, fails with an error
    that wraps ErrNotSupported. The helper is asked for the registry of
    the key. *)
Theorem identity_token_from_helper sys (key : string) (isNamespaced : bool)
    (helper : string) (rest : list string) w (creds : credentials.Credentials)
    (h : helper_state) :
  validateKey key = Ok isNamespaced →
  sys ≫= types.DockerAuthConfig_ = None →
  CredentialHelpers sys = Ok (helper :: rest) →
  helper ≠ AuthenticationFileHelper →
  helperclient_Get (helperName helper) (registryOfKey key) (helpers w) = (Ok creds, h) →
  credentials.Username creds = "<token>" →
  credentials.Secret creds ≠ "" →
  let w' := after_call (call_Get (helperName helper) (registryOfKey key)) h w in
  GetCredentials sys key w
  = (Ok {| types.Username := ""; types.Password := "";
           types.IdentityToken := credentials.Secret creds |}, w')
  ∧ GetAuthentication sys key w
    = (Err (fmt_Errorf
              "non-empty identity token found and this API doesn't support it: %w"
              [arg_w (Some ErrNotSupported)]), w').
Proof.
  intros Hkey Hinline Hhelpers Hne Hget Huser Hsecret w'.
  assert (GetCredentials sys key w
          = (Ok {| types.Username := ""; types.Password := "";
                   types.IdentityToken := credentials.Secret creds |}, w')) as Hcreds.
  { unfold GetCredentials, getCredentialsWithHomeDir.
    rewrite Hkey, Hinline, Hhelpers. cbn [getCredentials_loop]. munfold.
    destruct (decide (helper = AuthenticationFileHelper)); [contradiction|].
    unfold getAuthFromCredHelper, call_helper. munfold.
    rewrite Hget, Huser. rewrite bool_decide_eq_true_2 by reflexivity.
    rewrite bool_decide_eq_false_2; [reflexivity|].
    intros [= Hempty]. congruence. }
  split; [exact Hcreds|].
  unfold GetAuthentication, getAuthenticationWithHomeDir. munfold.
  unfold GetCredentials in Hcreds. rewrite Hcreds.
  unfold nonempty. cbn [types.IdentityToken].
  rewrite (bool_decide_eq_false_2 _ Hsecret). reflexivity.
Qed.

(** *** The second pass of a lookup *)

Lemma first_normalized_Some (entries : list (string * dockerAuthConfig))
    (legacy : bool) (registry : string) :
  (∃ k v, (k, v) ∈ entries ∧ normalizeAuthFileKey k legacy = registry) →
  ∃ k v, first_normalized entries legacy registry = Some (k, v)
         ∧ (k, v) ∈ entries ∧ normalizeAuthFileKey k legacy = registry.
Proof.
  induction entries as [|[k0 v0] entries IH]; intros (k & v & Hin & Hnorm).
  { apply elem_of_nil in Hin. contradiction. }
  simpl. destruct (bool_decide (normalizeAuthFileKey k0 legacy = registry)) eqn:Hhead.
  - apply bool_decide_eq_true in Hhead. exists k0, v0.
    split; [reflexivity|]. split; [left | exact Hhead].
  - apply bool_decide_eq_false in Hhead.
    apply elem_of_cons in Hin as [[= -> ->]|Hin]; [contradiction|].
    destruct IH as (k' & v' & Hfirst & Hin' & Hnorm'); [eauto|].
    exists k', v'. split; [exact Hfirst|]. split; [right; exact Hin' | exact Hnorm'].
Qed.

(** X19. The second pass of a lookup in a file. When no candidate key is
    in auths and exactly one key of auths has the registry as its
    normalised form, the credentials of that entry are returned, whatever
    the order in which the map is visited. This is how an entry written
    under a URL or under another name of docker.io answers for the
    registry. *)
Theorem findCredentialsInFile_normalized (key registry : string) (p : authPath) w
    (d : dockerConfigFile) (k : string) (v : dockerAuthConfig) :
  (parse p w).1 = Ok d →
  gomap_lookup (CredHelpers d) registry = None →
  (∀ k', k' ∈ candidates p key registry → gomap_lookup (AuthConfigs d) k' = None) →
  gomap_lookup (AuthConfigs d) k = Some v →
  normalizeAuthFileKey k (legacyFormat p) = normalizeRegistry registry →
  (∀ k', is_Some (gomap_lookup (AuthConfigs d) k') →
         normalizeAuthFileKey k' (legacyFormat p) = normalizeRegistry registry →
         k' = k) →
  findCredentialsInFile key registry p w = (decodeDockerAuth (path p) k v, w).
Proof.
  intros Hparse Hch Hnone Hk Hnorm Hunique.
  unfold findCredentialsInFile. munfold.
  rewrite (parse_eq p w (Ok d) Hparse), Hch.
  assert ((if negb (legacyFormat p) then authKeysForKey key else [registry])
          = candidates p key registry) as ->
      by (unfold candidates; destruct (legacyFormat p); reflexivity).
  rewrite (first_existing_none _ _ Hnone).
  destruct (first_normalized_Some (go_range (default ∅ (AuthConfigs d)))
              (legacyFormat p) (normalizeRegistry registry))
    as (k' & v' & Hfirst & Hin & Hnorm').
  { exists k, v. split; [apply go_range_elem, Hk | exact Hnorm]. }
  rewrite Hfirst.
  assert (gomap_lookup (AuthConfigs d) k' = Some v') as Hk'.
  { rewrite (go_range_perm (default ∅ (AuthConfigs d))) in Hin.
    apply elem_of_map_to_list in Hin.
    destruct (AuthConfigs d) as [g|]; [exact Hin|].
    simpl in Hin. rewrite lookup_empty in Hin. discriminate. }
  assert (k' = k) as -> by (apply Hunique; [rewrite Hk'; eauto | exact Hnorm']).
  rewrite Hk in Hk'. injection Hk' as <-. reflexivity.
Qed.

(** *** When the primary path cannot be determined *)

(** The context names no auth file and no root for implicit paths. *)
Definition no_path_in_context sys : Prop :=
  match sys with
  | None => True
  | Some s => types.AuthFilePath s = ""
              ∧ types.LegacyFormatAuthFilePath s = ""
              ∧ types.RootForImplicitAbsolutePaths s = ""
  end.

Lemma getPathToAuth_error_shape sys w (e : error) :
  (getPathToAuth sys w).1.2 = Some e → ∃ format args, e = fmt_Errorf format args.
Proof.
  unfold getPathToAuth, getPathToAuthWithOS, os_Stat_IsNotExist. munfold.
  repeat (case_match; simpl; try discriminate).
  all: intros [= <-]; eauto.
Qed.

(** X20. getPathToAuth fails in one situation only: the context names no
    path, the system is neither Windows nor macOS, and XDG_RUNTIME_DIR is
    set to a name that does not exist. A path that the context names is
    never checked. With the auth file helper alone SetCredentials then
    fails with that error and changes nothing. *)
Theorem getPathToAuth_error sys w :
  (is_Some ((getPathToAuth sys w).1.2)
   ↔ no_path_in_context sys
     ∧ GOOS ≠ "windows" ∧ GOOS ≠ "darwin"
     ∧ os_Getenv "XDG_RUNTIME_DIR" ≠ ""
     ∧ (os_Getenv "XDG_RUNTIME_DIR" ∉ dirs w)
     ∧ files w !! os_Getenv "XDG_RUNTIME_DIR" = None)
  ∧ ∀ (e : error) (key username password : string) (isNamespaced : bool),
      (getPathToAuth sys w).1.2 = Some e →
      CredentialHelpers sys = Ok [AuthenticationFileHelper] →
      validateKey key = Ok isNamespaced →
      SetCredentials sys key username password w = (Err (multierror_Error [e]), w).
Proof.
  split.
  - unfold getPathToAuth, getPathToAuthWithOS, os_Stat_IsNotExist, nonempty,
      no_path_in_context.
    munfold. cbv zeta.
    assert (∀ a b : string, negb (bool_decide (a = b)) = true ↔ a ≠ b) as Hneq.
    { intros a b. rewrite negb_true_iff, bool_decide_eq_false. reflexivity. }
    assert (∀ a b : string, negb (bool_decide (a = b)) = false ↔ a = b) as Heq.
    { intros a b. rewrite negb_false_iff, bool_decide_eq_true. reflexivity. }
    split.
    + repeat (case_match; simpl; try (intros [? [=]]; fail)); intros _;
        repeat match goal with
               | H : negb (bool_decide _) = true |- _ => apply Hneq in H
               | H : negb (bool_decide _) = false |- _ => apply Heq in H
               | H : _ || _ = false |- _ =>
                   apply orb_false_iff in H; destruct H as [? ?]
               | H : bool_decide _ = false |- _ => apply bool_decide_eq_false in H
               end;
        try discriminate; cbv beta iota; repeat split; try assumption;
        try match goal with
        | H : ¬ is_Some ?x |- ?x = None =>
            destruct x; [destruct H; eauto | reflexivity]
        end.
    + intros (Hctx & Hwin & Hmac & Hset & Hdir & Hfile).
      assert ((bool_decide (GOOS = "windows") || bool_decide (GOOS = "darwin")) = false)
        as Hos by (rewrite !bool_decide_eq_false_2 by assumption; reflexivity).
      assert ((bool_decide (os_Getenv "XDG_RUNTIME_DIR" ∈ dirs w)
               || bool_decide (is_Some (files w !! os_Getenv "XDG_RUNTIME_DIR")))
              = false) as Hstat.
      { rewrite (bool_decide_eq_false_2 _ Hdir), Hfile.
        rewrite bool_decide_eq_false_2; [reflexivity | intros [? [=]]]. }
      apply Hneq in Hset.
      destruct sys as [s|].
      * destruct Hctx as (-> & -> & ->).
        rewrite bool_decide_eq_true_2 by reflexivity. simpl.
        rewrite Hos, Hset. cbv beta. rewrite Hstat. simpl. eauto.
      * rewrite Hos, Hset. cbv beta. rewrite Hstat. simpl. eauto.
  - intros e key username password isNamespaced Herr Hhelpers Hkey.
    unfold SetCredentials. rewrite Hkey, Hhelpers.
    cbn [SetCredentials_loop]. munfold.
    destruct (decide (AuthenticationFileHelper = AuthenticationFileHelper));
      [|contradiction].
    unfold modifyJSON. munfold.
    pose proof (getPathToAuth_world sys w) as Hw.
    destruct (getPathToAuth sys w) as [[[p u] err] w0] eqn:Hwith.
    simpl in Herr, Hw. subst err w0. simpl.
    destruct (getPathToAuth_error_shape sys w e) as (format & args & ->);
      [|reflexivity].
    rewrite Hwith. reflexivity.
Qed.

(** *** Precedence *)

(** X21. The first auth file that has credentials for the key answers.
    When the auth file helper is first, the files before [p] on the
    search path do not exist and the lookup in [p] returns credentials
    that are not empty, GetCredentials returns them and stops: no later
    file is read (one that does not parse does no harm) and no later
    helper is asked. *)
Theorem first_file_answers sys (key : string) (isNamespaced : bool)
    (rest : list string) (pre : list authPath) (p : authPath) (ps : list authPath)
    w w' (creds : types.DockerAuthConfig) :
  validateKey key = Ok isNamespaced →
  sys ≫= types.DockerAuthConfig_ = None →
  CredentialHelpers sys = Ok (AuthenticationFileHelper :: rest) →
  getAuthFilePaths sys homedir_Get w = (pre ++ p :: ps, w) →
  (∀ q, q ∈ pre → files w !! path q = None) →
  findCredentialsInFile key (registryOfKey key) p w = (Ok creds, w') →
  creds ≠ types.empty →
  GetCredentials sys key w = (Ok creds, w').
Proof.
  intros Hkey Hinline Hhelpers Hpaths Habsent Hfind Hfound.
  unfold GetCredentials, getCredentialsWithHomeDir.
  rewrite Hkey, Hinline, Hhelpers. cbn [getCredentials_loop]. munfold.
  destruct (decide (AuthenticationFileHelper = AuthenticationFileHelper));
    [|contradiction].
  unfold getCredentialsFromAuthFiles. munfold. rewrite Hpaths.
  rewrite (getCredentialsFromAuthFiles_loop_skip key (registryOfKey key) pre
             (p :: ps) w Habsent).
  cbn [getCredentialsFromAuthFiles_loop]. munfold. rewrite Hfind.
  rewrite (bool_decide_eq_false_2 _ Hfound). simpl.
  rewrite (bool_decide_eq_false_2 _ Hfound). reflexivity.
Qed.

(** X22. The error of a helper is dropped when a later helper has the
    credentials. When the first helper program fails, with whatever
    error, and the second answers with a user name and a secret,
    GetCredentials returns these and no error. *)
Theorem later_helper_answers sys (key : string) (isNamespaced : bool)
    (first second : string) (rest : list string) w (e : error)
    (creds : credentials.Credentials) (h1 h2 : helper_state) :
  validateKey key = Ok isNamespaced →
  sys ≫= types.DockerAuthConfig_ = None →
  CredentialHelpers sys = Ok (first :: second :: rest) →
  first ≠ AuthenticationFileHelper →
  second ≠ AuthenticationFileHelper →
  helperclient_Get (helperName first) (registryOfKey key) (helpers w) = (Err e, h1) →
  helperclient_Get (helperName second) (registryOfKey key) h1 = (Ok creds, h2) →
  credentials.Username creds ≠ "<token>" →
  credentials.Username creds ≠ "" ∨ credentials.Secret creds ≠ "" →
  (GetCredentials sys key w).1
  = Ok {| types.Username := credentials.Username creds;
          types.Password := credentials.Secret creds;
          types.IdentityToken := "" |}.
Proof.
  intros Hkey Hinline Hhelpers Hfirst Hsecond Hget1 Hget2 Htoken Hnonempty.
  assert ({| types.Username := credentials.Username creds;
             types.Password := credentials.Secret creds;
             types.IdentityToken := "" |} ≠ types.empty) as Hfound
      by (intros [= Hu Hs]; destruct Hnonempty; congruence).
  unfold GetCredentials, getCredentialsWithHomeDir.
  rewrite Hkey, Hinline, Hhelpers. cbn [getCredentials_loop]. munfold.
  destruct (decide (first = AuthenticationFileHelper)); [contradiction|].
  destruct (decide (second = AuthenticationFileHelper)); [contradiction|].
  unfold getAuthFromCredHelper, call_helper. munfold. rewrite Hget1.
  destruct (IsErrCredentialsNotFound e); simpl; rewrite Hget2;
    rewrite (bool_decide_eq_false_2 _ Htoken);
    rewrite (bool_decide_eq_false_2 _ Hfound); reflexivity.
Qed.

End Effects.

(** * The further theorems at work in the concrete environment *)

Section MoreInstances.

#[local] Existing Instance Concrete.json.
#[local] Existing Instance Concrete.helper_client.
#[local] Existing Instance Concrete.map_range.
#[local] Existing Instance file_only.

(** The list command of the helper programs that keep a table: the
    registries of the program with their user names. The program
    [docker-credential-missing] is not installed. *)
#[local] Instance table_lister : HelperLister :=
  {| helperclient_List := λ program st,
       if bool_decide (program = "docker-credential-missing")
       then (Err (foreign_error "executable file not found in $PATH"), st)
       else (Ok (list_to_map
                   (omap (λ entry : string * string * (string * string),
                            if bool_decide (entry.1.1 = program)
                            then Some (entry.1.2, entry.2.1)
                            else None)
                         (map_to_list st))), st);
     is_exec_ErrNotFound := λ e,
       match e with
       | foreign_error text =>
           bool_decide (text = "executable file not found in $PATH")
       | _ => false
       end |}.

#[local] Program Instance sorted_order : RangeOrder :=
  {| range_strings := map_to_list; range_keys := elements |}.
Next Obligation. reflexivity. Qed.
Next Obligation. reflexivity. Qed.

(** A file that holds the encoding of a document. *)
Definition file_of (d : dockerConfigFile) : file :=
  RegularFile (match json_MarshalIndent d with
               | Ok raw => raw
               | Err _ => ""
               end).

(** The primary auth file has an entry whose key has an '@'. *)
Definition spoiled : World :=
  Concrete.world
    {[ path primary :=
         file_of {| AuthConfigs := Some {[ "user@quay.io" := {| Auth := "YTpi";
                                                                IdentityToken := "" |} ]};
                    CredHelpers := None |} ]}.

(** The primary auth file gives quay.io to the helper [pass]. *)
Definition delegating : World :=
  Concrete.world
    {[ path primary :=
         file_of {| AuthConfigs := Some ∅;
                    CredHelpers := Some {[ "quay.io" := "pass" ]} |} ]}.

(** The primary auth file as docker login writes it for Docker Hub. *)
Definition docker_hub : dockerConfigFile :=
  {| AuthConfigs := Some {[ "https://index.docker.io/v1/" := {| Auth := "YTpi";
                                                                IdentityToken := "" |} ]};
     CredHelpers := Some ∅ |}.
Definition docker_login : World :=
  Concrete.world {[ path primary := file_of docker_hub ]}.

(** The helper [pass] holds an identity token for quay.io. *)
Definition with_token : World :=
  {| files := ∅; dirs := {["/run"]}; mkdir_denied := ∅; write_denied := ∅;
     helpers := {[ ("docker-credential-pass", "quay.io") := ("<token>", "t0k") ]};
     calls := [] |}.

(** A context that names an auth file in the legacy format. *)
Definition legacy_only : types.SystemContext :=
  {| types.AuthFilePath := "";
     types.LegacyFormatAuthFilePath := "/home/user/.dockercfg";
     types.RootForImplicitAbsolutePaths := "";
     types.DockerAuthConfig_ := None |}.


Lemma RemoveAllAuthentication_success_witness :
  let w' := (RemoveAllAuthentication None logged_in).2 in
  parse primary w' = (Ok no_entries, w').
Proof.
  eapply (RemoveAllAuthentication_success None [] logged_in _ primary false).
  - exact concrete_json_spec.
  - reflexivity.
  - reflexivity.
  - vm_compute. reflexivity.
  - vm_compute. reflexivity.
Defined.

Lemma GetAllCredentials_invalid_key_witness :
  ∃ e', (GetAllCredentials None spoiled).1 = Err e'.
Proof.
  eapply (GetAllCredentials_invalid_key None ["containers-auth.json"] spoiled
            primary _ "user@quay.io").
  - reflexivity.
  - left.
  - vm_compute. left.
  - vm_compute. reflexivity.
  - right. exists "user@quay.io". split; [eexists; vm_compute; reflexivity|].
    vm_compute. reflexivity.
  - reflexivity.
Defined.

Lemma legacy_file_is_not_written_witness :
  let e := multierror_Error [legacy_write_error "/home/user/.dockercfg"] in
  SetCredentials (Some legacy_only) "quay.io" "alice" "secret" fresh = (Err e, fresh)
  ∧ RemoveAuthentication (Some legacy_only) "quay.io" fresh = (Some e, fresh)
  ∧ RemoveAllAuthentication (Some legacy_only) fresh = (Some e, fresh).
Proof.
  apply (legacy_file_is_not_written legacy_only "quay.io" "alice" "secret" false fresh).
  - reflexivity.
  - discriminate.
  - reflexivity.
  - reflexivity.
Defined.

Lemma SetCredentials_credHelpers_entry_witness :
  let creds := {| credentials.ServerURL := "quay.io";
                  credentials.Username := "alice";
                  credentials.Secret := "secret" |} in
  let w1 := after_mkdir (filepath_Dir (path primary)) delegating in
  (false = false →
   ∀ h, helperclient_Store (helperName "pass") creds (helpers delegating) = (None, h) →
        SetCredentials None "quay.io" "alice" "secret" delegating
        = (Ok ("credential helper: " +:+ "pass"),
           after_call (call_Store (helperName "pass") creds) h w1))
  ∧ (false = true → @nil string = [] →
     SetCredentials None "quay.io" "alice" "secret" delegating
     = (Err (multierror_Error
               [fmt_Errorf "updating %q: %w"
                  [arg_s (path primary);
                   arg_w (Some (unsupportedNamespaceErr "pass"))]]),
        w1)).
Proof.
  eapply (SetCredentials_credHelpers_entry None "quay.io" "alice" "secret" false []
            delegating primary false _ "pass").
  - reflexivity.
  - reflexivity.
  - reflexivity.
  - reflexivity.
  - apply not_elem_of_empty.
  - vm_compute. reflexivity.
  - vm_compute. reflexivity.
Defined.




Lemma identity_token_from_helper_witness :
  let w' := after_call (call_Get (helperName "pass") (registryOfKey "quay.io/ns"))
              (helpers with_token) with_token in
  GetCredentials (platform := external_only) None "quay.io/ns" with_token
  = (Ok {| types.Username := ""; types.Password := ""; types.IdentityToken := "t0k" |},
     w')
  ∧ GetAuthentication (platform := external_only) None "quay.io/ns" with_token
    = (Err (fmt_Errorf
              "non-empty identity token found and this API doesn't support it: %w"
              [arg_w (Some ErrNotSupported)]), w').
Proof.
  apply (identity_token_from_helper (platform := external_only)
           None "quay.io/ns" true "pass" ["secretservice"] with_token
           {| credentials.ServerURL := "quay.io";
              credentials.Username := "<token>";
              credentials.Secret := "t0k" |} (helpers with_token)).
  - reflexivity.
  - reflexivity.
  - reflexivity.
  - discriminate.
  - vm_compute. reflexivity.
  - reflexivity.
  - discriminate.
Defined.

Lemma findCredentialsInFile_normalized_witness :
  let v := {| Auth := "YTpi"; IdentityToken := "" |} in
  findCredentialsInFile "docker.io/library/busybox" "docker.io" primary docker_login
  = (decodeDockerAuth (path primary) "https://index.docker.io/v1/" v, docker_login).
Proof.
  apply (findCredentialsInFile_normalized "docker.io/library/busybox" "docker.io"
           primary docker_login docker_hub "https://index.docker.io/v1/").
  - vm_compute. reflexivity.
  - reflexivity.
  - intros k' Hin. vm_compute in Hin.
    repeat (apply elem_of_cons in Hin as [->|Hin]; [reflexivity|]).
    apply elem_of_nil in Hin. contradiction.
  - reflexivity.
  - reflexivity.
  - intros k' [v' Hk'] _. simpl in Hk'.
    apply lookup_singleton_Some in Hk' as [<- _]. reflexivity.
Defined.

(** The primary auth file has credentials for quay.io; the file of the
    Docker client has no byte. *)
Definition docker_config : authPath :=
  newAuthPathDefault "/home/user/.docker/config.json".
Definition second_file_empty : World :=
  Concrete.world
    {[ path primary :=
         file_of {| AuthConfigs := Some {[ "quay.io" := {| Auth := "YTpi";
                                                           IdentityToken := "" |} ]};
                    CredHelpers := None |};
       path docker_config := RegularFile "" ]}.

Lemma first_file_answers_witness :
  GetCredentials None "quay.io/ns" second_file_empty
  = (Ok {| types.Username := "a"; types.Password := "b"; types.IdentityToken := "" |},
     second_file_empty)
  ∧ ∃ e, parse docker_config second_file_empty = (Err e, second_file_empty).
Proof.
  split; [|eexists; vm_compute; reflexivity].
  eapply (first_file_answers None "quay.io/ns" true [] [] primary).
  - reflexivity.
  - reflexivity.
  - reflexivity.
  - vm_compute. reflexivity.
  - intros q Hin. apply elem_of_nil in Hin. contradiction.
  - vm_compute. reflexivity.
  - discriminate.
Defined.

(** The helper [broken] fails; the helper [pass] holds a password. *)
Definition broken_then_pass : Platform := Concrete.platform ∅ ["broken"; "pass"].
Definition with_password : World :=
  {| files := ∅; dirs := {["/run"]}; mkdir_denied := ∅; write_denied := ∅;
     helpers := {[ ("docker-credential-pass", "quay.io") := ("alice", "secret") ]};
     calls := [] |}.

Lemma later_helper_answers_witness :
  (GetCredentials (platform := broken_then_pass) None "quay.io" with_password).1
  = Ok {| types.Username := "alice"; types.Password := "secret";
          types.IdentityToken := "" |}.
Proof.
  apply (later_helper_answers (platform := broken_then_pass)
           None "quay.io" false "broken" "pass" [] with_password
           (foreign_error "exit status 1")
           {| credentials.ServerURL := "quay.io";
              credentials.Username := "alice";
              credentials.Secret := "secret" |}
           (helpers with_password) (helpers with_password)).
  - reflexivity.
  - reflexivity.
  - reflexivity.
  - discriminate.
  - discriminate.
  - reflexivity.
  - vm_compute. reflexivity.
  - discriminate.
  - left. discriminate.
Defined.

End MoreInstances.
